(** * ZX Spectrum 48K emulator core: bus, ULA, Z80 interrupt logic, tape player

  A shallow embedding of the JavaScript sources (spectrum/memory.js,
  spectrum/ula.js, core/cpu.js, decoder/decoder.js, instructions/base.js,
  instructions/extended.js, spectrum/tape.js, spectrum/spectrum.js) and
  the properties of the emulator core established over it.

  Conventions.  JavaScript numbers that hold registers, addresses and
  T-state counters are integers, modelled as [Z].  The operators
  [&], [|], [<<], [>>] and [~] become [Z.land], [Z.lor], [Z.shiftl],
  [Z.shiftr] and [Z.lnot]; every masked expression of the sources
  ([x & 0xff], [x & 0xffff], [(x >> 8) & 0xff]) only looks at the low
  sixteen bits of its operand, where the 32-bit operators of JavaScript
  and the unbounded ones of [Z] agree.  A [Uint8Array] is a [list Z]
  indexed with stdpp's lookup and insert.  Console output is not
  modelled, except where building a log line throws. *)

From Stdlib Require Import ZArith Lia Bool.
From stdpp Require Import base option list.
From Equations Require Import Equations.

Local Open Scope Z_scope.

(** ** Typed arrays *)

(** [arr[i]] on a [Uint8Array]: an index outside the array reads as
  [undefined], which every bitwise operator of the sources coerces to 0.
  Addresses are masked to sixteen bits before they are used as an index,
  so on arrays of the sizes the constructors allocate the default is
  never taken. *)
Definition aget (arr : list Z) (i : Z) : Z :=
  if i <? 0 then 0 else default 0 (arr !! Z.to_nat i).

(** [arr[i] = v] on a [Uint8Array]: the element keeps the low eight bits
  of [v]; a store outside the array is dropped. *)
Definition aset (arr : list Z) (i : Z) (v : Z) : list Z :=
  if i <? 0 then arr else <[Z.to_nat i := Z.land v 255]> arr.

(** ** Outcomes *)

(** The outcome of a method: it returns, it throws a [TypeError] (a
    property read on [undefined] or [null]), the recursion budget of this
    model is used up, or it reaches an instruction of the sources that is
    not embedded here. *)
Inductive result (A : Type) :=
| Ok (x : A)
| TypeError
| OutOfFuel
| NotEmbedded.
Arguments Ok {A} x.
Arguments TypeError {A}.
Arguments OutOfFuel {A}.
Arguments NotEmbedded {A}.

Definition bind {A B : Type} (r : result A) (k : A -> result B) : result B :=
  match r with
  | Ok x => k x
  | TypeError => TypeError
  | OutOfFuel => OutOfFuel
  | NotEmbedded => NotEmbedded
  end.

(** ** ULA (spectrum/ula.js) *)

Module ULA.

(** The fields that the embedded operations read or write.  The keyboard
    matrix, the key map and the border history are not touched by any of
    them and are left out.  [earBit] is [true] after construction and 1 or
    0 after [setTapeInput]; only its truthiness is ever read, and it is
    kept as a number. *)
Record t := mk {
  borderColor : Z;
  speakerState : bool;
  earBit : Z;
  currentScanline : Z;
  scanlineTStates : Z;
  interruptRequested : bool;
  floatingBusValue : Z
}.

Definition TSTATES_PER_SCANLINE : Z := 224.
Definition TOTAL_SCANLINES : Z := 312.

(** The state built by the constructor (and restored by [reset]). *)
Definition init : t :=
  mk 7 false 1 0 0 false 255.

(** One turn of the body of the [while] of [addCycles]. *)
Definition addCycles_body (u : t) : t :=
  let ts := scanlineTStates u - TSTATES_PER_SCANLINE in
  let sl := currentScanline u + 1 in
  if sl >=? TOTAL_SCANLINES
  then mk (borderColor u) (speakerState u) (earBit u) 0 ts true
          (floatingBusValue u)
  else mk (borderColor u) (speakerState u) (earBit u) sl ts
          (interruptRequested u) (floatingBusValue u).

(** [while (this.scanlineTStates >= this.TSTATES_PER_SCANLINE) { ... }] *)
Equations addCycles_loop (u : t) : t
  by wf (Z.to_nat (scanlineTStates u)) lt :=
addCycles_loop u with Z_ge_dec (scanlineTStates u) TSTATES_PER_SCANLINE := {
  | left _ => addCycles_loop (addCycles_body u)
  | right _ => u }.
Next Obligation.
  unfold addCycles_body, TSTATES_PER_SCANLINE in *.
  destruct (_ >=? _); simpl; lia.
Qed.

Definition addCycles (u : t) (cycles : Z) : t :=
  addCycles_loop
    (mk (borderColor u) (speakerState u) (earBit u) (currentScanline u)
        (scanlineTStates u + cycles) (interruptRequested u)
        (floatingBusValue u)).

(** [checkInterrupt] returns the flag and clears it. *)
Definition checkInterrupt (u : t) : bool * t :=
  (interruptRequested u,
   mk (borderColor u) (speakerState u) (earBit u) (currentScanline u)
      (scanlineTStates u) false (floatingBusValue u)).

Definition getCurrentScanline (u : t) : Z := currentScanline u.

(** [setTapeInput(bit)]: [this.earBit = bit ? 1 : 0]. *)
Definition setTapeInput (u : t) (bit : Z) : t :=
  mk (borderColor u) (speakerState u) (if bit =? 0 then 0 else 1)
     (currentScanline u) (scanlineTStates u) (interruptRequested u)
     (floatingBusValue u).

(** The position of the beam inside the frame, in T-states. *)
Definition frameTState (u : t) : Z :=
  currentScanline u * TSTATES_PER_SCANLINE + scanlineTStates u.

(** States reached from the constructor's by [addCycles] with
    non-negative arguments. *)
Inductive reachable : t -> Prop :=
| reach_init : reachable init
| reach_tick u cycles :
    reachable u -> 0 <= cycles -> reachable (addCycles u cycles).

End ULA.

(** ** Memory (spectrum/memory.js) *)

Module Memory.

(** [ula] is the reference installed by [setULA] ([None] is [null]). *)
Record t := mk {
  rom : list Z;
  ram : list Z;
  romLoaded : bool;
  ula : option ULA.t
}.

Definition contentionPattern : list Z := [6; 5; 4; 3; 2; 1; 0; 0].

(** The arrays have the sizes the constructor allocates. *)
Definition wf (m : t) : Prop :=
  Z.of_nat (length (rom m)) = 16384 /\ Z.of_nat (length (ram m)) = 49152.

(** [tstate % 8] is the truncated remainder, [Z.rem]; on the
    non-negative T-states [addCycles] produces it is [tstate & 7]. *)
Definition getContentionDelay (m : t) (addr : Z) : Z :=
  match ula m with
  | None => 0
  | Some u =>
      if (addr <? 0x4000) || (addr >=? 0x8000) then 0
      else
        let scanline := ULA.getCurrentScanline u in
        let tstate := ULA.scanlineTStates u in
        if (scanline <? 64) || (scanline >=? 256) then 0
        else if tstate <? 128
             then aget contentionPattern (Z.rem tstate 8)
             else 0
  end.

(** [read] computes the delay into a local constant and returns the
    byte alone. *)
Definition read (m : t) (addr : Z) : Z :=
  let addr := Z.land addr 0xffff in
  let delay := getContentionDelay m addr in
  if addr <? 0x4000 then aget (rom m) addr
  else aget (ram m) (addr - 0x4000).

(** [readWithContention] returns the pair [{value, delay}]. *)
Definition readWithContention (m : t) (addr : Z) : Z * Z :=
  let addr := Z.land addr 0xffff in
  let delay := getContentionDelay m addr in
  let value := if addr <? 0x4000 then aget (rom m) addr
               else aget (ram m) (addr - 0x4000) in
  (value, delay).

Definition write (m : t) (addr value : Z) : t :=
  let addr := Z.land addr 0xffff in
  let value := Z.land value 0xff in
  if addr <? 0x4000 then m
  else mk (rom m) (aset (ram m) (addr - 0x4000) value) (romLoaded m) (ula m).

(** [writeWithContention] stores like [write] and returns the delay. *)
Definition writeWithContention (m : t) (addr value : Z) : t * Z :=
  let addr := Z.land addr 0xffff in
  let value := Z.land value 0xff in
  let delay := getContentionDelay m addr in
  (if addr >=? 0x4000
   then mk (rom m) (aset (ram m) (addr - 0x4000) value) (romLoaded m) (ula m)
   else m,
   delay).

(** A store request: either of the two write entry points. *)
Inductive store :=
| ByWrite (addr value : Z)
| ByWriteWithContention (addr value : Z).

Definition run_store (m : t) (s : store) : t :=
  match s with
  | ByWrite a v => write m a v
  | ByWriteWithContention a v => fst (writeWithContention m a v)
  end.

Definition run_stores (m : t) (ss : list store) : t :=
  foldl run_store m ss.

End Memory.

(** ** Z80 CPU (core/cpu.js) *)

Module Z80CPU.

(** The register file, the interrupt state, the T-state counter and the
    memory reference ([None] is [null]).  The [io] reference is used by
    the port instructions only, which are outside the embedded fragment. *)
Record t := mk {
  a : Z;
  f : Z;
  b : Z;
  c : Z;
  d : Z;
  e : Z;
  h : Z;
  l : Z;
  a_ : Z;
  f_ : Z;
  b_ : Z;
  c_ : Z;
  d_ : Z;
  e_ : Z;
  h_ : Z;
  l_ : Z;
  ix : Z;
  iy : Z;
  sp : Z;
  pc : Z;
  i : Z;
  r : Z;
  iff1 : bool;
  iff2 : bool;
  im : Z;
  enableInterruptsPending : bool;
  halted : bool;
  tstates : Z;
  memory : option Memory.t
}.

(** Field assignments [this.x = v]. *)
Definition with_a (s : t) (v : Z) : t :=
  mk v (f s) (b s) (c s) (d s) (e s) (h s) (l s) (a_ s) (f_ s) (b_ s)
     (c_ s) (d_ s) (e_ s) (h_ s) (l_ s) (ix s) (iy s) (sp s) (pc s) (i s)
     (r s) (iff1 s) (iff2 s) (im s) (enableInterruptsPending s) (halted s)
     (tstates s) (memory s).
Definition with_f (s : t) (v : Z) : t :=
  mk (a s) v (b s) (c s) (d s) (e s) (h s) (l s) (a_ s) (f_ s) (b_ s)
     (c_ s) (d_ s) (e_ s) (h_ s) (l_ s) (ix s) (iy s) (sp s) (pc s) (i s)
     (r s) (iff1 s) (iff2 s) (im s) (enableInterruptsPending s) (halted s)
     (tstates s) (memory s).
Definition with_b (s : t) (v : Z) : t :=
  mk (a s) (f s) v (c s) (d s) (e s) (h s) (l s) (a_ s) (f_ s) (b_ s)
     (c_ s) (d_ s) (e_ s) (h_ s) (l_ s) (ix s) (iy s) (sp s) (pc s) (i s)
     (r s) (iff1 s) (iff2 s) (im s) (enableInterruptsPending s) (halted s)
     (tstates s) (memory s).
Definition with_c (s : t) (v : Z) : t :=
  mk (a s) (f s) (b s) v (d s) (e s) (h s) (l s) (a_ s) (f_ s) (b_ s)
     (c_ s) (d_ s) (e_ s) (h_ s) (l_ s) (ix s) (iy s) (sp s) (pc s) (i s)
     (r s) (iff1 s) (iff2 s) (im s) (enableInterruptsPending s) (halted s)
     (tstates s) (memory s).
Definition with_d (s : t) (v : Z) : t :=
  mk (a s) (f s) (b s) (c s) v (e s) (h s) (l s) (a_ s) (f_ s) (b_ s)
     (c_ s) (d_ s) (e_ s) (h_ s) (l_ s) (ix s) (iy s) (sp s) (pc s) (i s)
     (r s) (iff1 s) (iff2 s) (im s) (enableInterruptsPending s) (halted s)
     (tstates s) (memory s).
Definition with_e (s : t) (v : Z) : t :=
  mk (a s) (f s) (b s) (c s) (d s) v (h s) (l s) (a_ s) (f_ s) (b_ s)
     (c_ s) (d_ s) (e_ s) (h_ s) (l_ s) (ix s) (iy s) (sp s) (pc s) (i s)
     (r s) (iff1 s) (iff2 s) (im s) (enableInterruptsPending s) (halted s)
     (tstates s) (memory s).
Definition with_h (s : t) (v : Z) : t :=
  mk (a s) (f s) (b s) (c s) (d s) (e s) v (l s) (a_ s) (f_ s) (b_ s)
     (c_ s) (d_ s) (e_ s) (h_ s) (l_ s) (ix s) (iy s) (sp s) (pc s) (i s)
     (r s) (iff1 s) (iff2 s) (im s) (enableInterruptsPending s) (halted s)
     (tstates s) (memory s).
Definition with_l (s : t) (v : Z) : t :=
  mk (a s) (f s) (b s) (c s) (d s) (e s) (h s) v (a_ s) (f_ s) (b_ s)
     (c_ s) (d_ s) (e_ s) (h_ s) (l_ s) (ix s) (iy s) (sp s) (pc s) (i s)
     (r s) (iff1 s) (iff2 s) (im s) (enableInterruptsPending s) (halted s)
     (tstates s) (memory s).
Definition with_sp (s : t) (v : Z) : t :=
  mk (a s) (f s) (b s) (c s) (d s) (e s) (h s) (l s) (a_ s) (f_ s) (b_
     s) (c_ s) (d_ s) (e_ s) (h_ s) (l_ s) (ix s) (iy s) v (pc s) (i s) (r
     s) (iff1 s) (iff2 s) (im s) (enableInterruptsPending s) (halted s)
     (tstates s) (memory s).
Definition with_pc (s : t) (v : Z) : t :=
  mk (a s) (f s) (b s) (c s) (d s) (e s) (h s) (l s) (a_ s) (f_ s) (b_
     s) (c_ s) (d_ s) (e_ s) (h_ s) (l_ s) (ix s) (iy s) (sp s) v (i s) (r
     s) (iff1 s) (iff2 s) (im s) (enableInterruptsPending s) (halted s)
     (tstates s) (memory s).
Definition with_r (s : t) (v : Z) : t :=
  mk (a s) (f s) (b s) (c s) (d s) (e s) (h s) (l s) (a_ s) (f_ s) (b_
     s) (c_ s) (d_ s) (e_ s) (h_ s) (l_ s) (ix s) (iy s) (sp s) (pc s) (i
     s) v (iff1 s) (iff2 s) (im s) (enableInterruptsPending s) (halted s)
     (tstates s) (memory s).
Definition with_iff1 (s : t) (v : bool) : t :=
  mk (a s) (f s) (b s) (c s) (d s) (e s) (h s) (l s) (a_ s) (f_ s) (b_
     s) (c_ s) (d_ s) (e_ s) (h_ s) (l_ s) (ix s) (iy s) (sp s) (pc s) (i
     s) (r s) v (iff2 s) (im s) (enableInterruptsPending s) (halted s)
     (tstates s) (memory s).
Definition with_iff2 (s : t) (v : bool) : t :=
  mk (a s) (f s) (b s) (c s) (d s) (e s) (h s) (l s) (a_ s) (f_ s) (b_
     s) (c_ s) (d_ s) (e_ s) (h_ s) (l_ s) (ix s) (iy s) (sp s) (pc s) (i
     s) (r s) (iff1 s) v (im s) (enableInterruptsPending s) (halted s)
     (tstates s) (memory s).
Definition with_im (s : t) (v : Z) : t :=
  mk (a s) (f s) (b s) (c s) (d s) (e s) (h s) (l s) (a_ s) (f_ s) (b_
     s) (c_ s) (d_ s) (e_ s) (h_ s) (l_ s) (ix s) (iy s) (sp s) (pc s) (i
     s) (r s) (iff1 s) (iff2 s) v (enableInterruptsPending s) (halted s)
     (tstates s) (memory s).
Definition with_enableInterruptsPending (s : t) (v : bool) : t :=
  mk (a s) (f s) (b s) (c s) (d s) (e s) (h s) (l s) (a_ s) (f_ s) (b_
     s) (c_ s) (d_ s) (e_ s) (h_ s) (l_ s) (ix s) (iy s) (sp s) (pc s) (i
     s) (r s) (iff1 s) (iff2 s) (im s) v (halted s) (tstates s) (memory s).
Definition with_halted (s : t) (v : bool) : t :=
  mk (a s) (f s) (b s) (c s) (d s) (e s) (h s) (l s) (a_ s) (f_ s) (b_
     s) (c_ s) (d_ s) (e_ s) (h_ s) (l_ s) (ix s) (iy s) (sp s) (pc s) (i
     s) (r s) (iff1 s) (iff2 s) (im s) (enableInterruptsPending s) v
     (tstates s) (memory s).
Definition with_tstates (s : t) (v : Z) : t :=
  mk (a s) (f s) (b s) (c s) (d s) (e s) (h s) (l s) (a_ s) (f_ s) (b_
     s) (c_ s) (d_ s) (e_ s) (h_ s) (l_ s) (ix s) (iy s) (sp s) (pc s) (i
     s) (r s) (iff1 s) (iff2 s) (im s) (enableInterruptsPending s) (halted
     s) v (memory s).
Definition with_memory (s : t) (v : option Memory.t) : t :=
  mk (a s) (f s) (b s) (c s) (d s) (e s) (h s) (l s) (a_ s) (f_ s) (b_
     s) (c_ s) (d_ s) (e_ s) (h_ s) (l_ s) (ix s) (iy s) (sp s) (pc s) (i
     s) (r s) (iff1 s) (iff2 s) (im s) (enableInterruptsPending s) (halted
     s) (tstates s) v.

(** Flag constants. *)
Definition FLAG_C : Z := 0x01.
Definition FLAG_N : Z := 0x02.
Definition FLAG_PV : Z := 0x04.
Definition FLAG_X : Z := 0x08.
Definition FLAG_H : Z := 0x10.
Definition FLAG_Y : Z := 0x20.
Definition FLAG_Z : Z := 0x40.
Definition FLAG_S : Z := 0x80.

(** Truthiness of a number used as a condition. *)
Definition truthy (n : Z) : bool := negb (n =? 0).

Definition getAF (s : t) : Z := Z.lor (Z.shiftl (a s) 8) (f s).
Definition getBC (s : t) : Z := Z.lor (Z.shiftl (b s) 8) (c s).
Definition getDE (s : t) : Z := Z.lor (Z.shiftl (d s) 8) (e s).
Definition getHL (s : t) : Z := Z.lor (Z.shiftl (h s) 8) (l s).

Definition setAF (s : t) (val : Z) : t :=
  with_f (with_a s (Z.land (Z.shiftr val 8) 0xff)) (Z.land val 0xff).
Definition setBC (s : t) (val : Z) : t :=
  with_c (with_b s (Z.land (Z.shiftr val 8) 0xff)) (Z.land val 0xff).
Definition setDE (s : t) (val : Z) : t :=
  with_e (with_d s (Z.land (Z.shiftr val 8) 0xff)) (Z.land val 0xff).
Definition setHL (s : t) (val : Z) : t :=
  with_l (with_h s (Z.land (Z.shiftr val 8) 0xff)) (Z.land val 0xff).

Definition getFlag (s : t) (flag : Z) : bool :=
  negb (Z.land (f s) flag =? 0).

Definition setFlag (s : t) (flag : Z) (value : bool) : t :=
  if value then with_f s (Z.lor (f s) flag)
  else with_f s (Z.land (f s) (Z.lnot flag)).

(** Memory access helpers. *)
Definition readMem (s : t) (addr : Z) : Z :=
  match memory s with
  | Some m => Memory.read m (Z.land addr 0xffff)
  | None => 0
  end.

Definition writeMem (s : t) (addr val : Z) : t :=
  match memory s with
  | Some m =>
      with_memory s
        (Some (Memory.write m (Z.land addr 0xffff) (Z.land val 0xff)))
  | None => s
  end.

Definition readMemWord (s : t) (addr : Z) : Z :=
  let low := readMem s addr in
  let high := readMem s (Z.land (addr + 1) 0xffff) in
  Z.lor (Z.shiftl high 8) low.

Definition writeMemWord (s : t) (addr val : Z) : t :=
  let s := writeMem s addr (Z.land val 0xff) in
  writeMem s (Z.land (addr + 1) 0xffff) (Z.land (Z.shiftr val 8) 0xff).

(** Stack operations. *)
Definition push (s : t) (val : Z) : t :=
  let s := with_sp s (Z.land (sp s - 1) 0xffff) in
  let s := writeMem s (sp s) (Z.land (Z.shiftr val 8) 0xff) in
  let s := with_sp s (Z.land (sp s - 1) 0xffff) in
  writeMem s (sp s) (Z.land val 0xff).

Definition pop (s : t) : Z * t :=
  let low := readMem s (sp s) in
  let s := with_sp s (Z.land (sp s + 1) 0xffff) in
  let high := readMem s (sp s) in
  let s := with_sp s (Z.land (sp s + 1) 0xffff) in
  (Z.lor (Z.shiftl high 8) low, s).

(** Increment R (lower seven bits only). *)
Definition incR (s : t) : t :=
  with_r s (Z.lor (Z.land (r s) 0x80) (Z.land (r s + 1) 0x7f)).

(** Maskable interrupt. *)
Definition interrupt (s : t) : t :=
  if negb (iff1 s) || enableInterruptsPending s then s
  else
    let s := with_halted s false in
    let s := with_iff2 s false in
    let s := with_iff1 s false in
    if im s =? 0 then
      let s := push s (pc s) in
      let s := with_pc s 0x0038 in
      with_tstates s (tstates s + 13)
    else if im s =? 1 then
      let s := push s (pc s) in
      let s := with_pc s 0x0038 in
      with_tstates s (tstates s + 13)
    else
      let vector := Z.lor (Z.shiftl (i s) 8) 0xff in
      let s := push s (pc s) in
      let s := with_pc s (readMemWord s vector) in
      with_tstates s (tstates s + 19).

(** Non-maskable interrupt. *)
Definition nmi (s : t) : t :=
  let s := with_halted s false in
  let s := with_iff2 s (iff1 s) in
  let s := with_iff1 s false in
  let s := push s (pc s) in
  let s := with_pc s 0x0066 in
  with_tstates s (tstates s + 11).

(** All registers hold values of their width. *)
Definition byte (v : Z) : Prop := 0 <= v < 256.
Definition word (v : Z) : Prop := 0 <= v < 65536.

End Z80CPU.

(** ** ED-prefixed instructions (instructions/extended.js), a fragment *)

Module Extended.
Import Z80CPU.

(** 0x45, 0x55, 0x65, 0x75: RETN. *)
Definition RETN (s : t) : t :=
  let s := with_iff1 s (iff2 s) in
  let (value, s) := pop s in
  let s := with_pc s value in
  with_tstates s (tstates s + 14).

(** 0x4D, 0x5D, 0x6D, 0x7D: RETI. *)
Definition RETI (s : t) : t :=
  let s := with_iff1 s (iff2 s) in
  let (value, s) := pop s in
  let s := with_pc s value in
  with_tstates s (tstates s + 14).

(** IM 0/1/2. *)
Definition IM (mode : Z) (s : t) : t :=
  let s := with_im s mode in
  with_tstates s (tstates s + 8).

(** 0xA0: LDI. *)
Definition LDI (s : t) : t :=
  let val := readMem s (getHL s) in
  let s := writeMem s (getDE s) val in
  let s := setHL s (Z.land (getHL s + 1) 0xffff) in
  let s := setDE s (Z.land (getDE s + 1) 0xffff) in
  let s := setBC s (Z.land (getBC s - 1) 0xffff) in
  let s := setFlag s FLAG_H false in
  let s := setFlag s FLAG_PV (negb (getBC s =? 0)) in
  let s := setFlag s FLAG_N false in
  let n := val + a s in
  let s := setFlag s FLAG_Y (truthy (Z.land n 0x02)) in
  let s := setFlag s FLAG_X (truthy (Z.land n 0x08)) in
  with_tstates s (tstates s + 16).

(** 0xB0: LDIR. *)
Definition LDIR (s : t) : t :=
  let val := readMem s (getHL s) in
  let s := writeMem s (getDE s) val in
  let s := setHL s (Z.land (getHL s + 1) 0xffff) in
  let s := setDE s (Z.land (getDE s + 1) 0xffff) in
  let s := setBC s (Z.land (getBC s - 1) 0xffff) in
  let s :=
    if negb (getBC s =? 0) then
      let s := with_pc s (Z.land (pc s - 2) 0xffff) in
      with_tstates s (tstates s + 21)
    else with_tstates s (tstates s + 16) in
  let s := setFlag s FLAG_H false in
  let s := setFlag s FLAG_PV false in
  let s := setFlag s FLAG_N false in
  let n := val + a s in
  let s := setFlag s FLAG_Y (truthy (Z.land n 0x02)) in
  setFlag s FLAG_X (truthy (Z.land n 0x08)).

(** A slot of the table: an instruction, a slot the source leaves
    undefined, or an instruction of the source that is not embedded. *)
Inductive slot :=
| Entry (execute : t -> t)
| Undefined
| NotEmbedded.

(** The source fills slots in 0x40..0x7F and 0xA0..0xBB only. *)
Definition edInstructionTable (opcode : Z) : slot :=
  if (opcode =? 0x45) || (opcode =? 0x55) || (opcode =? 0x65)
     || (opcode =? 0x75) then Entry RETN
  else if (opcode =? 0x4d) || (opcode =? 0x5d) || (opcode =? 0x6d)
          || (opcode =? 0x7d) then Entry RETI
  else if (opcode =? 0x46) || (opcode =? 0x4e) || (opcode =? 0x66)
          || (opcode =? 0x6e) then Entry (IM 0)
  else if (opcode =? 0x56) || (opcode =? 0x76) then Entry (IM 1)
  else if (opcode =? 0x5e) || (opcode =? 0x7e) then Entry (IM 2)
  else if opcode =? 0xa0 then Entry LDI
  else if opcode =? 0xb0 then Entry LDIR
  else if (opcode <? 0x40) || ((0x80 <=? opcode) && (opcode <? 0xa0))
          || (0xc0 <=? opcode) then Undefined
  else NotEmbedded.

End Extended.

(** ** Base instructions (instructions/base.js), a fragment *)

Module Base.
Import Z80CPU.

(** 0x00: NOP. *)
Definition NOP (s : t) : t := with_tstates s (tstates s + 4).

(** 0x76: HALT. *)
Definition HALT (s : t) : t :=
  let s := with_halted s true in
  with_tstates s (tstates s + 4).

(** POP rp, opcode [0xc1 + rp * 16]. *)
Definition POP (rp : Z) (s : t) : t :=
  let (value, s) := pop s in
  let s :=
    if rp =? 3 then setAF s value
    else if rp =? 2 then setHL s value
    else if rp =? 1 then setDE s value
    else setBC s value in
  with_tstates s (tstates s + 10).

(** PUSH rp, opcode [0xc5 + rp * 16]. *)
Definition PUSH (rp : Z) (s : t) : t :=
  let value :=
    if rp =? 3 then getAF s
    else if rp =? 2 then getHL s
    else if rp =? 1 then getDE s
    else getBC s in
  let s := push s value in
  with_tstates s (tstates s + 11).

(** 0xC9: RET. *)
Definition RET (s : t) : t :=
  let (value, s) := pop s in
  let s := with_pc s value in
  with_tstates s (tstates s + 10).

(** 0xF3: DI. *)
Definition DI (s : t) : t :=
  let s := with_iff2 s false in
  let s := with_iff1 s false in
  with_tstates s (tstates s + 4).

(** 0xFB: EI. *)
Definition EI (s : t) : t :=
  let s := with_enableInterruptsPending s true in
  with_tstates s (tstates s + 4).

(** The registers of pair [rp] hold bytes. *)
Definition pair_bytes (rp : Z) (s : t) : Prop :=
  if rp =? 3 then byte (a s) /\ byte (f s)
  else if rp =? 2 then byte (h s) /\ byte (l s)
  else if rp =? 1 then byte (d s) /\ byte (e s)
  else byte (b s) /\ byte (c s).

(** The value of a register pair as PUSH and POP number them. *)
Definition getRP (rp : Z) (s : t) : Z :=
  if rp =? 3 then getAF s
  else if rp =? 2 then getHL s
  else if rp =? 1 then getDE s
  else getBC s.

End Base.

(** ** Instruction decoder (decoder/decoder.js) *)

Module InstructionDecoder.
Import Z80CPU.

(** The decoder is run with [debugMode] off: [logInstruction] returns at
    once. *)

Definition fetchByte (s : t) : Z * t :=
  let byte := readMem s (pc s) in
  let s := with_pc s (Z.land (pc s + 1) 0xffff) in
  let s := incR s in
  (byte, s).

Definition fetchWord (s : t) : Z * t :=
  let (low, s) := fetchByte s in
  let (high, s) := fetchByte s in
  (Z.lor (Z.shiftl high 8) low, s).

(** [executeED]: an undefined slot is a NOP of 8 T-states.  [None] stands
    for an instruction outside the embedded fragment. *)
Definition executeED (s : t) : option t :=
  let (opcode, s) := fetchByte s in
  match Extended.edInstructionTable opcode with
  | Extended.Entry execute => Some (execute s)
  | Extended.Undefined => Some (with_tstates s (tstates s + 8))
  | Extended.NotEmbedded => None
  end.

(** The slots of [instructionTable] that are embedded; the table of the
    sources sits in base.js, and its prefix slot calls back into the
    decoder. *)
Definition instructionTable (opcode : Z) : option (t -> option t) :=
  if opcode =? 0x00 then Some (fun s => Some (Base.NOP s))
  else if opcode =? 0x76 then Some (fun s => Some (Base.HALT s))
  else if (opcode =? 0xc1) || (opcode =? 0xd1) || (opcode =? 0xe1)
          || (opcode =? 0xf1)
       then Some (fun s => Some (Base.POP ((opcode - 0xc1) / 16) s))
  else if (opcode =? 0xc5) || (opcode =? 0xd5) || (opcode =? 0xe5)
          || (opcode =? 0xf5)
       then Some (fun s => Some (Base.PUSH ((opcode - 0xc5) / 16) s))
  else if opcode =? 0xc9 then Some (fun s => Some (Base.RET s))
  else if opcode =? 0xed then Some executeED
  else if opcode =? 0xf3 then Some (fun s => Some (Base.DI s))
  else if opcode =? 0xfb then Some (fun s => Some (Base.EI s))
  else None.

(** [executeOpcode(opcode, instructionTable)]. *)
Definition executeOpcode (opcode : Z) (s : t) : option t :=
  match instructionTable opcode with
  | Some execute => execute s
  | None => None
  end.

(** [executeInstruction] returns the T-states consumed and the new
    state. *)
Definition executeInstruction (s : t) : option (Z * t) :=
  let startTStates := tstates s in
  if halted s then Some (4, with_tstates s (tstates s + 4))
  else
    let (opcode, s) := fetchByte s in
    match executeOpcode opcode s with
    | None => None
    | Some s =>
        let s :=
          if enableInterruptsPending s then
            let s := with_iff2 s true in
            let s := with_iff1 s true in
            with_enableInterruptsPending s false
          else s in
        Some (tstates s - startTStates, s)
    end.

End InstructionDecoder.

(** ** Tape player (spectrum/tape.js) *)

Module Tape.

(** The player's state names. *)
Inductive State :=
| IDLE | PILOT | SYNC1 | SYNC2 | DATA
| PURE_TONE | PULSE_SEQUENCE | DIRECT_RECORDING | PAUSE.

Definition State_eqb (x y : State) : bool :=
  match x, y with
  | IDLE, IDLE | PILOT, PILOT | SYNC1, SYNC1 | SYNC2, SYNC2 | DATA, DATA
  | PURE_TONE, PURE_TONE | PULSE_SEQUENCE, PULSE_SEQUENCE
  | DIRECT_RECORDING, DIRECT_RECORDING | PAUSE, PAUSE => true
  | _, _ => false
  end.

(** The edge time is a number that may also be [Infinity] (set at the end
    of a block that is followed by a pause) or [NaN] (a sum with an
    [undefined] pulse length). *)
Inductive num :=
| Num (z : Z)
| Infinity
| NaN.

(** [n + z]. *)
Definition num_add (n : num) (z : Z) : num :=
  match n with
  | Num x => Num (x + z)
  | Infinity => Infinity
  | NaN => NaN
  end.

(** [cycles >= n]. *)
Definition num_reached (cycles : Z) (n : num) : bool :=
  match n with
  | Num x => cycles >=? x
  | Infinity => false
  | NaN => false
  end.

(** The fields of a standard or turbo speed data block. *)
Record pulses := mkPulses {
  data : list Z;
  pilotPulse : Z;
  sync1Pulse : Z;
  sync2Pulse : Z;
  zeroPulse : Z;
  onePulse : Z;
  pilotPulses : Z;
  pause : Z;
  usedBits : Z
}.

(** The block objects the two parsers build, by their [type]. *)
Inductive block :=
| Standard (p : pulses)
| Turbo (p : pulses)
| PureTone (pulseLength pulseCount : Z)
| PulseSequence (pulses : list Z)
| PureData (data : list Z) (zeroPulse onePulse usedBits pause : Z)
| DirectRecording (data : list Z) (tStatesPerSample pause usedBits : Z)
| Pause (pause : Z)
| Jump (jumpOffset : Z)
| LoopStart (repetitions : Z)
| LoopEnd
| StopTape48K.

(** Standard timing constants (in T-states). *)
Definition PILOT_PULSE : Z := 2168.
Definition SYNC1_PULSE : Z := 667.
Definition SYNC2_PULSE : Z := 735.
Definition ZERO_PULSE : Z := 855.
Definition ONE_PULSE : Z := 1710.
Definition PILOT_PULSES_HEADER : Z := 8063.
Definition PILOT_PULSES_DATA : Z := 3223.
Definition CYCLES_PER_MS : Z := 3500.

(** [block.data], where the block has the field. *)
Definition block_data (b : block) : option (list Z) :=
  match b with
  | Standard p | Turbo p => Some (data p)
  | PureData d _ _ _ _ => Some d
  | DirectRecording d _ _ _ => Some d
  | _ => None
  end.

(** [block.pause], where the block has the field. *)
Definition block_pause (b : block) : option Z :=
  match b with
  | Standard p | Turbo p => Some (pause p)
  | PureData _ _ _ _ ps => Some ps
  | DirectRecording _ _ ps _ => Some ps
  | Pause ps => Some ps
  | _ => None
  end.

(** An entry of the loop stack. *)
Record loop := mkLoop { loop_blockIndex : Z; counter : Z }.

(** The player.  [loopStack] has its top at the head. *)
Record t := mk {
  blocks : list block;
  currentBlock : option block;
  blockIndex : Z;
  playing : bool;
  paused : bool;
  bitPosition : Z;
  bytePosition : Z;
  currentBit : Z;
  lastEarBit : Z;
  nextEdgeCycle : num;
  lastUpdateCycle : Z;
  state : State;
  pulseCount : Z;
  edgeCount : Z;
  pauseCycles : Z;
  pulseIndex : Z;
  loopStack : list loop;
  pulseSequence : option (list Z)
}.

(** Field assignments [this.x = v]. *)
Definition with_currentBlock (s : t) (v : option block) : t :=
  mk (blocks s) v (blockIndex s) (playing s) (paused s) (bitPosition s)
     (bytePosition s) (currentBit s) (lastEarBit s) (nextEdgeCycle s)
     (lastUpdateCycle s) (state s) (pulseCount s) (edgeCount s)
     (pauseCycles s) (pulseIndex s) (loopStack s) (pulseSequence s).
Definition with_blockIndex (s : t) (v : Z) : t :=
  mk (blocks s) (currentBlock s) v (playing s) (paused s) (bitPosition
     s) (bytePosition s) (currentBit s) (lastEarBit s) (nextEdgeCycle s)
     (lastUpdateCycle s) (state s) (pulseCount s) (edgeCount s)
     (pauseCycles s) (pulseIndex s) (loopStack s) (pulseSequence s).
Definition with_playing (s : t) (v : bool) : t :=
  mk (blocks s) (currentBlock s) (blockIndex s) v (paused s)
     (bitPosition s) (bytePosition s) (currentBit s) (lastEarBit s)
     (nextEdgeCycle s) (lastUpdateCycle s) (state s) (pulseCount s)
     (edgeCount s) (pauseCycles s) (pulseIndex s) (loopStack s)
     (pulseSequence s).
Definition with_paused (s : t) (v : bool) : t :=
  mk (blocks s) (currentBlock s) (blockIndex s) (playing s) v
     (bitPosition s) (bytePosition s) (currentBit s) (lastEarBit s)
     (nextEdgeCycle s) (lastUpdateCycle s) (state s) (pulseCount s)
     (edgeCount s) (pauseCycles s) (pulseIndex s) (loopStack s)
     (pulseSequence s).
Definition with_bitPosition (s : t) (v : Z) : t :=
  mk (blocks s) (currentBlock s) (blockIndex s) (playing s) (paused s) v
     (bytePosition s) (currentBit s) (lastEarBit s) (nextEdgeCycle s)
     (lastUpdateCycle s) (state s) (pulseCount s) (edgeCount s)
     (pauseCycles s) (pulseIndex s) (loopStack s) (pulseSequence s).
Definition with_bytePosition (s : t) (v : Z) : t :=
  mk (blocks s) (currentBlock s) (blockIndex s) (playing s) (paused s)
     (bitPosition s) v (currentBit s) (lastEarBit s) (nextEdgeCycle s)
     (lastUpdateCycle s) (state s) (pulseCount s) (edgeCount s)
     (pauseCycles s) (pulseIndex s) (loopStack s) (pulseSequence s).
Definition with_currentBit (s : t) (v : Z) : t :=
  mk (blocks s) (currentBlock s) (blockIndex s) (playing s) (paused s)
     (bitPosition s) (bytePosition s) v (lastEarBit s) (nextEdgeCycle s)
     (lastUpdateCycle s) (state s) (pulseCount s) (edgeCount s)
     (pauseCycles s) (pulseIndex s) (loopStack s) (pulseSequence s).
Definition with_lastEarBit (s : t) (v : Z) : t :=
  mk (blocks s) (currentBlock s) (blockIndex s) (playing s) (paused s)
     (bitPosition s) (bytePosition s) (currentBit s) v (nextEdgeCycle s)
     (lastUpdateCycle s) (state s) (pulseCount s) (edgeCount s)
     (pauseCycles s) (pulseIndex s) (loopStack s) (pulseSequence s).
Definition with_nextEdgeCycle (s : t) (v : num) : t :=
  mk (blocks s) (currentBlock s) (blockIndex s) (playing s) (paused s)
     (bitPosition s) (bytePosition s) (currentBit s) (lastEarBit s) v
     (lastUpdateCycle s) (state s) (pulseCount s) (edgeCount s)
     (pauseCycles s) (pulseIndex s) (loopStack s) (pulseSequence s).
Definition with_lastUpdateCycle (s : t) (v : Z) : t :=
  mk (blocks s) (currentBlock s) (blockIndex s) (playing s) (paused s)
     (bitPosition s) (bytePosition s) (currentBit s) (lastEarBit s)
     (nextEdgeCycle s) v (state s) (pulseCount s) (edgeCount s)
     (pauseCycles s) (pulseIndex s) (loopStack s) (pulseSequence s).
Definition with_state (s : t) (v : State) : t :=
  mk (blocks s) (currentBlock s) (blockIndex s) (playing s) (paused s)
     (bitPosition s) (bytePosition s) (currentBit s) (lastEarBit s)
     (nextEdgeCycle s) (lastUpdateCycle s) v (pulseCount s) (edgeCount s)
     (pauseCycles s) (pulseIndex s) (loopStack s) (pulseSequence s).
Definition with_pulseCount (s : t) (v : Z) : t :=
  mk (blocks s) (currentBlock s) (blockIndex s) (playing s) (paused s)
     (bitPosition s) (bytePosition s) (currentBit s) (lastEarBit s)
     (nextEdgeCycle s) (lastUpdateCycle s) (state s) v (edgeCount s)
     (pauseCycles s) (pulseIndex s) (loopStack s) (pulseSequence s).
Definition with_edgeCount (s : t) (v : Z) : t :=
  mk (blocks s) (currentBlock s) (blockIndex s) (playing s) (paused s)
     (bitPosition s) (bytePosition s) (currentBit s) (lastEarBit s)
     (nextEdgeCycle s) (lastUpdateCycle s) (state s) (pulseCount s) v
     (pauseCycles s) (pulseIndex s) (loopStack s) (pulseSequence s).
Definition with_pauseCycles (s : t) (v : Z) : t :=
  mk (blocks s) (currentBlock s) (blockIndex s) (playing s) (paused s)
     (bitPosition s) (bytePosition s) (currentBit s) (lastEarBit s)
     (nextEdgeCycle s) (lastUpdateCycle s) (state s) (pulseCount s)
     (edgeCount s) v (pulseIndex s) (loopStack s) (pulseSequence s).
Definition with_pulseIndex (s : t) (v : Z) : t :=
  mk (blocks s) (currentBlock s) (blockIndex s) (playing s) (paused s)
     (bitPosition s) (bytePosition s) (currentBit s) (lastEarBit s)
     (nextEdgeCycle s) (lastUpdateCycle s) (state s) (pulseCount s)
     (edgeCount s) (pauseCycles s) v (loopStack s) (pulseSequence s).
Definition with_loopStack (s : t) (v : list loop) : t :=
  mk (blocks s) (currentBlock s) (blockIndex s) (playing s) (paused s)
     (bitPosition s) (bytePosition s) (currentBit s) (lastEarBit s)
     (nextEdgeCycle s) (lastUpdateCycle s) (state s) (pulseCount s)
     (edgeCount s) (pauseCycles s) (pulseIndex s) v (pulseSequence s).
Definition with_pulseSequence (s : t) (v : option (list Z)) : t :=
  mk (blocks s) (currentBlock s) (blockIndex s) (playing s) (paused s)
     (bitPosition s) (bytePosition s) (currentBit s) (lastEarBit s)
     (nextEdgeCycle s) (lastUpdateCycle s) (state s) (pulseCount s)
     (edgeCount s) (pauseCycles s) (pulseIndex s) (loopStack s) v.

(** The state the constructor and [loadTAP] / [loadTZX] leave. *)
Definition loaded (bs : list block) : t :=
  mk bs None 0 false false 0 0 0 0 (Num 0) 0 IDLE 0 0 0 0 [] None.

(** [reset]. *)
Definition reset (s : t) : t :=
  let s := with_state s IDLE in
  let s := with_currentBlock s None in
  let s := with_lastEarBit s 0 in
  let s := with_nextEdgeCycle s (Num 0) in
  let s := with_pulseCount s 0 in
  let s := with_edgeCount s 0 in
  let s := with_bitPosition s 0 in
  let s := with_bytePosition s 0 in
  let s := with_currentBit s 0 in
  let s := with_pauseCycles s 0 in
  with_pulseIndex s 0.

(** [stop]. *)
Definition stop (s : t) : t :=
  let s := with_playing s false in
  let s := with_paused s false in
  let s := with_blockIndex s 0 in
  reset s.

(** The pulse length of the current bit. *)
Definition bitPulse (bit onePulse zeroPulse : Z) : Z :=
  if bit =? 0 then zeroPulse else onePulse.


(** [nextBlock].  [cpuCycles] is [this.cpu.cycles] at the call.  The log
    line on the flag byte reads [data[0].toString], which throws on a
    block whose data array is empty; so does [this.currentBlock.type]
    when a jump has moved [blockIndex] below zero.  After the log line
    the data array is known to be non-empty. *)
Fixpoint nextBlock (fuel : nat) (cpuCycles : Z) (s : t) : result t :=
  if blockIndex s >=? Z.of_nat (length (blocks s)) then Ok (stop s)
  else if blockIndex s <? 0 then TypeError
  else
    match blocks s !! Z.to_nat (blockIndex s) with
    | None => TypeError
    | Some blk =>
        let s := with_currentBlock s (Some blk) in
        match block_data blk with
        | Some [] => TypeError
        | _ =>
            let s := with_blockIndex s (blockIndex s + 1) in
            let s := with_bitPosition s 0 in
            let s := with_bytePosition s 0 in
            let s := with_pulseCount s 0 in
            let s := with_edgeCount s 0 in
            let s := with_pulseIndex s 0 in
            match blk with
            | Standard p | Turbo p =>
                let s := with_state s PILOT in
                Ok (with_nextEdgeCycle s (Num (cpuCycles + pilotPulse p)))
            | PureTone pulseLength _ =>
                let s := with_state s PURE_TONE in
                let s := with_edgeCount s 0 in
                Ok (with_nextEdgeCycle s (Num (cpuCycles + pulseLength)))
            | PulseSequence ps =>
                let s := with_state s PULSE_SEQUENCE in
                let s := with_pulseIndex s 0 in
                let s := with_pulseSequence s (Some ps) in
                Ok (with_nextEdgeCycle s
                      match ps with
                      | [] => NaN
                      | p0 :: _ => Num (cpuCycles + p0)
                      end)
            | PureData d zeroPulse onePulse _ _ =>
                let s := with_state s DATA in
                let s := with_bitPosition s 0 in
                let s := with_bytePosition s 0 in
                let s := with_pulseCount s 0 in
                let s := with_currentBit s
                           (Z.land (Z.shiftr (aget d 0) 7) 1) in
                let pulseLength :=
                  bitPulse (currentBit s) onePulse zeroPulse in
                Ok (with_nextEdgeCycle s (Num (cpuCycles + pulseLength)))
            | DirectRecording _ tStatesPerSample _ _ =>
                let s := with_state s DIRECT_RECORDING in
                let s := with_bitPosition s 0 in
                let s := with_bytePosition s 0 in
                Ok (with_nextEdgeCycle s
                      (Num (cpuCycles + tStatesPerSample)))
            | Pause ps =>
                let s := with_state s PAUSE in
                let s := with_pauseCycles s (ps * CYCLES_PER_MS) in
                if ps =? 0 then Ok (stop s) else Ok s
            | LoopStart repetitions =>
                let s := with_loopStack s
                           (mkLoop (blockIndex s - 1) repetitions
                              :: loopStack s) in
                match fuel with
                | O => OutOfFuel
                | S fuel => nextBlock fuel cpuCycles s
                end
            | LoopEnd =>
                let s :=
                  match loopStack s with
                  | [] => s
                  | lp :: rest =>
                      let lp := mkLoop (loop_blockIndex lp) (counter lp - 1) in
                      if counter lp >? 0
                      then with_blockIndex
                             (with_loopStack s (lp :: rest))
                             (loop_blockIndex lp + 1)
                      else with_loopStack s rest
                  end in
                match fuel with
                | O => OutOfFuel
                | S fuel => nextBlock fuel cpuCycles s
                end
            | Jump jumpOffset =>
                let s := with_blockIndex s (blockIndex s + jumpOffset) in
                match fuel with
                | O => OutOfFuel
                | S fuel => nextBlock fuel cpuCycles s
                end
            | StopTape48K => Ok (stop s)
            end
        end
    end.

(** [play]. *)
Definition play (fuel : nat) (cpuCycles : Z) (s : t) : result t :=
  match blocks s with
  | [] => Ok s
  | _ =>
      let s := with_playing s true in
      let s := with_paused s false in
      let s := with_lastUpdateCycle s cpuCycles in
      match currentBlock s with
      | None => nextBlock fuel cpuCycles s
      | Some _ => Ok s
      end
  end.

(** [handleBlockEnd]. *)
Definition handleBlockEnd (fuel : nat) (cpuCycles : Z) (s : t) : result t :=
  match currentBlock s with
  | None => TypeError
  | Some blk =>
      match block_pause blk with
      | Some ps =>
          if ps >? 0 then
            let s := with_state s PAUSE in
            let s := with_pauseCycles s (ps * CYCLES_PER_MS) in
            Ok (with_nextEdgeCycle s Infinity)
          else nextBlock fuel cpuCycles s
      | None => nextBlock fuel cpuCycles s
      end
  end.

(** The DATA state of [processEdge]; [processPureData] repeats the same
    statements on a pure data block. *)
Definition dataEdge (fuel : nat) (cpuCycles cycles : Z)
    (d : list Z) (zeroPulse onePulse usedBits : Z) (s : t) : result t :=
  let s := with_pulseCount s (pulseCount s + 1) in
  if pulseCount s <? 2 then
    let pulseLength := bitPulse (currentBit s) onePulse zeroPulse in
    Ok (with_nextEdgeCycle s (Num (cycles + pulseLength)))
  else
    let s := with_pulseCount s 0 in
    let s := with_bitPosition s (bitPosition s + 1) in
    let nextBit (s : t) : result t :=
      let isLastByte := bytePosition s =? Z.of_nat (length d) - 1 in
      let bitsInByte := if isLastByte then usedBits else 8 in
      if bitPosition s <? bitsInByte then
        let byte := aget d (bytePosition s) in
        let s := with_currentBit s
                   (Z.land (Z.shiftr byte (7 - bitPosition s)) 1) in
        let pulseLength := bitPulse (currentBit s) onePulse zeroPulse in
        Ok (with_nextEdgeCycle s (Num (cycles + pulseLength)))
      else handleBlockEnd fuel cpuCycles s in
    if bitPosition s >=? 8 then
      let s := with_bitPosition s 0 in
      let s := with_bytePosition s (bytePosition s + 1) in
      if bytePosition s >=? Z.of_nat (length d)
      then handleBlockEnd fuel cpuCycles s
      else nextBit s
    else nextBit s.

(** [processEdge(cycles, block)] on a standard or turbo block. *)
Definition processEdge (fuel : nat) (cpuCycles cycles : Z) (p : pulses)
    (s : t) : result t :=
  match state s with
  | PILOT =>
      let s := with_nextEdgeCycle s
                 (num_add (nextEdgeCycle s) (pilotPulse p)) in
      let s := with_edgeCount s (edgeCount s + 1) in
      if edgeCount s >=? pilotPulses p * 2 then
        let s := with_state s SYNC1 in
        Ok (with_nextEdgeCycle s (Num (cycles + sync1Pulse p)))
      else Ok s
  | SYNC1 =>
      let s := with_state s SYNC2 in
      Ok (with_nextEdgeCycle s (Num (cycles + sync2Pulse p)))
  | SYNC2 =>
      let s := with_state s DATA in
      let s := with_bytePosition s 0 in
      let s := with_bitPosition s 0 in
      let s := with_pulseCount s 0 in
      match data p with
      | [] => handleBlockEnd fuel cpuCycles s
      | b0 :: _ =>
          let s := with_currentBit s (Z.land (Z.shiftr b0 7) 1) in
          let pulseLength :=
            bitPulse (currentBit s) (onePulse p) (zeroPulse p) in
          Ok (with_nextEdgeCycle s (Num (cycles + pulseLength)))
      end
  | DATA =>
      dataEdge fuel cpuCycles cycles (data p) (zeroPulse p) (onePulse p)
        (usedBits p) s
  | _ => Ok s
  end.

(** [processPureTone(cycles, block)]. *)
Definition processPureTone (fuel : nat) (cpuCycles cycles : Z)
    (pulseLength pulseCount : Z) (s : t) : result t :=
  let s := with_edgeCount s (edgeCount s + 1) in
  let s := with_nextEdgeCycle s (num_add (nextEdgeCycle s) pulseLength) in
  if edgeCount s >=? pulseCount * 2
  then handleBlockEnd fuel cpuCycles s
  else Ok s.

(** [processPulseSequence(cycles, block)]: it reads the player's own
    [pulseSequence] field. *)
Definition processPulseSequence (fuel : nat) (cpuCycles cycles : Z)
    (s : t) : result t :=
  let s := with_pulseIndex s (pulseIndex s + 1) in
  match pulseSequence s with
  | None => TypeError
  | Some ps =>
      if pulseIndex s >=? Z.of_nat (length ps)
      then handleBlockEnd fuel cpuCycles s
      else Ok (with_nextEdgeCycle s (Num (cycles + aget ps (pulseIndex s))))
  end.

(** [processDirectRecording(cycles, block)]. *)
Definition processDirectRecording (fuel : nat) (cpuCycles cycles : Z)
    (d : list Z) (tStatesPerSample usedBits : Z) (s : t) : result t :=
  let byteIndex := bitPosition s / 8 in
  let bitInByte := 7 - Z.rem (bitPosition s) 8 in
  if byteIndex >=? Z.of_nat (length d)
  then handleBlockEnd fuel cpuCycles s
  else
    let byte := aget d byteIndex in
    let s := with_lastEarBit s (Z.land (Z.shiftr byte bitInByte) 1) in
    let s := with_bitPosition s (bitPosition s + 1) in
    let isLastByte := byteIndex =? Z.of_nat (length d) - 1 in
    let totalBits :=
      if isLastByte then (Z.of_nat (length d) - 1) * 8 + usedBits
      else Z.of_nat (length d) * 8 in
    if bitPosition s >=? totalBits
    then handleBlockEnd fuel cpuCycles s
    else Ok (with_nextEdgeCycle s (Num (cycles + tStatesPerSample))).

(** [updatePauseState(cycles)]. *)
Definition updatePauseState (fuel : nat) (cpuCycles cycles : Z) (s : t)
    : result t :=
  if pauseCycles s >? 0 then
    let elapsed := cycles - lastUpdateCycle s in
    let s := with_pauseCycles s (pauseCycles s - elapsed) in
    let s := with_lastEarBit s 0 in
    if pauseCycles s <=? 0 then
      let s := with_pauseCycles s 0 in
      let s := with_state s IDLE in
      nextBlock fuel cpuCycles s
    else Ok s
  else
    let s := with_state s IDLE in
    nextBlock fuel cpuCycles s.

(** The dispatch on [block.type] inside the loop of [updateDataBlock].
    [update] enters the loop on standard and turbo blocks only; for the
    control blocks, which have none of the pulse fields [processEdge]
    reads, the dispatch is outside the embedded fragment. *)
Definition dispatchEdge (fuel : nat) (cpuCycles cycles : Z) (blk : block)
    (s : t) : result t :=
  match blk with
  | PureTone pulseLength pulseCount =>
      processPureTone fuel cpuCycles cycles pulseLength pulseCount s
  | PulseSequence _ => processPulseSequence fuel cpuCycles cycles s
  | PureData d zeroPulse onePulse usedBits _ =>
      dataEdge fuel cpuCycles cycles d zeroPulse onePulse usedBits s
  | DirectRecording d tStatesPerSample _ usedBits =>
      processDirectRecording fuel cpuCycles cycles d tStatesPerSample
        usedBits s
  | Standard p | Turbo p => processEdge fuel cpuCycles cycles p s
  | _ => NotEmbedded
  end.

(** The [while] of [updateDataBlock]: [n] bounds the number of edges
    handled in one call, [blk] is the block the method read on entry. *)
Fixpoint updateDataBlock_loop (n fuel : nat) (cpuCycles cycles : Z)
    (blk : block) (s : t) : result t :=
  if num_reached cycles (nextEdgeCycle s)
     && negb (State_eqb (state s) PAUSE)
     && negb (State_eqb (state s) IDLE)
  then
    match n with
    | O => OutOfFuel
    | S n =>
        let s := with_lastEarBit s (1 - lastEarBit s) in
        bind (dispatchEdge fuel cpuCycles cycles blk s)
             (updateDataBlock_loop n fuel cpuCycles cycles blk)
    end
  else Ok s.

(** [updateDataBlock(cycles)]. *)
Definition updateDataBlock (fuel : nat) (cpuCycles cycles : Z) (s : t)
    : result t :=
  match currentBlock s with
  | None => TypeError
  | Some blk => updateDataBlock_loop fuel fuel cpuCycles cycles blk s
  end.

(** [update(cycles)]: the new state; the value returned to the caller is
    its [lastEarBit]. *)
Definition update (fuel : nat) (cpuCycles cycles : Z) (s : t) : result t :=
  if negb (playing s) || paused s then Ok s
  else
    match currentBlock s with
    | None => Ok s
    | Some blk =>
        if State_eqb (state s) PAUSE then
          bind (updatePauseState fuel cpuCycles cycles s)
               (fun s => Ok (with_lastUpdateCycle s cycles))
        else
          bind
            match blk with
            | Standard _ | Turbo _ => updateDataBlock fuel cpuCycles cycles s
            | Pause _ => updatePauseState fuel cpuCycles cycles s
            | _ => Ok s
            end
            (fun s => Ok (with_lastUpdateCycle s cycles))
    end.

(** The player driven as the frame loop drives it: one [update] per
    entry of [cs], with the CPU counter as argument. *)
Fixpoint drive (fuel : nat) (cs : list Z) (s : t) : result t :=
  match cs with
  | [] => Ok s
  | c :: cs => bind (update fuel c c s) (drive fuel cs)
  end.

(** The EAR levels returned by the successive updates. *)
Fixpoint earTrace (fuel : nat) (cs : list Z) (s : t) : result (list Z) :=
  match cs with
  | [] => Ok []
  | c :: cs =>
      bind (update fuel c c s) (fun s =>
      bind (earTrace fuel cs s) (fun bits =>
      Ok (lastEarBit s :: bits)))
  end.

End Tape.

(** ** Frame driver (spectrum/spectrum.js) *)

Module ZXSpectrum.

(** The components the frame driver steps.  The constructor wires
    [cpu.memory] to the memory and never calls [memory.setULA]; the tape
    player reads the CPU's counter through its [cpu] reference.  Sound and
    display are sinks and are left out, with the border history that
    [resetFrameTStates] clears. *)
Record t := mk {
  cpu : Z80CPU.t;
  ula : ULA.t;
  tape : Tape.t
}.

Definition tstatesPerFrame : Z := 69888.

(** The [while] of [executeFrame]; [n] bounds the instructions run. *)
Fixpoint frameLoop (n fuel : nat) (targetTStates : Z) (z : t) : result t :=
  if Z80CPU.tstates (cpu z) <? targetTStates then
    match n with
    | O => OutOfFuel
    | S n =>
        match InstructionDecoder.executeInstruction (cpu z) with
        | None => NotEmbedded
        | Some (_, cpu') =>
            let now := Z80CPU.tstates cpu' in
            bind (Tape.update fuel now now (tape z)) (fun tape' =>
            let tapeInputBit := Tape.lastEarBit tape' in
            frameLoop n fuel targetTStates
              (mk cpu' (ULA.setTapeInput (ula z) tapeInputBit) tape'))
        end
    end
  else Ok z.

(** [executeFrame]: run a frame's worth of T-states, then generate the
    50 Hz interrupt. *)
Definition executeFrame (fuel : nat) (z : t) : result t :=
  let targetTStates := Z80CPU.tstates (cpu z) + tstatesPerFrame in
  bind (frameLoop fuel fuel targetTStates z) (fun z =>
  Ok (mk (Z80CPU.interrupt (cpu z)) (ula z) (tape z))).

End ZXSpectrum.

(** ** Sample machines *)

Module Sample.

(** A memory as the constructor leaves it: zeroed ROM and RAM, no ULA
    attached. *)
Definition memory0 : Memory.t :=
  Memory.mk (replicate (Z.to_nat 16384) 0) (replicate (Z.to_nat 49152) 0)
    false None.

(** A memory pre-loaded with [bytes] from address [org] on. *)
Fixpoint poke (m : Memory.t) (org : Z) (bytes : list Z) : Memory.t :=
  match bytes with
  | [] => m
  | b :: bytes => poke (Memory.write m org b) (org + 1) bytes
  end.

(** The CPU after [reset], wired to memory [m]. *)
Definition cpu0 (m : Memory.t) : Z80CPU.t :=
  Z80CPU.mk 0 0 0 0 0 0 0 0  0 0 0 0 0 0 0 0  0 0 0xffff 0 0 0
    false false 0 false false 0 (Some m).

(** The same CPU with interrupts enabled. *)
Definition cpuEnabled : Z80CPU.t :=
  Z80CPU.with_iff2 (Z80CPU.with_iff1 (cpu0 memory0) true) true.

(** A ULA whose beam is at [scanline], [tstate]. *)
Definition ulaAt (scanline tstate : Z) : ULA.t :=
  ULA.mk 7 false 1 scanline tstate false 255.

(** EI at 0x8000, followed by RETI; interrupts are disabled. *)
Definition cpuEI : Z80CPU.t :=
  Z80CPU.with_pc (cpu0 (poke memory0 0x8000 [0xfb; 0xed; 0x4d])) 0x8000.

(** A memory whose ULA is at the first T-state of the first display
    line, and a CPU on it with PC and SP in contended RAM. *)
Definition memContended : Memory.t :=
  Memory.mk (Memory.rom memory0) (Memory.ram memory0) false
    (Some (ulaAt 64 0)).

Definition cpuContended : Z80CPU.t :=
  Z80CPU.with_sp (Z80CPU.with_pc (cpu0 memContended) 0x4000) 0x4002.

(** BC = 0x1234 with the stack pointer in ROM, and in RAM. *)
Definition cpuStackRom : Z80CPU.t :=
  Z80CPU.with_sp
    (Z80CPU.with_c (Z80CPU.with_b (cpu0 memory0) 0x12) 0x34) 0x2000.

Definition cpuStackRam : Z80CPU.t :=
  Z80CPU.with_c (Z80CPU.with_b (cpu0 memory0) 0x12) 0x34.

(** HL = 0x8000, DE = 0x9000, BC = 2. *)
Definition cpuBlock : Z80CPU.t :=
  Z80CPU.with_c
    (Z80CPU.with_h (Z80CPU.with_d (cpu0 memory0) 0x90) 0x80) 2.

(** The ULA after one whole frame of T-states. *)
Definition ulaWrapped : ULA.t := ULA.addCycles ULA.init 69888.

(** A machine halted with interrupts enabled, its ULA requesting an
    interrupt, no tape loaded. *)
Definition machineHalted : ZXSpectrum.t :=
  ZXSpectrum.mk (Z80CPU.with_halted cpuEnabled true) ulaWrapped
    (Tape.loaded []).

(** A tape holding one pure tone of 4 pulses of 2168 T-states, and one
    holding a sequence of three pulses. *)
Definition toneTape : Tape.t := Tape.loaded [Tape.PureTone 2168 4].
Definition pulseTape : Tape.t :=
  Tape.loaded [Tape.PulseSequence [100; 200; 300]].

(** A header block as [parseTAPBlocks] builds it from the bytes
    [0; 3; 65; 66]. *)
Definition headerBlock : Tape.block :=
  Tape.Standard
    (Tape.mkPulses [0; 3; 65; 66] Tape.PILOT_PULSE Tape.SYNC1_PULSE
       Tape.SYNC2_PULSE Tape.ZERO_PULSE Tape.ONE_PULSE
       Tape.PILOT_PULSES_HEADER 1000 8).

End Sample.

(** ** Memory: loading and views (spectrum/memory.js) *)

Module MemoryImage.

(** A method that returns, or throws an [Error] whose message reports
    the offending length. *)
Inductive checked (A : Type) :=
| Returned (x : A)
| InvalidSize (len : Z).
Arguments Returned {A} x.
Arguments InvalidSize {A} len.

(** [Uint8Array.prototype.set] from the start of the target: every
    element is stored modulo 256. *)
Definition set_bytes (data : list Z) : list Z :=
  map (fun v => Z.land v 255) data.

(** [loadROM(data)]. *)
Definition loadROM (m : Memory.t) (data : list Z) : checked Memory.t :=
  if negb (Z.of_nat (length data) =? 16384)
  then InvalidSize (Z.of_nat (length data))
  else Returned
         (Memory.mk (set_bytes data) (Memory.ram m) true (Memory.ula m)).

(** [reset()]: [this.ram.fill(0)]. *)
Definition reset (m : Memory.t) : Memory.t :=
  Memory.mk (Memory.rom m) (replicate (length (Memory.ram m)) 0)
    (Memory.romLoaded m) (Memory.ula m).

(** [setRAM(data)]. *)
Definition setRAM (m : Memory.t) (data : list Z) : checked Memory.t :=
  if negb (Z.of_nat (length data) =? 49152)
  then InvalidSize (Z.of_nat (length data))
  else Returned
         (Memory.mk (Memory.rom m) (set_bytes data) (Memory.romLoaded m)
            (Memory.ula m)).

(** [getRAM()]. *)
Definition getRAM (m : Memory.t) : list Z := Memory.ram m.

(** [getScreenPixels()]: [this.ram.subarray(0, 6144)]. *)
Definition getScreenPixels (m : Memory.t) : list Z :=
  take (Z.to_nat 6144) (Memory.ram m).

(** [getScreenAttributes()]: [this.ram.subarray(6144, 6912)]. *)
Definition getScreenAttributes (m : Memory.t) : list Z :=
  take (Z.to_nat (6912 - 6144)) (drop (Z.to_nat 6144) (Memory.ram m)).

End MemoryImage.

(** ** Z80 CPU: flag helpers and index register halves (core/cpu.js) *)

Module Z80Flags.
Import Z80CPU.

(** [getParity(val)]: true on even parity. *)
Definition getParity (val : Z) : bool :=
  let p := val in
  let p := Z.lxor p (Z.shiftr p 4) in
  let p := Z.lxor p (Z.shiftr p 2) in
  let p := Z.lxor p (Z.shiftr p 1) in
  Z.land p 1 =? 0.

(** [setArithmeticFlags(result, carry, overflow)]. *)
Definition setArithmeticFlags (s : t) (result carry : Z) (overflow : bool)
    : t :=
  let s := setFlag s FLAG_S (truthy (Z.land result 0x80)) in
  let s := setFlag s FLAG_Z (Z.land result 0xff =? 0) in
  let s := setFlag s FLAG_Y (truthy (Z.land result 0x20)) in
  let s := setFlag s FLAG_H (truthy (Z.land carry 0x10)) in
  let s := setFlag s FLAG_X (truthy (Z.land result 0x08)) in
  let s := setFlag s FLAG_PV overflow in
  setFlag s FLAG_C (truthy (Z.land carry 0x100)).

(** [setLogicalFlags(result)]. *)
Definition setLogicalFlags (s : t) (result : Z) : t :=
  let s := setFlag s FLAG_S (truthy (Z.land result 0x80)) in
  let s := setFlag s FLAG_Z (Z.land result 0xff =? 0) in
  let s := setFlag s FLAG_Y (truthy (Z.land result 0x20)) in
  let s := setFlag s FLAG_H false in
  let s := setFlag s FLAG_X (truthy (Z.land result 0x08)) in
  let s := setFlag s FLAG_PV (getParity result) in
  let s := setFlag s FLAG_N false in
  setFlag s FLAG_C false.

(** Assignments to IX and to the shadow set, which the claims' fragment
    never writes. *)
Definition with_ix (s : t) (v : Z) : t :=
  mk (a s) (f s) (b s) (c s) (d s) (e s) (h s) (l s) (a_ s) (f_ s) (b_ s)
     (c_ s) (d_ s) (e_ s) (h_ s) (l_ s) v (iy s) (sp s) (pc s) (i s) (r s)
     (iff1 s) (iff2 s) (im s) (enableInterruptsPending s) (halted s)
     (tstates s) (memory s).

Definition getIXH (s : t) : Z := Z.land (Z.shiftr (ix s) 8) 0xff.
Definition getIXL (s : t) : Z := Z.land (ix s) 0xff.
Definition setIXH (s : t) (val : Z) : t :=
  with_ix s (Z.lor (Z.shiftl (Z.land val 0xff) 8) (Z.land (ix s) 0xff)).
Definition setIXL (s : t) (val : Z) : t :=
  with_ix s (Z.lor (Z.land (ix s) 0xff00) (Z.land val 0xff)).

(** The number of one bits among the low eight. *)
Definition popcount8 (v : Z) : Z :=
  fold_right (fun k n => n + Z.b2z (Z.testbit v k)) 0 [0; 1; 2; 3; 4; 5; 6; 7].

(** The bytes, in order. *)
Definition all_bytes : list Z := map Z.of_nat (seq 0 256).

End Z80Flags.

(** ** More base instructions (instructions/base.js) *)

Module BaseALU.
Import Z80CPU.
Import Z80Flags.

(** [toSigned(val)]. *)
Definition toSigned (val : Z) : Z :=
  if truthy (Z.land val 0x80) then val - 256 else val.

(** The operations of [aluOps]. *)
Inductive aluOp :=
| op_add | op_adc | op_sub | op_sbc | op_and | op_xor | op_or | op_cp.

(** [executeALU(cpu, operation, value)]. *)
Definition executeALU (s : t) (operation : aluOp) (value : Z) : t :=
  match operation with
  | op_add =>
      let result := a s + value in
      let carry := result in
      let overflow :=
        negb (Z.land (Z.land (Z.lxor (a s) result) (Z.lxor value result))
                0x80 =? 0) in
      let s := with_a s (Z.land result 0xff) in
      let s := setFlag s FLAG_N false in
      setArithmeticFlags s (a s) carry overflow
  | op_adc =>
      let oldCarry := if getFlag s FLAG_C then 1 else 0 in
      let result := a s + value + oldCarry in
      let carry := result in
      let overflow :=
        negb (Z.land (Z.land (Z.lxor (a s) result) (Z.lxor value result))
                0x80 =? 0) in
      let s := with_a s (Z.land result 0xff) in
      let s := setFlag s FLAG_N false in
      setArithmeticFlags s (a s) carry overflow
  | op_sub =>
      let result := a s - value in
      let carry := result in
      let overflow :=
        negb (Z.land (Z.land (Z.lxor (a s) value) (Z.lxor (a s) result))
                0x80 =? 0) in
      let halfBorrowSub := Z.land (a s) 0x0f <? Z.land value 0x0f in
      let s := with_a s (Z.land result 0xff) in
      let s := setFlag s FLAG_N true in
      let s := setFlag s FLAG_S (truthy (Z.land (a s) 0x80)) in
      let s := setFlag s FLAG_Z (a s =? 0) in
      let s := setFlag s FLAG_Y (truthy (Z.land (a s) 0x20)) in
      let s := setFlag s FLAG_H halfBorrowSub in
      let s := setFlag s FLAG_X (truthy (Z.land (a s) 0x08)) in
      let s := setFlag s FLAG_PV overflow in
      setFlag s FLAG_C (truthy (Z.land carry 0x100))
  | op_sbc =>
      let oldBorrow := if getFlag s FLAG_C then 1 else 0 in
      let result := a s - value - oldBorrow in
      let carry := result in
      let overflow :=
        negb (Z.land (Z.land (Z.lxor (a s) value) (Z.lxor (a s) result))
                0x80 =? 0) in
      let halfBorrowSbc :=
        Z.land (a s) 0x0f <? Z.land value 0x0f + oldBorrow in
      let s := with_a s (Z.land result 0xff) in
      let s := setFlag s FLAG_N true in
      let s := setFlag s FLAG_S (truthy (Z.land (a s) 0x80)) in
      let s := setFlag s FLAG_Z (a s =? 0) in
      let s := setFlag s FLAG_Y (truthy (Z.land (a s) 0x20)) in
      let s := setFlag s FLAG_H halfBorrowSbc in
      let s := setFlag s FLAG_X (truthy (Z.land (a s) 0x08)) in
      let s := setFlag s FLAG_PV overflow in
      setFlag s FLAG_C (truthy (Z.land carry 0x100))
  | op_and =>
      let s := with_a s (Z.land (a s) value) in
      let s := setLogicalFlags s (a s) in
      setFlag s FLAG_H true
  | op_xor =>
      let s := with_a s (Z.lxor (a s) value) in
      setLogicalFlags s (a s)
  | op_or =>
      let s := with_a s (Z.lor (a s) value) in
      setLogicalFlags s (a s)
  | op_cp =>
      let result := a s - value in
      let carry := result in
      let overflow :=
        negb (Z.land (Z.land (Z.lxor (a s) value) (Z.lxor (a s) result))
                0x80 =? 0) in
      let halfBorrowCp := Z.land (a s) 0x0f <? Z.land value 0x0f in
      let s := setFlag s FLAG_N true in
      let s := setFlag s FLAG_S (truthy (Z.land result 0x80)) in
      let s := setFlag s FLAG_Z (Z.land result 0xff =? 0) in
      let s := setFlag s FLAG_H halfBorrowCp in
      let s := setFlag s FLAG_PV overflow in
      let s := setFlag s FLAG_C (truthy (Z.land carry 0x100)) in
      let s := setFlag s FLAG_Y (truthy (Z.land value 0x20)) in
      setFlag s FLAG_X (truthy (Z.land value 0x08))
  end.

(** 0x04: INC B. *)
Definition INC_B (s : t) : t :=
  let result := Z.land (b s + 1) 0xff in
  let overflow := b s =? 0x7f in
  let s := setFlag s FLAG_S (truthy (Z.land result 0x80)) in
  let s := setFlag s FLAG_Z (result =? 0) in
  let s := setFlag s FLAG_H (Z.land (b s) 0x0f =? 0x0f) in
  let s := setFlag s FLAG_PV overflow in
  let s := setFlag s FLAG_N false in
  let s := setFlag s FLAG_Y (truthy (Z.land result 0x20)) in
  let s := setFlag s FLAG_X (truthy (Z.land result 0x08)) in
  let s := with_b s result in
  with_tstates s (tstates s + 4).

(** 0x05: DEC B. *)
Definition DEC_B (s : t) : t :=
  let result := Z.land (b s - 1) 0xff in
  let overflow := b s =? 0x80 in
  let s := setFlag s FLAG_S (truthy (Z.land result 0x80)) in
  let s := setFlag s FLAG_Z (result =? 0) in
  let s := setFlag s FLAG_H (Z.land (b s) 0x0f =? 0) in
  let s := setFlag s FLAG_PV overflow in
  let s := setFlag s FLAG_N true in
  let s := setFlag s FLAG_Y (truthy (Z.land result 0x20)) in
  let s := setFlag s FLAG_X (truthy (Z.land result 0x08)) in
  let s := with_b s result in
  with_tstates s (tstates s + 4).

(** 0x08: EX AF,AF'. *)
Definition EX_AF (s : t) : t :=
  mk (a_ s) (f_ s) (b s) (c s) (d s) (e s) (h s) (l s) (a s) (f s) (b_ s)
     (c_ s) (d_ s) (e_ s) (h_ s) (l_ s) (ix s) (iy s) (sp s) (pc s) (i s)
     (r s) (iff1 s) (iff2 s) (im s) (enableInterruptsPending s) (halted s)
     (tstates s + 4) (memory s).

(** 0xD9: EXX. *)
Definition EXX (s : t) : t :=
  mk (a s) (f s) (b_ s) (c_ s) (d_ s) (e_ s) (h_ s) (l_ s) (a_ s) (f_ s)
     (b s) (c s) (d s) (e s) (h s) (l s) (ix s) (iy s) (sp s) (pc s) (i s)
     (r s) (iff1 s) (iff2 s) (im s) (enableInterruptsPending s) (halted s)
     (tstates s + 4) (memory s).

(** 0xEB: EX DE,HL. *)
Definition EX_DE_HL (s : t) : t :=
  let temp := getDE s in
  let s := setDE s (getHL s) in
  let s := setHL s temp in
  with_tstates s (tstates s + 4).

(** 0xE3: EX (SP),HL. *)
Definition EX_SP_HL (s : t) : t :=
  let temp := readMemWord s (sp s) in
  let s := writeMemWord s (sp s) (getHL s) in
  let s := setHL s temp in
  with_tstates s (tstates s + 19).

(** 0x18: JR d. *)
Definition JR (s : t) : t :=
  let (byte, s) := InstructionDecoder.fetchByte s in
  let offset := toSigned byte in
  let s := with_pc s (Z.land (pc s + offset) 0xffff) in
  with_tstates s (tstates s + 12).

(** 0x10: DJNZ d. *)
Definition DJNZ (s : t) : t :=
  let (byte, s) := InstructionDecoder.fetchByte s in
  let offset := toSigned byte in
  let s := with_b s (Z.land (b s - 1) 0xff) in
  if negb (b s =? 0) then
    let s := with_pc s (Z.land (pc s + offset) 0xffff) in
    with_tstates s (tstates s + 13)
  else with_tstates s (tstates s + 8).

(** 0xCD: CALL nn. *)
Definition CALL (s : t) : t :=
  let (addr, s) := InstructionDecoder.fetchWord s in
  let s := push s (pc s) in
  let s := with_pc s addr in
  with_tstates s (tstates s + 17).

(** RST t, opcode [0xc7 + t * 8]. *)
Definition RST (t0 : Z) (s : t) : t :=
  let s := push s (pc s) in
  let s := with_pc s (t0 * 8) in
  with_tstates s (tstates s + 11).

(** 0x22: LD (nn),HL. *)
Definition LD_nn_HL (s : t) : t :=
  let (addr, s) := InstructionDecoder.fetchWord s in
  let s := writeMemWord s addr (getHL s) in
  with_tstates s (tstates s + 16).

(** 0x2A: LD HL,(nn). *)
Definition LD_HL_nn (s : t) : t :=
  let (addr, s) := InstructionDecoder.fetchWord s in
  let s := setHL s (readMemWord s addr) in
  with_tstates s (tstates s + 16).

(** 0x2F: CPL. *)
Definition CPL (s : t) : t :=
  let s := with_a s (Z.land (Z.lnot (a s)) 0xff) in
  let s := setFlag s FLAG_H true in
  let s := setFlag s FLAG_N true in
  let s := setFlag s FLAG_Y (truthy (Z.land (a s) 0x20)) in
  let s := setFlag s FLAG_X (truthy (Z.land (a s) 0x08)) in
  with_tstates s (tstates s + 4).

End BaseALU.

(** ** More ED-prefixed instructions (instructions/extended.js) *)

Module ExtendedALU.
Import Z80CPU.
Import Z80Flags.

(** NEG. *)
Definition NEG (s : t) : t :=
  let result := Z.land (0 - a s) 0xff in
  let overflow := a s =? 0x80 in
  let s := setFlag s FLAG_S (truthy (Z.land result 0x80)) in
  let s := setFlag s FLAG_Z (result =? 0) in
  let s := setFlag s FLAG_H (truthy (Z.land (0 - Z.land (a s) 0x0f) 0x10)) in
  let s := setFlag s FLAG_PV overflow in
  let s := setFlag s FLAG_N true in
  let s := setFlag s FLAG_C (negb (a s =? 0)) in
  let s := setFlag s FLAG_Y (truthy (Z.land result 0x20)) in
  let s := setFlag s FLAG_X (truthy (Z.land result 0x08)) in
  let s := with_a s result in
  with_tstates s (tstates s + 8).

(** The operand of the 16-bit ED arithmetic, by its [rp] number. *)
Definition rpValue (rp : Z) (s : t) : Z :=
  if rp =? 3 then sp s
  else if rp =? 2 then getHL s
  else if rp =? 1 then getDE s
  else getBC s.

(** SBC HL,rp, opcode [0x42 + rp * 16]. *)
Definition SBC_HL (rp : Z) (s : t) : t :=
  let hl := getHL s in
  let value := rpValue rp s in
  let carry := if getFlag s FLAG_C then 1 else 0 in
  let result := hl - value - carry in
  let overflow :=
    negb (Z.land (Z.land (Z.lxor hl value) (Z.lxor hl result)) 0x8000 =? 0) in
  let s := setFlag s FLAG_S (truthy (Z.land result 0x8000)) in
  let s := setFlag s FLAG_Z (Z.land result 0xffff =? 0) in
  let s := setFlag s FLAG_H
             (truthy (Z.land (Z.land hl 0x0fff - Z.land value 0x0fff - carry)
                        0x1000)) in
  let s := setFlag s FLAG_PV overflow in
  let s := setFlag s FLAG_N true in
  let s := setFlag s FLAG_C (negb (Z.land result 0x10000 =? 0)) in
  let s := setFlag s FLAG_Y (truthy (Z.land (Z.shiftr result 8) 0x20)) in
  let s := setFlag s FLAG_X (truthy (Z.land (Z.shiftr result 8) 0x08)) in
  let s := setHL s (Z.land result 0xffff) in
  with_tstates s (tstates s + 15).

(** ADC HL,rp, opcode [0x4a + rp * 16]. *)
Definition ADC_HL (rp : Z) (s : t) : t :=
  let hl := getHL s in
  let value := rpValue rp s in
  let carry := if getFlag s FLAG_C then 1 else 0 in
  let result := hl + value + carry in
  let overflow :=
    negb (Z.land (Z.land (Z.lxor hl result) (Z.lxor value result)) 0x8000
          =? 0) in
  let s := setFlag s FLAG_S (truthy (Z.land result 0x8000)) in
  let s := setFlag s FLAG_Z (Z.land result 0xffff =? 0) in
  let s := setFlag s FLAG_H
             (truthy (Z.land (Z.land hl 0x0fff + Z.land value 0x0fff + carry)
                        0x1000)) in
  let s := setFlag s FLAG_PV overflow in
  let s := setFlag s FLAG_N false in
  let s := setFlag s FLAG_C (truthy (Z.land result 0x10000)) in
  let s := setFlag s FLAG_Y (truthy (Z.land (Z.shiftr result 8) 0x20)) in
  let s := setFlag s FLAG_X (truthy (Z.land (Z.shiftr result 8) 0x08)) in
  let s := setHL s (Z.land result 0xffff) in
  with_tstates s (tstates s + 15).

(** The flags set alike by RRD and RLD from the new accumulator. *)
Definition digitFlags (s : t) : t :=
  let s := setFlag s FLAG_S (truthy (Z.land (a s) 0x80)) in
  let s := setFlag s FLAG_Z (a s =? 0) in
  let s := setFlag s FLAG_H false in
  let s := setFlag s FLAG_PV (getParity (a s)) in
  let s := setFlag s FLAG_N false in
  let s := setFlag s FLAG_Y (truthy (Z.land (a s) 0x20)) in
  let s := setFlag s FLAG_X (truthy (Z.land (a s) 0x08)) in
  with_tstates s (tstates s + 18).

(** 0x67: RRD. *)
Definition RRD (s : t) : t :=
  let addr := getHL s in
  let val := readMem s addr in
  let newVal := Z.land (Z.lor (Z.shiftr val 4) (Z.shiftl (a s) 4)) 0xff in
  let s := with_a s (Z.lor (Z.land (a s) 0xf0) (Z.land val 0x0f)) in
  let s := writeMem s addr newVal in
  digitFlags s.

(** 0x6F: RLD. *)
Definition RLD (s : t) : t :=
  let addr := getHL s in
  let val := readMem s addr in
  let newVal := Z.land (Z.lor (Z.shiftl val 4) (Z.land (a s) 0x0f)) 0xff in
  let s := with_a s (Z.lor (Z.land (a s) 0xf0) (Z.shiftr val 4)) in
  let s := writeMem s addr newVal in
  digitFlags s.

End ExtendedALU.

(** ** ULA ports and keyboard (spectrum/ula.js) *)

Module ULAPorts.

(** The port side of the ULA: border, speaker, keyboard matrix, EAR
    input (its truthiness), floating bus and the border history of the
    current frame (oldest entry first, each a pair of frame T-state and
    colour). *)
Record t := mk {
  borderColor : Z;
  speakerState : bool;
  keyboardState : list Z;
  earBit : bool;
  floatingBusValue : Z;
  borderHistory : list (Z * Z);
  frameStartBorderColor : Z;
  frameStartTState : Z
}.

(** The state built by the constructor. *)
Definition init : t :=
  mk 7 false (replicate 8 0xff) true 0xff [] 7 0.

(** [1 << n]. *)
Definition bit (n : Z) : Z := Z.shiftl 1 n.

(** [read(port)]: the value returned and the new state. *)
Definition read (u : t) (port : Z) : Z * t :=
  if Z.land port 0x0001 =? 0 then
    let highByte := Z.land (Z.shiftr port 8) 0xff in
    let result :=
      fold_left
        (fun result row =>
           if Z.land highByte (bit row) =? 0
           then Z.land result (aget (keyboardState u) row)
           else result)
        [0; 1; 2; 3; 4; 5; 6; 7] 0xff in
    let result :=
      if earBit u then Z.lor result 0x40
      else Z.land result (Z.lnot 0x40) in
    (result,
     mk (borderColor u) (speakerState u) (keyboardState u) (earBit u)
        result (borderHistory u) (frameStartBorderColor u)
        (frameStartTState u))
  else (floatingBusValue u, u).

(** [write(port, value)]; [cpuTStates] is [this.cpu.tstates], or [None]
    when no CPU is attached. *)
Definition write (u : t) (cpuTStates : option Z) (port value : Z) : t :=
  let port := Z.land port 0xff in
  let value := Z.land value 0xff in
  if Z.land port 0x01 =? 0 then
    let newBorderColor := Z.land value 0x07 in
    let u :=
      if negb (newBorderColor =? borderColor u) then
        let tstate :=
          match cpuTStates with
          | Some ts => ts - frameStartTState u
          | None => 0
          end in
        mk newBorderColor (speakerState u) (keyboardState u) (earBit u)
           (floatingBusValue u)
           (borderHistory u ++ [(tstate, newBorderColor)])
           (frameStartBorderColor u) (frameStartTState u)
      else u in
    let micBit := negb (Z.land value 0x08 =? 0) in
    let speakerBit := negb (Z.land value 0x10 =? 0) in
    let newSpeakerState := micBit || speakerBit in
    mk (borderColor u) newSpeakerState (keyboardState u) (earBit u)
       (floatingBusValue u) (borderHistory u) (frameStartBorderColor u)
       (frameStartTState u)
  else u.

(** [resetFrameTStates()]. *)
Definition resetFrameTStates (u : t) (cpuTStates : option Z) : t :=
  mk (borderColor u) (speakerState u) (keyboardState u) (earBit u)
     (floatingBusValue u) [] (borderColor u)
     match cpuTStates with Some ts => ts | None => 0 end.

(** The positions [[row, col]] of [keyMatrix], in the order of the
    source. *)
Definition keyPositions : list (Z * Z) :=
  [ (0, 0); (0, 0); (0, 1); (0, 2); (0, 3); (0, 4);
    (1, 0); (1, 1); (1, 2); (1, 3); (1, 4);
    (2, 0); (2, 1); (2, 2); (2, 3); (2, 4);
    (3, 0); (3, 1); (3, 2); (3, 3); (3, 4);
    (4, 0); (4, 1); (4, 2); (4, 3); (4, 4);
    (5, 0); (5, 1); (5, 2); (5, 3); (5, 4);
    (6, 0); (6, 1); (6, 2); (6, 3); (6, 4);
    (7, 0); (7, 1); (7, 1); (7, 2); (7, 3); (7, 4);
    (7, 2); (7, 3); (0, 0) ].

(** [keyboardState[row] = v] keeps eight bits. *)
Definition setRow (u : t) (row v : Z) : t :=
  mk (borderColor u) (speakerState u) (aset (keyboardState u) row v)
     (earBit u) (floatingBusValue u) (borderHistory u)
     (frameStartBorderColor u) (frameStartTState u).

(** [keyDown(code)] and [keyUp(code)] once [keyMatrix[code]] has given the
    position [pos]; a code that is not in the matrix changes nothing. *)
Definition keyDown (u : t) (pos : option (Z * Z)) : t :=
  match pos with
  | Some (row, col) =>
      setRow u row (Z.land (aget (keyboardState u) row) (Z.lnot (bit col)))
  | None => u
  end.

Definition keyUp (u : t) (pos : option (Z * Z)) : t :=
  match pos with
  | Some (row, col) =>
      setRow u row (Z.lor (aget (keyboardState u) row) (bit col))
  | None => u
  end.

(** [releaseAllKeys()]. *)
Definition releaseAllKeys (u : t) : t :=
  mk (borderColor u) (speakerState u)
     (replicate (length (keyboardState u)) 0xff) (earBit u)
     (floatingBusValue u) (borderHistory u) (frameStartBorderColor u)
     (frameStartTState u).

(** A key event on a position of the matrix. *)
Inductive keyEvent :=
| Down (pos : Z * Z)
| Up (pos : Z * Z)
| ReleaseAll.

Definition keyStep (u : t) (ev : keyEvent) : t :=
  match ev with
  | Down pos => keyDown u (Some pos)
  | Up pos => keyUp u (Some pos)
  | ReleaseAll => releaseAllKeys u
  end.

Definition event_in_matrix (ev : keyEvent) : Prop :=
  match ev with
  | Down pos | Up pos => In pos keyPositions
  | ReleaseAll => True
  end.

(** Every row of the keyboard holds a byte whose three top bits are
    set, as the constructor leaves them. *)
Definition rowsOk (u : t) : Prop :=
  length (keyboardState u) = 8%nat /\
  Forall (fun x => (0 <= x < 256) /\ Z.land x 0xe0 = 0xe0) (keyboardState u).

(** Port writes of one frame, each with the CPU's counter at the time. *)
Definition runWrites (u : t) (ws : list (Z * Z * Z)) : t :=
  foldl (fun u w => write u (Some (fst (fst w))) (snd (fst w)) (snd w)) u ws.

(** No two successive colours of the list are equal. *)
Fixpoint changes (prev : Z) (colours : list Z) : Prop :=
  match colours with
  | [] => True
  | c :: colours => c <> prev /\ changes c colours
  end.

End ULAPorts.

(** ** Tape files (spectrum/tape.js, spectrum/spectrum.js) *)

Module TapeFile.

(** The block [parseTAPBlocks] and [parseTZXBlock10] build around the
    bytes of a standard block. *)
Definition tapBlock (blockData : list Z) : Tape.block :=
  let pauseTime :=
    match blockData with
    | flagByte :: _ => if flagByte <? 128 then 100 else 500
    | [] => 500
    end in
  Tape.Standard
    (Tape.mkPulses blockData Tape.PILOT_PULSE Tape.SYNC1_PULSE
       Tape.SYNC2_PULSE Tape.ZERO_PULSE Tape.ONE_PULSE
       match blockData with
       | flagByte :: _ =>
           if flagByte <? 128 then Tape.PILOT_PULSES_HEADER
           else Tape.PILOT_PULSES_DATA
       | [] => Tape.PILOT_PULSES_DATA
       end
       pauseTime 8).

(** The [while] of [parseTAPBlocks]: [n] bounds the number of turns,
    [data] is what is left of the file from [offset] on. *)
Fixpoint parseTAP_loop (n : nat) (data : list Z) : list Tape.block :=
  match n with
  | O => []
  | S n =>
      match data with
      | [] => []
      | [_] => []
      | lo :: hi :: rest =>
          let len := Z.lor lo (Z.shiftl hi 8) in
          if Z.of_nat (length rest) <? len then []
          else
            tapBlock (take (Z.to_nat len) rest)
              :: parseTAP_loop n (drop (Z.to_nat len) rest)
      end
  end.

(** [parseTAPBlocks(data)]: every turn consumes at least the two length
    bytes, so the length of the file bounds the turns. *)
Definition parseTAPBlocks (data : list Z) : list Tape.block :=
  parseTAP_loop (length data) data.

(** The bytes of one TAP block: little-endian length, then the data. *)
Definition tapRecord (blockData : list Z) : list Z :=
  Z.land (Z.of_nat (length blockData)) 0xff
    :: Z.shiftr (Z.of_nat (length blockData)) 8
    :: blockData.

(** [detectTapeFormat(data)]: [true] for TZX, [false] for TAP. *)
Definition detectTapeFormat (data : list Z) : bool :=
  (Z.of_nat (length data) >? 10)
  && (aget data 0 =? 0x5a) && (aget data 1 =? 0x58)
  && (aget data 2 =? 0x54) && (aget data 3 =? 0x61)
  && (aget data 4 =? 0x70) && (aget data 5 =? 0x65)
  && (aget data 6 =? 0x21).

End TapeFile.

(** ** Running the CPU and the tape player over several steps *)

Module Run.

(** [n] calls of [executeInstruction], as the frame loop makes them;
    [None] when an instruction outside the embedded fragment is met. *)
Fixpoint steps (n : nat) (s : Z80CPU.t) : option Z80CPU.t :=
  match n with
  | O => Some s
  | S n =>
      match InstructionDecoder.executeInstruction s with
      | Some (_, s') => steps n s'
      | None => None
      end
  end.

(** A ROM image with LDIR (ED B0) at address 0, and a CPU about to run
    it with HL = 0x8000, DE = 0x9000 and BC = 3. *)
Definition memoryLdir : Memory.t :=
  Memory.mk (aset (aset (Memory.rom Sample.memory0) 0 0xed) 1 0xb0)
    (Memory.ram Sample.memory0) true None.

Definition cpuLdir : Z80CPU.t :=
  Z80CPU.with_c
    (Z80CPU.with_h (Z80CPU.with_d (Sample.cpu0 memoryLdir) 0x90) 0x80) 3.

(** A player inside the pause that follows a block, one second of
    3500000 T-states left, last updated at T-state 0; and the same
    player after an update at T-state 100. *)
Definition tapePaused : Tape.t :=
  Tape.with_pauseCycles
    (Tape.with_state
       (Tape.with_currentBlock
          (Tape.with_playing (Tape.loaded [Sample.headerBlock]) true)
          (Some Sample.headerBlock))
       Tape.PAUSE)
    3500000.

Definition tapePausedLater : Tape.t :=
  Tape.with_lastUpdateCycle
    (Tape.with_pauseCycles tapePaused (3500000 - 100)) 100.

(** A CPU in interrupt mode 2, halted with interrupts enabled at
    PC = 0x9000, SP = 0xFFFF and I = 0x80, over a memory whose vector
    at 0x80FF holds 0x1234. *)
Definition memoryVector : Memory.t :=
  Sample.poke Sample.memory0 0x80ff [0x34; 0x12].

Definition cpuMode2 : Z80CPU.t :=
  Z80CPU.mk 0 0 0 0 0 0 0 0  0 0 0 0 0 0 0 0  0 0 0xffff 0x9000 0x80 0
    true true 2 false true 0 (Some memoryVector).

(** A memory whose cell 0x8000 holds 0x55, and two CPUs over it with
    HL = 0x8000 and BC = 2: one with DE = 0x9000, in RAM, the other
    with DE = 0x1000, in ROM. *)
Definition memoryByte : Memory.t := Sample.poke Sample.memory0 0x8000 [0x55].

Definition cpuCopyRam : Z80CPU.t :=
  Z80CPU.with_c
    (Z80CPU.with_h (Z80CPU.with_d (Sample.cpu0 memoryByte) 0x90) 0x80) 2.

Definition cpuCopyRom : Z80CPU.t :=
  Z80CPU.with_c
    (Z80CPU.with_h (Z80CPU.with_d (Sample.cpu0 memoryByte) 0x10) 0x80) 2.

End Run.

(** * Properties *)

(** ** Masks and register pairs *)

Lemma land_ffff_mod (x : Z) : Z.land x 0xffff = x mod 65536.
Proof. change 0xffff with (Z.ones 16). now rewrite Z.land_ones by lia. Qed.

Lemma land_ff_mod (x : Z) : Z.land x 0xff = x mod 256.
Proof. change 0xff with (Z.ones 8). now rewrite Z.land_ones by lia. Qed.

Lemma land_ffff_range (x : Z) : 0 <= Z.land x 0xffff < 65536.
Proof. rewrite land_ffff_mod. apply Z.mod_pos_bound. lia. Qed.

Lemma land_ff_range (x : Z) : 0 <= Z.land x 0xff < 256.
Proof. rewrite land_ff_mod. apply Z.mod_pos_bound. lia. Qed.

Lemma land_ffff_small (x : Z) : 0 <= x < 65536 -> Z.land x 0xffff = x.
Proof. intros H. rewrite land_ffff_mod. now apply Z.mod_small. Qed.

Lemma land_ff_small (x : Z) : 0 <= x < 256 -> Z.land x 0xff = x.
Proof. intros H. rewrite land_ff_mod. now apply Z.mod_small. Qed.

Lemma land_ffff_idem (x : Z) : Z.land (Z.land x 0xffff) 0xffff = Z.land x 0xffff.
Proof. apply land_ffff_small, land_ffff_range. Qed.

Lemma land_ff_idem (x : Z) : Z.land (Z.land x 0xff) 0xff = Z.land x 0xff.
Proof. apply land_ff_small, land_ff_range. Qed.

(** [(hi << 8) | lo] is [hi * 256 + lo] when [lo] is a byte. *)
Lemma pair_value (hi lo : Z) :
  0 <= lo < 256 -> Z.lor (Z.shiftl hi 8) lo = hi * 256 + lo.
Proof.
  intros Hlo. rewrite Z.shiftl_mul_pow2 by lia.
  change (2 ^ 8) with 256.
  rewrite <- Z.lxor_lor.
  - rewrite <- Z.add_nocarry_lxor; [reflexivity|].
    apply Z.bits_inj'. intros n Hn. rewrite Z.land_spec, Z.bits_0.
    destruct (Z.lt_ge_cases n 8) as [Hlt|Hge].
    + replace (hi * 256) with (hi * 2 ^ 8) by reflexivity.
      rewrite Z.mul_pow2_bits_low by lia. reflexivity.
    + replace (Z.testbit lo n) with false; [apply andb_false_r|].
      symmetry. destruct (Z.eq_dec lo 0) as [->|Hne]; [apply Z.bits_0|].
      apply Z.bits_above_log2; [lia|].
      assert (Z.log2 lo < 8) by (apply Z.log2_lt_pow2; lia). lia.
  - apply Z.bits_inj'. intros n Hn. rewrite Z.land_spec, Z.bits_0.
    destruct (Z.lt_ge_cases n 8) as [Hlt|Hge].
    + replace (hi * 256) with (hi * 2 ^ 8) by reflexivity.
      rewrite Z.mul_pow2_bits_low by lia. reflexivity.
    + replace (Z.testbit lo n) with false; [apply andb_false_r|].
      symmetry. destruct (Z.eq_dec lo 0) as [->|Hne]; [apply Z.bits_0|].
      apply Z.bits_above_log2; [lia|].
      assert (Z.log2 lo < 8) by (apply Z.log2_lt_pow2; lia). lia.
Qed.

(** Splitting a 16-bit value into its bytes and joining them again. *)
Lemma pair_split_join (v : Z) :
  0 <= v < 65536 ->
  Z.lor (Z.shiftl (Z.land (Z.shiftr v 8) 0xff) 8) (Z.land v 0xff) = v.
Proof.
  intros Hv. rewrite pair_value by apply land_ff_range.
  rewrite !land_ff_mod, Z.shiftr_div_pow2 by lia.
  change (2 ^ 8) with 256.
  rewrite (Z.mod_small (v / 256)) by (split; [apply Z.div_pos|apply Z.div_lt_upper_bound]; lia).
  rewrite (Z.div_mod v 256) at 3 by lia. lia.
Qed.

Lemma pair_range (hi lo : Z) :
  0 <= hi < 256 -> 0 <= lo < 256 ->
  0 <= Z.lor (Z.shiftl hi 8) lo < 65536.
Proof. intros Hh Hl. rewrite pair_value by assumption. lia. Qed.

Lemma pair_high (hi lo : Z) :
  0 <= hi < 256 -> 0 <= lo < 256 ->
  Z.land (Z.shiftr (Z.lor (Z.shiftl hi 8) lo) 8) 0xff = hi.
Proof.
  intros Hh Hl. rewrite pair_value by assumption.
  rewrite Z.shiftr_div_pow2 by lia. change (2 ^ 8) with 256.
  replace ((hi * 256 + lo) / 256) with hi
    by (apply Z.div_unique with lo; lia).
  now apply land_ff_small.
Qed.

Lemma pair_low (hi lo : Z) :
  0 <= lo < 256 -> Z.land (Z.lor (Z.shiftl hi 8) lo) 0xff = lo.
Proof.
  intros Hl. rewrite pair_value by assumption. rewrite land_ff_mod.
  rewrite Z.add_comm, Z.mod_add by lia. now apply Z.mod_small.
Qed.

(** ** Memory: stores never reach the ROM *)

Lemma aget_aset_same (arr : list Z) (i v : Z) :
  0 <= i < Z.of_nat (length arr) ->
  aget (aset arr i v) i = Z.land v 255.
Proof.
  intros Hi. unfold aget, aset.
  destruct (i <? 0) eqn:E; [apply Z.ltb_lt in E; lia|].
  rewrite list_lookup_insert_eq by lia. reflexivity.
Qed.

Lemma aget_aset_other (arr : list Z) (i j v : Z) :
  0 <= i -> 0 <= j -> i <> j ->
  aget (aset arr i v) j = aget arr j.
Proof.
  intros Hi Hj Hne. unfold aget, aset.
  destruct (j <? 0) eqn:Ej; [reflexivity|].
  destruct (i <? 0) eqn:Ei; [reflexivity|].
  rewrite list_lookup_insert_ne by lia. reflexivity.
Qed.

Lemma length_aset (arr : list Z) (i v : Z) :
  length (aset arr i v) = length arr.
Proof. unfold aset. destruct (i <? 0); [reflexivity|apply length_insert]. Qed.

Lemma write_rom (m : Memory.t) (addr value : Z) :
  Memory.rom (Memory.write m addr value) = Memory.rom m.
Proof. unfold Memory.write. now destruct (_ <? _). Qed.

Lemma writeWithContention_rom (m : Memory.t) (addr value : Z) :
  Memory.rom (fst (Memory.writeWithContention m addr value)) = Memory.rom m.
Proof. unfold Memory.writeWithContention. simpl. now destruct (_ >=? _). Qed.

Lemma run_stores_rom (ss : list Memory.store) (m : Memory.t) :
  Memory.rom (Memory.run_stores m ss) = Memory.rom m.
Proof.
  revert m. induction ss as [|s ss IH]; intros m; [reflexivity|].
  unfold Memory.run_stores in *. simpl. rewrite IH.
  destruct s; simpl; [apply write_rom|apply writeWithContention_rom].
Qed.

Lemma read_below_rom (m : Memory.t) (addr : Z) :
  0 <= addr < 0x4000 -> Memory.read m addr = aget (Memory.rom m) addr.
Proof.
  intros H. unfold Memory.read.
  rewrite land_ffff_small by lia.
  destruct (addr <? 0x4000) eqn:E; [reflexivity|].
  apply Z.ltb_ge in E. lia.
Qed.

Lemma write_wf (m : Memory.t) (addr value : Z) :
  Memory.wf m -> Memory.wf (Memory.write m addr value).
Proof.
  intros [Hr Ha]. unfold Memory.write, Memory.wf.
  destruct (_ <? _); simpl; [now split|].
  now rewrite length_aset.
Qed.

Lemma read_write_same (m : Memory.t) (addr value : Z) :
  Memory.wf m -> 0x4000 <= Z.land addr 0xffff ->
  Memory.read (Memory.write m addr value) addr = Z.land value 0xff.
Proof.
  intros [_ Hlen] Hram. unfold Memory.read, Memory.write.
  pose proof (land_ffff_range addr) as Hr.
  destruct (Z.land addr 0xffff <? 0x4000) eqn:E;
    [apply Z.ltb_lt in E; lia|].
  simpl. rewrite aget_aset_same by lia.
  change 255 with 0xff. apply land_ff_idem.
Qed.

Lemma read_write_other (m : Memory.t) (addr addr' value : Z) :
  Z.land addr 0xffff <> Z.land addr' 0xffff ->
  Memory.read (Memory.write m addr value) addr' = Memory.read m addr'.
Proof.
  intros Hne. unfold Memory.read, Memory.write.
  pose proof (land_ffff_range addr) as Hr.
  pose proof (land_ffff_range addr') as Hr'.
  destruct (Z.land addr 0xffff <? 0x4000) eqn:E; [reflexivity|].
  apply Z.ltb_ge in E. simpl.
  destruct (Z.land addr' 0xffff <? 0x4000) eqn:E'; [reflexivity|].
  apply Z.ltb_ge in E'. apply aget_aset_other; lia.
Qed.

(** C7.  A store to an address below 0x4000 returns the memory as it
    was, through [write] and through [writeWithContention]; after any
    sequence of stores, to any addresses, the ROM array is the one from
    before and a read below 0x4000 returns the byte it returned before. *)
Theorem rom_writes_ignored (m : Memory.t) (ss : list Memory.store)
    (addr value : Z) (Haddr : 0 <= addr < 0x4000) :
  Memory.write m addr value = m /\
  fst (Memory.writeWithContention m addr value) = m /\
  Memory.rom (Memory.run_stores m ss) = Memory.rom m /\
  Memory.read (Memory.run_stores m ss) addr = Memory.read m addr.
Proof.
  repeat split.
  - unfold Memory.write. rewrite land_ffff_small by lia.
    destruct (addr <? 0x4000) eqn:E; [reflexivity|].
    apply Z.ltb_ge in E. lia.
  - unfold Memory.writeWithContention. simpl.
    rewrite land_ffff_small by lia.
    destruct (addr >=? 0x4000) eqn:E; [|reflexivity].
    apply Z.geb_le in E. lia.
  - apply run_stores_rom.
  - rewrite !read_below_rom by assumption. now rewrite run_stores_rom.
Qed.

Lemma rom_writes_ignored_witness :
  Memory.write Sample.memory0 0x1234 0xab = Sample.memory0 /\
  fst (Memory.writeWithContention Sample.memory0 0x1234 0xab)
    = Sample.memory0 /\
  Memory.rom
    (Memory.run_stores Sample.memory0
       [Memory.ByWrite 0x0010 1; Memory.ByWriteWithContention 0x5000 2;
        Memory.ByWrite 0x1234 3])
    = Memory.rom Sample.memory0 /\
  Memory.read
    (Memory.run_stores Sample.memory0
       [Memory.ByWrite 0x0010 1; Memory.ByWriteWithContention 0x5000 2;
        Memory.ByWrite 0x1234 3]) 0x1234
    = Memory.read Sample.memory0 0x1234.
Proof. apply (rom_writes_ignored Sample.memory0 _ 0x1234 0xab). lia. Defined.

(** ** Interrupt acceptance *)

Section Interrupts.
Import Z80CPU.

Lemma write_masked (m : Memory.t) (addr value : Z) :
  Memory.write m (Z.land addr 0xffff) (Z.land value 0xff)
  = Memory.write m addr value.
Proof. unfold Memory.write. now rewrite land_ffff_idem, land_ff_idem. Qed.

Lemma land_ffff_pred (x : Z) :
  Z.land (Z.land x 0xffff - 1) 0xffff = Z.land (x - 1) 0xffff.
Proof. rewrite !land_ffff_mod. apply Zminus_mod_idemp_l. Qed.

Lemma land_ffff_succ (x : Z) :
  Z.land (Z.land x 0xffff + 1) 0xffff = Z.land (x + 1) 0xffff.
Proof. rewrite !land_ffff_mod. apply Zplus_mod_idemp_l. Qed.

(** The effect of [push] on the stack pointer and on memory: the high
    byte goes to SP-1, the low byte to SP-2, nothing else changes. *)
Lemma push_sp (s : t) (val : Z) :
  sp (push s val) = Z.land (sp s - 2) 0xffff.
Proof.
  destruct s as [? ? ? ? ? ? ? ? ? ? ? ? ? ? ? ? ? ? ? ? ? ? ? ? ? ? ? ? [m|]];
    cbn; rewrite land_ffff_pred; f_equal; lia.
Qed.

Lemma push_memory (s : t) (val : Z) :
  memory (push s val)
  = option_map
      (fun m =>
         Memory.write
           (Memory.write m (Z.land (sp s - 1) 0xffff)
              (Z.land (Z.shiftr val 8) 0xff))
           (Z.land (sp s - 2) 0xffff) (Z.land val 0xff))
      (memory s).
Proof.
  destruct s as [? ? ? ? ? ? ? ? ? ? ? ? ? ? ? ? ? ? sp0 ? ? ? ? ? ? ? ? ? [m|]];
    cbn; [|reflexivity].
  rewrite land_ffff_pred, !write_masked.
  now replace (sp0 - 1 - 1) with (sp0 - 2) by lia.
Qed.

Lemma interrupt_clears_iff1 (s : t) :
  iff1 s = true -> enableInterruptsPending s = false ->
  iff1 (interrupt s) = false.
Proof.
  destruct s as [? ? ? ? ? ? ? ? ? ? ? ? ? ? ? ? ? ? ? ? ? ? ? ? im0 ? ? ? [m|]];
    cbn [iff1 enableInterruptsPending]; intros -> ->; unfold interrupt;
    cbn [iff1 enableInterruptsPending negb orb im with_halted with_iff1
           with_iff2];
    destruct (im0 =? 0); [|destruct (im0 =? 1)| |destruct (im0 =? 1)];
    reflexivity.
Qed.

Lemma read_masked (m : Memory.t) (addr : Z) :
  Memory.read m (Z.land addr 0xffff) = Memory.read m addr.
Proof. unfold Memory.read. now rewrite land_ffff_idem. Qed.

(** The registers and the stores of an accepted interrupt. *)
Lemma interrupt_core (s : t) :
  iff1 s = true -> enableInterruptsPending s = false ->
  let s' := interrupt s in
  halted s' = false /\ iff1 s' = false /\ iff2 s' = false /\
  sp s' = Z.land (sp s - 2) 0xffff /\
  memory s'
  = option_map
      (fun m =>
         Memory.write
           (Memory.write m (Z.land (sp s - 1) 0xffff)
              (Z.land (Z.shiftr (pc s) 8) 0xff))
           (Z.land (sp s - 2) 0xffff) (Z.land (pc s) 0xff))
      (memory s) /\
  (im s = 0 \/ im s = 1 ->
   pc s' = 0x0038 /\ tstates s' = tstates s + 13) /\
  (im s = 2 ->
   pc s' = readMemWord s' (Z.lor (Z.shiftl (i s) 8) 0xff) /\
   tstates s' = tstates s + 19).
Proof.
  intros Hiff Hei.
  unfold interrupt. rewrite Hiff, Hei. cbn [negb orb].
  set (s0 := with_iff1 (with_iff2 (with_halted s false) false) false).
  assert (Hsp : sp s0 = sp s) by reflexivity.
  assert (Hpc : pc s0 = pc s) by reflexivity.
  assert (Hmem : memory s0 = memory s) by reflexivity.
  assert (Him : im s0 = im s) by reflexivity.
  assert (Hh : forall v, halted (push s0 v) = false)
    by (intros v; destruct s
          as [? ? ? ? ? ? ? ? ? ? ? ? ? ? ? ? ? ? ? ? ? ? ? ? ? ? ? ? [m|]];
        reflexivity).
  assert (H1 : forall v, iff1 (push s0 v) = false)
    by (intros v; destruct s
          as [? ? ? ? ? ? ? ? ? ? ? ? ? ? ? ? ? ? ? ? ? ? ? ? ? ? ? ? [m|]];
        reflexivity).
  assert (H2 : forall v, iff2 (push s0 v) = false)
    by (intros v; destruct s
          as [? ? ? ? ? ? ? ? ? ? ? ? ? ? ? ? ? ? ? ? ? ? ? ? ? ? ? ? [m|]];
        reflexivity).
  assert (Ht : forall v, tstates (push s0 v) = tstates s)
    by (intros v; destruct s
          as [? ? ? ? ? ? ? ? ? ? ? ? ? ? ? ? ? ? ? ? ? ? ? ? ? ? ? ? [m|]];
        reflexivity).
  pose proof (push_sp s0 (pc s0)) as Psp.
  pose proof (push_memory s0 (pc s0)) as Pmem.
  rewrite Hsp, Hpc, Hmem in *. rewrite Him.
  destruct (im s =? 0) eqn:E0; [|destruct (im s =? 1) eqn:E1]; cbn zeta.
  - apply Z.eqb_eq in E0.
    repeat split; try solve [simpl; auto]; intros; simpl; try lia; auto.
    now rewrite Ht.
  - apply Z.eqb_eq in E1.
    repeat split; try solve [simpl; auto]; intros; simpl; try lia; auto.
    now rewrite Ht.
  - apply Z.eqb_neq in E0. apply Z.eqb_neq in E1.
    repeat split; try solve [simpl; auto]; intros; simpl; try lia; auto.
    now rewrite Ht.
Qed.

(** The two stack cells after the stores of a push of [v] below [sp0],
    read back from a RAM stack. *)
Lemma stack_cells (m : Memory.t) (sp0 v : Z) :
  Memory.wf m ->
  0x4000 <= Z.land (sp0 - 1) 0xffff ->
  0x4000 <= Z.land (sp0 - 2) 0xffff ->
  let m' :=
    Memory.write
      (Memory.write m (Z.land (sp0 - 1) 0xffff)
         (Z.land (Z.shiftr v 8) 0xff))
      (Z.land (sp0 - 2) 0xffff) (Z.land v 0xff) in
  Memory.read m' (Z.land (sp0 - 2) 0xffff) = Z.land v 0xff /\
  Memory.read m' (Z.land (sp0 - 1) 0xffff) = Z.land (Z.shiftr v 8) 0xff /\
  (forall addr,
     Z.land addr 0xffff <> Z.land (sp0 - 1) 0xffff ->
     Z.land addr 0xffff <> Z.land (sp0 - 2) 0xffff ->
     Memory.read m' addr = Memory.read m addr).
Proof.
  intros Hwf H1 H2. cbv zeta.
  assert (Hne : Z.land (sp0 - 2) 0xffff <> Z.land (sp0 - 1) 0xffff).
  { rewrite !land_ffff_mod. intros E.
    assert (H : (sp0 - 1 - (sp0 - 2)) mod 65536 = 0)
      by (rewrite Zminus_mod, E, Z.sub_diag; reflexivity).
    replace (sp0 - 1 - (sp0 - 2)) with 1 in H by lia. discriminate H. }
  split; [|split].
  - rewrite read_write_same;
      [apply land_ff_idem|now apply write_wf|now rewrite land_ffff_idem].
  - rewrite read_write_other by now rewrite !land_ffff_idem.
    rewrite read_write_same;
      [apply land_ff_idem|assumption|now rewrite land_ffff_idem].
  - intros addr N1 N2.
    rewrite read_write_other by (rewrite land_ffff_idem; congruence).
    apply read_write_other. rewrite land_ffff_idem. congruence.
Qed.

Lemma pop_eq (s : t) :
  fst (pop s)
  = Z.lor (Z.shiftl (readMem s (Z.land (sp s + 1) 0xffff)) 8)
      (readMem s (sp s)) /\
  sp (snd (pop s)) = Z.land (Z.land (sp s + 1) 0xffff + 1) 0xffff.
Proof. split; reflexivity. Qed.

(** C3.  When IFF1 is set and no EI is pending, [interrupt] clears
    [halted], IFF1 and IFF2, pushes PC (high byte stored at SP-1, low
    byte at SP-2, SP lowered by two modulo 2^16), and continues at 0x0038
    after 13 T-states in modes 0 and 1, or, after 19 T-states in mode 2,
    at the word whose low byte is read at [(I << 8) | 0xFF] and whose
    high byte at the next address, after the push.  With the two stack
    cells in RAM the pushed PC is what memory holds at the new SP, low
    byte first: it is the word read there and the value a pop returns,
    which also brings a 16-bit SP back; no other cell changes, so that a
    mode 2 vector lying apart from the stack is read as it was before
    the interrupt. *)
Theorem interrupt_accepted (s : t)
    (Hiff : iff1 s = true) (Hei : enableInterruptsPending s = false) :
  let s' := interrupt s in
  let vector := Z.lor (Z.shiftl (i s) 8) 0xff in
  halted s' = false /\ iff1 s' = false /\ iff2 s' = false /\
  sp s' = Z.land (sp s - 2) 0xffff /\
  memory s'
  = option_map
      (fun m =>
         Memory.write
           (Memory.write m (Z.land (sp s - 1) 0xffff)
              (Z.land (Z.shiftr (pc s) 8) 0xff))
           (Z.land (sp s - 2) 0xffff) (Z.land (pc s) 0xff))
      (memory s) /\
  (im s = 0 \/ im s = 1 ->
   pc s' = 0x0038 /\ tstates s' = tstates s + 13) /\
  (im s = 2 ->
   pc s' = readMemWord s' vector /\
   pc s' = Z.lor (Z.shiftl (readMem s' (Z.land (vector + 1) 0xffff)) 8)
             (readMem s' vector) /\
   tstates s' = tstates s + 19) /\
  (forall m,
     memory s = Some m -> Memory.wf m ->
     0x4000 <= Z.land (sp s - 1) 0xffff ->
     0x4000 <= Z.land (sp s - 2) 0xffff ->
     readMem s' (sp s') = Z.land (pc s) 0xff /\
     readMem s' (sp s' + 1) = Z.land (Z.shiftr (pc s) 8) 0xff /\
     (forall addr,
        Z.land addr 0xffff <> Z.land (sp s - 1) 0xffff ->
        Z.land addr 0xffff <> Z.land (sp s - 2) 0xffff ->
        readMem s' addr = readMem s addr) /\
     (word (pc s) ->
      readMemWord s' (sp s') = pc s /\ fst (pop s') = pc s) /\
     (word (sp s) -> sp (snd (pop s')) = sp s) /\
     (im s = 2 ->
      Z.land vector 0xffff <> Z.land (sp s - 1) 0xffff ->
      Z.land vector 0xffff <> Z.land (sp s - 2) 0xffff ->
      Z.land (vector + 1) 0xffff <> Z.land (sp s - 1) 0xffff ->
      Z.land (vector + 1) 0xffff <> Z.land (sp s - 2) 0xffff ->
      pc s' = Z.lor (Z.shiftl (Memory.read m (vector + 1)) 8)
                (Memory.read m vector))).
Proof.
  cbv zeta.
  pose proof (interrupt_core s Hiff Hei) as Core. cbv zeta in Core.
  destruct Core as (C1 & C2 & C3 & C4 & C5 & C6 & C7).
  set (s' := interrupt s) in *.
  set (vector := Z.lor (Z.shiftl (i s) 8) 0xff) in *.
  repeat (split; [assumption|]).
  split.
  { intros Him. destruct (C7 Him) as [P T].
    split; [exact P|]. split; [exact P|exact T]. }
  intros m Hm Hwf H1 H2.
  rewrite Hm in C5. cbn [option_map] in C5.
  destruct (stack_cells m (sp s) (pc s) Hwf H1 H2) as (S1 & S2 & S3).
  cbv zeta in S1, S2, S3.
  set (m' := Memory.write _ _ _) in *.
  assert (R : forall addr, readMem s' addr = Memory.read m' addr).
  { intros addr. unfold readMem. rewrite C5. apply read_masked. }
  assert (R0 : forall addr, readMem s addr = Memory.read m addr).
  { intros addr. unfold readMem. rewrite Hm. apply read_masked. }
  assert (E1 : readMem s' (sp s') = Z.land (pc s) 0xff)
    by (rewrite R, C4; exact S1).
  assert (E2 : readMem s' (Z.land (sp s' + 1) 0xffff)
               = Z.land (Z.shiftr (pc s) 8) 0xff).
  { rewrite R, read_masked, <- read_masked, C4, land_ffff_succ.
    replace (sp s - 2 + 1) with (sp s - 1) by lia. exact S2. }
  split; [exact E1|].
  split; [rewrite R, <- read_masked, <- R; exact E2|].
  split; [intros addr N1 N2; rewrite R, R0; now apply S3|].
  split.
  { intros Hw.
    assert (W : Z.lor (Z.shiftl (readMem s' (Z.land (sp s' + 1) 0xffff)) 8)
                  (readMem s' (sp s')) = pc s)
      by (rewrite E1, E2; apply pair_split_join; exact Hw).
    split; [exact W|]. rewrite (proj1 (pop_eq s')). exact W. }
  split.
  { intros Hw. rewrite (proj2 (pop_eq s')), C4, (land_ffff_succ (sp s - 2)),
      land_ffff_succ.
    replace (sp s - 2 + 1 + 1) with (sp s) by lia.
    apply land_ffff_small. exact Hw. }
  intros Him V1 V2 V3 V4. destruct (C7 Him) as [P _].
  rewrite P. unfold readMemWord. cbv zeta.
  rewrite !R, read_masked.
  now rewrite (S3 _ V3 V4), (S3 _ V1 V2).
Qed.

Lemma interrupt_accepted_witness :
  halted (interrupt Run.cpuMode2) = false /\
  iff1 (interrupt Run.cpuMode2) = false /\
  iff2 (interrupt Run.cpuMode2) = false /\
  sp (interrupt Run.cpuMode2) = 0xfffd /\
  memory (interrupt Run.cpuMode2)
  = Some (Memory.write (Memory.write Run.memoryVector 0xfffe 0x90)
            0xfffd 0x00) /\
  readMem (interrupt Run.cpuMode2) 0xfffd = 0x00 /\
  readMem (interrupt Run.cpuMode2) 0xfffe = 0x90 /\
  readMemWord (interrupt Run.cpuMode2) (sp (interrupt Run.cpuMode2))
  = 0x9000 /\
  fst (pop (interrupt Run.cpuMode2)) = 0x9000 /\
  sp (snd (pop (interrupt Run.cpuMode2))) = 0xffff /\
  pc (interrupt Run.cpuMode2) = 0x1234 /\
  tstates (interrupt Run.cpuMode2) = tstates Run.cpuMode2 + 19.
Proof.
  destruct (interrupt_accepted Run.cpuMode2 eq_refl eq_refl)
    as (Hh & H1 & H2 & Hsp & Hmem & _ & Hm2 & Hram).
  destruct (Hm2 eq_refl) as (_ & _ & Ht).
  assert (Hwf : Memory.wf Run.memoryVector) by (split; vm_compute; reflexivity).
  assert (R1 : 0x4000 <= Z.land (sp Run.cpuMode2 - 1) 0xffff)
    by (apply Z.leb_le; vm_compute; reflexivity).
  assert (R2 : 0x4000 <= Z.land (sp Run.cpuMode2 - 2) 0xffff)
    by (apply Z.leb_le; vm_compute; reflexivity).
  destruct (Hram Run.memoryVector eq_refl Hwf R1 R2)
    as (E1 & E2 & _ & Hword & Hback & Hvec).
  assert (Wpc : word (pc Run.cpuMode2)) by (unfold word; simpl; lia).
  assert (Wsp : word (sp Run.cpuMode2)) by (unfold word; simpl; lia).
  destruct (Hword Wpc) as [Hw Hp].
  assert (Hpc : pc (interrupt Run.cpuMode2) = 0x1234).
  { rewrite Hvec;
      [vm_compute; reflexivity|reflexivity
      |intros E; vm_compute in E; discriminate E..]. }
  rewrite Hsp in E1, E2.
  split; [exact Hh|]. split; [exact H1|]. split; [exact H2|].
  split; [exact Hsp|]. split; [exact Hmem|].
  split; [exact E1|]. split; [exact E2|].
  split; [exact Hw|]. split; [exact Hp|].
  split; [exact (Hback Wsp)|]. split; [exact Hpc|exact Ht].
Defined.

(** C10.  With IFF1 clear, or with an EI still pending, [interrupt]
    returns the CPU as it was: registers, flags, [halted], the T-state
    counter and memory; so a frame whose loop ends in such a state ends
    in that state. *)
Theorem interrupt_masked (s : t) (u : ULA.t) (tp : Tape.t)
    (H : iff1 s = false \/ enableInterruptsPending s = true) :
  interrupt s = s /\
  forall fuel z,
    ZXSpectrum.frameLoop fuel fuel
      (tstates (ZXSpectrum.cpu z) + ZXSpectrum.tstatesPerFrame) z
    = Ok (ZXSpectrum.mk s u tp) ->
    ZXSpectrum.executeFrame fuel z = Ok (ZXSpectrum.mk s u tp).
Proof.
  assert (Hi : interrupt s = s).
  { unfold interrupt. destruct H as [-> | ->]; [reflexivity|].
    now rewrite orb_true_r. }
  split; [exact Hi|].
  intros fuel z Hloop. unfold ZXSpectrum.executeFrame.
  rewrite Hloop. simpl. now rewrite Hi.
Qed.

Lemma interrupt_masked_witness :
  interrupt (Sample.cpu0 Sample.memory0) = Sample.cpu0 Sample.memory0.
Proof.
  apply (interrupt_masked (Sample.cpu0 Sample.memory0) ULA.init
           (Tape.loaded [])).
  left. reflexivity.
Defined.

End Interrupts.

(** ** PUSH and POP *)

Section Stack.
Import Z80CPU.

(** What was pushed is popped, when the CPU has its memory and both
    stack bytes are stored in RAM. *)
Lemma pop_push (s : t) (m : Memory.t) (v : Z) :
  memory s = Some m -> Memory.wf m ->
  word (sp s) -> word v ->
  0x4000 <= Z.land (sp s - 1) 0xffff ->
  0x4000 <= Z.land (sp s - 2) 0xffff ->
  fst (pop (push s v)) = v /\ sp (snd (pop (push s v))) = sp s.
Proof.
  intros Hm Hwf Hsp Hv H1 H2.
  destruct s as [? ? ? ? ? ? ? ? ? ? ? ? ? ? ? ? ? ? sp0 ? ? ? ? ? ? ? ? ? mo].
  cbn in Hm, Hsp, H1, H2. subst mo.
  cbn -[Memory.read Memory.write Z.land Z.shiftr Z.lor Z.shiftl].
  assert (E2 : Z.land (Z.land (sp0 - 1) 0xffff - 1) 0xffff
               = Z.land (sp0 - 2) 0xffff)
    by (rewrite land_ffff_pred; f_equal; lia).
  assert (E1 : Z.land (Z.land (sp0 - 2) 0xffff + 1) 0xffff
               = Z.land (sp0 - 1) 0xffff)
    by (rewrite land_ffff_succ; f_equal; lia).
  assert (E0 : Z.land (Z.land (sp0 - 1) 0xffff + 1) 0xffff = sp0).
  { rewrite land_ffff_succ. replace (sp0 - 1 + 1) with sp0 by lia.
    apply land_ffff_small. exact Hsp. }
  rewrite ?E2, ?land_ffff_idem, ?E1, ?land_ffff_idem, ?E0, ?land_ff_idem.

  set (A1 := Z.land (sp0 - 1) 0xffff) in *.
  set (A2 := Z.land (sp0 - 2) 0xffff) in *.
  assert (R1 : 0 <= A1 < 65536) by apply land_ffff_range.
  assert (R2 : 0 <= A2 < 65536) by apply land_ffff_range.
  assert (Hne : Z.land A2 0xffff <> Z.land A1 0xffff).
  { rewrite !land_ffff_small by assumption.
    rewrite <- E2. rewrite land_ffff_mod.
    destruct (Z.eq_dec A1 0) as [->|Hnz]; [now compute|].
    rewrite Z.mod_small by lia. lia. }
  split; [|reflexivity].
  rewrite read_write_other by exact Hne.
  rewrite read_write_same
    by (rewrite ?land_ffff_small by assumption; assumption).
  rewrite read_write_same
    by (try apply write_wf; rewrite ?land_ffff_small by assumption;
        assumption).
  rewrite !land_ff_idem. apply pair_split_join. exact Hv.
Qed.

(** [push] and [pop] leave the eight main registers alone. *)
Lemma push_regs (s : t) (v : Z) :
  let s' := push s v in
  a s' = a s /\ f s' = f s /\ b s' = b s /\ c s' = c s /\
  d s' = d s /\ e s' = e s /\ h s' = h s /\ l s' = l s.
Proof.
  destruct s as [? ? ? ? ? ? ? ? ? ? ? ? ? ? ? ? ? ? ? ? ? ? ? ? ? ? ? ? [m|]];
    cbn; repeat split; reflexivity.
Qed.

Lemma push_tstates (s : t) (v : Z) : tstates (push s v) = tstates s.
Proof.
  destruct s as [? ? ? ? ? ? ? ? ? ? ? ? ? ? ? ? ? ? ? ? ? ? ? ? ? ? ? ? [m|]];
    reflexivity.
Qed.

Lemma pop_regs (s : t) :
  let s' := snd (pop s) in
  a s' = a s /\ f s' = f s /\ b s' = b s /\ c s' = c s /\
  d s' = d s /\ e s' = e s /\ h s' = h s /\ l s' = l s.
Proof. cbn. repeat split; reflexivity. Qed.

(** C9, as amended.  For rp among BC, DE, HL and AF holding byte values,
    on a CPU wired to its memory with a 16-bit SP whose two stack bytes,
    at SP-1 and SP-2 modulo 2^16, lie in RAM: PUSH rp followed by POP rp
    leaves the pair, both its registers and SP as they were, and costs
    21 T-states. *)
Theorem push_pop_roundtrip (s : t) (m : Memory.t) (rp : Z)
    (Hrp : 0 <= rp <= 3)
    (Hm : memory s = Some m) (Hwf : Memory.wf m)
    (Hsp : word (sp s)) (Hbytes : Base.pair_bytes rp s)
    (H1 : 0x4000 <= Z.land (sp s - 1) 0xffff)
    (H2 : 0x4000 <= Z.land (sp s - 2) 0xffff) :
  let s' := Base.POP rp (Base.PUSH rp s) in
  Base.getRP rp s' = Base.getRP rp s /\
  sp s' = sp s /\
  a s' = a s /\ f s' = f s /\ b s' = b s /\ c s' = c s /\
  d s' = d s /\ e s' = e s /\ h s' = h s /\ l s' = l s /\
  tstates s' = tstates s + 21.
Proof.
  assert (Hv : word (Base.getRP rp s)).
  { unfold Base.getRP, Base.pair_bytes, getAF, getHL, getDE, getBC, word in *.
    destruct (rp =? 3); [|destruct (rp =? 2); [|destruct (rp =? 1)]];
      destruct Hbytes; now apply pair_range. }
  set (s1 := with_tstates (push s (Base.getRP rp s)) (tstates s + 11)).
  assert (Hpush : Base.PUSH rp s = s1).
  { unfold Base.PUSH, s1. fold (Base.getRP rp s).
    now rewrite push_tstates. }
  assert (Hpop : pop s1
                 = (fst (pop (push s (Base.getRP rp s))),
                    with_tstates (snd (pop (push s (Base.getRP rp s))))
                      (tstates s + 11))).
  { unfold s1.
    destruct (push s (Base.getRP rp s))
      as [? ? ? ? ? ? ? ? ? ? ? ? ? ? ? ? ? ? ? ? ? ? ? ? ? ? ? ? [m'|]];
      reflexivity. }
  destruct (pop_push s m (Base.getRP rp s) Hm Hwf Hsp Hv H1 H2)
    as [Hval Hsp'].
  pose proof (push_regs s (Base.getRP rp s)) as Hr1.
  pose proof (pop_regs (push s (Base.getRP rp s))) as Hr2.
  cbv zeta in Hr1, Hr2.
  destruct Hr1 as (Ra1 & Rf1 & Rb1 & Rc1 & Rd1 & Re1 & Rh1 & Rl1).
  destruct Hr2 as (Ra2 & Rf2 & Rb2 & Rc2 & Rd2 & Re2 & Rh2 & Rl2).
  cbv zeta. unfold Base.POP. rewrite Hpush, Hpop, Hval.
  set (s2 := snd (pop (push s (Base.getRP rp s)))) in *.
  unfold Base.getRP, Base.pair_bytes, getAF, getHL, getDE, getBC in *.
  destruct (rp =? 3) eqn:E3; [|destruct (rp =? 2) eqn:E2;
                               [|destruct (rp =? 1) eqn:E1]];
    destruct Hbytes as [Bh Bl]; unfold byte in *;
    cbn -[Z.land Z.shiftr Z.lor Z.shiftl];
    rewrite ?pair_high, ?pair_low by assumption;
    repeat split; try congruence; try lia; try exact Hsp'.
Qed.

Lemma push_pop_roundtrip_witness :
  Base.getRP 0 (Base.POP 0 (Base.PUSH 0 Sample.cpuStackRam))
  = Base.getRP 0 Sample.cpuStackRam /\
  sp (Base.POP 0 (Base.PUSH 0 Sample.cpuStackRam)) = sp Sample.cpuStackRam.
Proof.
  assert (Hwf : Memory.wf Sample.memory0) by (split; vm_compute; reflexivity).
  assert (Hsp : word (sp Sample.cpuStackRam)) by (unfold word; simpl; lia).
  assert (Hb : Base.pair_bytes 0 Sample.cpuStackRam)
    by (unfold Base.pair_bytes, byte; simpl; lia).
  assert (H1 : 0x4000 <= Z.land (sp Sample.cpuStackRam - 1) 0xffff)
    by (apply Z.leb_le; vm_compute; reflexivity).
  assert (H2 : 0x4000 <= Z.land (sp Sample.cpuStackRam - 2) 0xffff)
    by (apply Z.leb_le; vm_compute; reflexivity).
  destruct (push_pop_roundtrip Sample.cpuStackRam Sample.memory0 0
              ltac:(lia) eq_refl Hwf Hsp Hb H1 H2) as (A & B & _).
  split; [exact A|exact B].
Defined.

(** C9, counterexample.  With SP = 0x2000 both stack bytes fall in ROM:
    the stores of PUSH BC are ignored and POP BC loads the ROM bytes. *)
Lemma push_pop_rom_counterexample :
  ~ (Base.getRP 0 (Base.POP 0 (Base.PUSH 0 Sample.cpuStackRom))
     = Base.getRP 0 Sample.cpuStackRom /\
     sp (Base.POP 0 (Base.PUSH 0 Sample.cpuStackRom))
     = sp Sample.cpuStackRom).
Proof. intros [H _]. vm_compute in H. discriminate H. Qed.
End Stack.

(** ** Block transfer: LDI and LDIR *)

Section BlockTransfer.
Import Z80CPU.

(** Testing one bit of F. *)
Lemma flag_bit (x k : Z) :
  0 <= k -> negb (Z.land x (2 ^ k) =? 0) = Z.testbit x k.
Proof.
  intros Hk.
  assert (E : Z.land x (2 ^ k) = if Z.testbit x k then 2 ^ k else 0).
  { apply Z.bits_inj'. intros n Hn.
    rewrite Z.land_spec, Z.pow2_bits_eqb by assumption.
    destruct (Z.eqb_spec k n) as [->|Hne].
    - destruct (Z.testbit x n); simpl.
      + now rewrite Z.pow2_bits_true.
      + now rewrite Z.bits_0.
    - rewrite andb_false_r. destruct (Z.testbit x k).
      + now rewrite Z.pow2_bits_false.
      + now rewrite Z.bits_0. }
  rewrite E. destruct (Z.testbit x k); [|reflexivity].
  assert (0 < 2 ^ k) by (apply Z.pow_pos_nonneg; lia).
  destruct (Z.eqb_spec (2 ^ k) 0); [lia|reflexivity].
Qed.

Lemma set_bit (x k j : Z) :
  0 <= k -> 0 <= j ->
  Z.testbit (Z.lor x (2 ^ k)) j = Z.testbit x j || (k =? j).
Proof. intros Hk Hj. now rewrite Z.lor_spec, Z.pow2_bits_eqb. Qed.

Lemma clear_bit (x k j : Z) :
  0 <= k -> 0 <= j ->
  Z.testbit (Z.land x (Z.lnot (2 ^ k))) j = Z.testbit x j && negb (k =? j).
Proof.
  intros Hk Hj. now rewrite Z.land_spec, Z.lnot_spec, Z.pow2_bits_eqb.
Qed.

(** [setFlag] assigns F and nothing else. *)
Lemma setFlag_eq (s : t) (flag : Z) (value : bool) :
  setFlag s flag value
  = with_f s (if value then Z.lor (f s) flag
              else Z.land (f s) (Z.lnot flag)).
Proof. now destruct value. Qed.

(** Reading a flag that [setFlag] has just written, or another one. *)
Lemma getFlag_setFlag (s : t) (k j : Z) (value : bool) :
  0 <= k -> 0 <= j ->
  getFlag (setFlag s (2 ^ k) value) (2 ^ j)
  = if k =? j then value else getFlag s (2 ^ j).
Proof.
  intros Hk Hj. unfold getFlag. rewrite setFlag_eq. cbn [f with_f].
  rewrite !flag_bit by assumption.
  destruct value.
  - rewrite set_bit by assumption.
    destruct (k =? j); [apply orb_true_r|apply orb_false_r].
  - rewrite clear_bit by assumption.
    destruct (k =? j); [apply andb_false_r|apply andb_true_r].
Qed.

Lemma writeMem_eq (s : t) (addr val : Z) :
  writeMem s addr val
  = with_memory s
      (option_map
         (fun m => Memory.write m (Z.land addr 0xffff) (Z.land val 0xff))
         (memory s)).
Proof.
  unfold writeMem.
  destruct s as [? ? ? ? ? ? ? ? ? ? ? ? ? ? ? ? ? ? ? ? ? ? ? ? ? ? ? ? [m|]];
    reflexivity.
Qed.

(** The registers after the transfer part shared by LDI and LDIR. *)
Lemma transfer_core (s : t) :
  let val := readMem s (getHL s) in
  let s1 := writeMem s (getDE s) val in
  let s2 := setHL s1 (Z.land (getHL s1 + 1) 0xffff) in
  let s3 := setDE s2 (Z.land (getDE s2 + 1) 0xffff) in
  let s4 := setBC s3 (Z.land (getBC s3 - 1) 0xffff) in
  memory s4 = memory (writeMem s (getDE s) val) /\
  getHL s4 = Z.land (getHL s + 1) 0xffff /\
  getDE s4 = Z.land (getDE s + 1) 0xffff /\
  getBC s4 = Z.land (getBC s - 1) 0xffff /\
  pc s4 = pc s /\ tstates s4 = tstates s /\ a s4 = a s /\
  sp s4 = sp s.
Proof.
  cbv zeta. rewrite !writeMem_eq.
  unfold setHL, setDE, setBC, getHL, getDE, getBC.
  cbn -[Z.land Z.shiftr Z.lor Z.shiftl option_map].
  rewrite !pair_split_join by apply land_ffff_range.
  repeat split; reflexivity.
Qed.

Lemma setFlag_frame (s : t) (flag : Z) (value : bool) :
  getBC (setFlag s flag value) = getBC s /\
  getDE (setFlag s flag value) = getDE s /\
  getHL (setFlag s flag value) = getHL s /\
  memory (setFlag s flag value) = memory s /\
  pc (setFlag s flag value) = pc s /\
  tstates (setFlag s flag value) = tstates s /\
  a (setFlag s flag value) = a s.
Proof. rewrite setFlag_eq. repeat split; reflexivity. Qed.

Lemma setFlag_getBC (s : t) (flag : Z) (value : bool) :
  getBC (setFlag s flag value) = getBC s.
Proof. apply setFlag_frame. Qed.

Lemma setFlag_getDE (s : t) (flag : Z) (value : bool) :
  getDE (setFlag s flag value) = getDE s.
Proof. apply setFlag_frame. Qed.

Lemma setFlag_getHL (s : t) (flag : Z) (value : bool) :
  getHL (setFlag s flag value) = getHL s.
Proof. apply setFlag_frame. Qed.

Lemma setFlag_memory (s : t) (flag : Z) (value : bool) :
  memory (setFlag s flag value) = memory s.
Proof. apply setFlag_frame. Qed.

Lemma setFlag_pc (s : t) (flag : Z) (value : bool) :
  pc (setFlag s flag value) = pc s.
Proof. apply setFlag_frame. Qed.

Lemma setFlag_tstates (s : t) (flag : Z) (value : bool) :
  tstates (setFlag s flag value) = tstates s.
Proof. apply setFlag_frame. Qed.

Lemma getFlag_with_tstates (s : t) (n flag : Z) :
  getFlag (with_tstates s n) flag = getFlag s flag.
Proof. reflexivity. Qed.

Lemma getFlag_with_pc (s : t) (n flag : Z) :
  getFlag (with_pc s n) flag = getFlag s flag.
Proof. reflexivity. Qed.

Lemma with_tstates_getBC (s : t) (n : Z) : getBC (with_tstates s n) = getBC s.
Proof. reflexivity. Qed.
Lemma with_tstates_getDE (s : t) (n : Z) : getDE (with_tstates s n) = getDE s.
Proof. reflexivity. Qed.
Lemma with_tstates_getHL (s : t) (n : Z) : getHL (with_tstates s n) = getHL s.
Proof. reflexivity. Qed.
Lemma with_pc_getBC (s : t) (n : Z) : getBC (with_pc s n) = getBC s.
Proof. reflexivity. Qed.
Lemma with_pc_getDE (s : t) (n : Z) : getDE (with_pc s n) = getDE s.
Proof. reflexivity. Qed.
Lemma with_pc_getHL (s : t) (n : Z) : getHL (with_pc s n) = getHL s.
Proof. reflexivity. Qed.

Ltac flag_powers :=
  change FLAG_C with (2 ^ 0); change FLAG_N with (2 ^ 1);
  change FLAG_PV with (2 ^ 2); change FLAG_X with (2 ^ 3);
  change FLAG_H with (2 ^ 4); change FLAG_Y with (2 ^ 5);
  change FLAG_Z with (2 ^ 6); change FLAG_S with (2 ^ 7).

Ltac through_flags :=
  repeat first
    [ rewrite with_tstates_getBC | rewrite with_tstates_getDE
    | rewrite with_tstates_getHL | rewrite with_pc_getBC
    | rewrite with_pc_getDE | rewrite with_pc_getHL
    | rewrite getFlag_with_tstates | rewrite getFlag_with_pc
    | rewrite setFlag_getBC | rewrite setFlag_getDE | rewrite setFlag_getHL
    | rewrite setFlag_memory | rewrite setFlag_pc | rewrite setFlag_tstates
    | progress cbn [memory pc tstates with_tstates with_pc] ].

(** The registers and flags of one step of LDI and of LDIR, with the
    store they issue. *)
Lemma transfer_registers (s : t) :
  let val := readMem s (getHL s) in
  (memory (Extended.LDI s) = memory (writeMem s (getDE s) val) /\
   getHL (Extended.LDI s) = Z.land (getHL s + 1) 0xffff /\
   getDE (Extended.LDI s) = Z.land (getDE s + 1) 0xffff /\
   getBC (Extended.LDI s) = Z.land (getBC s - 1) 0xffff /\
   getFlag (Extended.LDI s) FLAG_H = false /\
   getFlag (Extended.LDI s) FLAG_N = false /\
   getFlag (Extended.LDI s) FLAG_PV = negb (getBC (Extended.LDI s) =? 0) /\
   pc (Extended.LDI s) = pc s /\
   tstates (Extended.LDI s) = tstates s + 16) /\
  (memory (Extended.LDIR s) = memory (writeMem s (getDE s) val) /\
   getHL (Extended.LDIR s) = Z.land (getHL s + 1) 0xffff /\
   getDE (Extended.LDIR s) = Z.land (getDE s + 1) 0xffff /\
   getBC (Extended.LDIR s) = Z.land (getBC s - 1) 0xffff /\
   getFlag (Extended.LDIR s) FLAG_H = false /\
   getFlag (Extended.LDIR s) FLAG_N = false /\
   getFlag (Extended.LDIR s) FLAG_PV = false /\
   pc (Extended.LDIR s)
   = (if getBC (Extended.LDIR s) =? 0 then pc s
      else Z.land (pc s - 2) 0xffff) /\
   tstates (Extended.LDIR s)
   = (if getBC (Extended.LDIR s) =? 0 then tstates s + 16
      else tstates s + 21)).
Proof.
  pose proof (transfer_core s) as Hc.
  unfold Extended.LDI, Extended.LDIR. cbv zeta in *.
  set (val := readMem s (getHL s)) in *.
  set (core := setBC _ _) in *. clearbody core.
  destruct Hc as (Hmem & Hhl & Hde & Hbc & Hpc & Hts & _ & _).
  split.
  - through_flags. flag_powers.
    rewrite !getFlag_setFlag by lia. cbn [Z.eqb Pos.eqb].
    through_flags.
    repeat split; try assumption; try reflexivity. now rewrite Hts.
  - destruct (getBC core =? 0) eqn:Ez; cbn [negb];
      through_flags; flag_powers;
      rewrite !getFlag_setFlag by lia; cbn [Z.eqb Pos.eqb];
      through_flags; rewrite ?Ez;
      repeat split; try assumption; try reflexivity;
      try (now rewrite Hts); try (now rewrite Hpc).
Qed.

(** What memory holds after the store of a step, for a state whose
    memory is that of [writeMem s DE (HL)]. *)
Lemma transfer_observed (s s' : t) (m : Memory.t) :
  memory s' = memory (writeMem s (getDE s) (readMem s (getHL s))) ->
  memory s = Some m -> Memory.wf m ->
  (0x4000 <= Z.land (getDE s) 0xffff ->
   readMem s' (getDE s) = Z.land (readMem s (getHL s)) 0xff) /\
  (forall addr,
     Z.land addr 0xffff <> Z.land (getDE s) 0xffff ->
     readMem s' addr = readMem s addr) /\
  (Z.land (getDE s) 0xffff < 0x4000 ->
   forall addr, readMem s' addr = readMem s addr).
Proof.
  intros Hs' Hm Hwf.
  assert (M : memory s'
              = Some (Memory.write m (Z.land (getDE s) 0xffff)
                        (Z.land (readMem s (getHL s)) 0xff))).
  { rewrite Hs', writeMem_eq. cbn [memory with_memory]. now rewrite Hm. }
  assert (R : forall addr,
             readMem s' addr
             = Memory.read
                 (Memory.write m (Z.land (getDE s) 0xffff)
                    (Z.land (readMem s (getHL s)) 0xff))
                 (Z.land addr 0xffff))
    by (intros addr; unfold readMem at 1; now rewrite M).
  assert (R0 : forall addr,
             readMem s addr = Memory.read m (Z.land addr 0xffff))
    by (intros addr; unfold readMem; now rewrite Hm).
  split; [|split].
  - intros Hram. rewrite R.
    rewrite read_write_same;
      [apply land_ff_idem|assumption|now rewrite land_ffff_idem].
  - intros addr Hne. rewrite R, (R0 addr).
    apply read_write_other. rewrite !land_ffff_idem. congruence.
  - intros Hrom addr. rewrite R, (R0 addr). unfold Memory.write.
    rewrite land_ffff_idem.
    destruct (Z.ltb_spec (Z.land (getDE s) 0xffff) 0x4000); [reflexivity|lia].
Qed.

(** C5, as amended.  Every step of LDI and of LDIR transfers the byte at
    (HL) to (DE): the store goes through the bus, so that with DE in RAM
    the cell at DE afterwards reads that byte and every other cell reads
    as before, while with DE below 0x4000 the store is a ROM write and
    memory reads as before everywhere.  The step increments HL and DE
    and decrements BC modulo 2^16, and leaves H = 0 and N = 0.  LDI
    leaves PV equal to (BC <> 0) after the decrement.  LDIR leaves
    PV = 0 on every step, repeat steps included; it moves PC back by two
    and takes 21 T-states while BC <> 0, and takes 16 on the last
    step. *)
Theorem block_transfer_step (s : t) :
  let val := readMem s (getHL s) in
  (memory (Extended.LDI s) = memory (writeMem s (getDE s) val) /\
   getHL (Extended.LDI s) = Z.land (getHL s + 1) 0xffff /\
   getDE (Extended.LDI s) = Z.land (getDE s + 1) 0xffff /\
   getBC (Extended.LDI s) = Z.land (getBC s - 1) 0xffff /\
   getFlag (Extended.LDI s) FLAG_H = false /\
   getFlag (Extended.LDI s) FLAG_N = false /\
   getFlag (Extended.LDI s) FLAG_PV = negb (getBC (Extended.LDI s) =? 0) /\
   pc (Extended.LDI s) = pc s /\
   tstates (Extended.LDI s) = tstates s + 16) /\
  (memory (Extended.LDIR s) = memory (writeMem s (getDE s) val) /\
   getHL (Extended.LDIR s) = Z.land (getHL s + 1) 0xffff /\
   getDE (Extended.LDIR s) = Z.land (getDE s + 1) 0xffff /\
   getBC (Extended.LDIR s) = Z.land (getBC s - 1) 0xffff /\
   getFlag (Extended.LDIR s) FLAG_H = false /\
   getFlag (Extended.LDIR s) FLAG_N = false /\
   getFlag (Extended.LDIR s) FLAG_PV = false /\
   pc (Extended.LDIR s)
   = (if getBC (Extended.LDIR s) =? 0 then pc s
      else Z.land (pc s - 2) 0xffff) /\
   tstates (Extended.LDIR s)
   = (if getBC (Extended.LDIR s) =? 0 then tstates s + 16
      else tstates s + 21)) /\
  (forall m,
     memory s = Some m -> Memory.wf m ->
     (0x4000 <= Z.land (getDE s) 0xffff ->
      readMem (Extended.LDI s) (getDE s)
      = Z.land (readMem s (getHL s)) 0xff /\
      readMem (Extended.LDIR s) (getDE s)
      = Z.land (readMem s (getHL s)) 0xff /\
      (byte (readMem s (getHL s)) ->
       readMem (Extended.LDI s) (getDE s) = readMem s (getHL s) /\
       readMem (Extended.LDIR s) (getDE s) = readMem s (getHL s))) /\
     (forall addr,
        Z.land addr 0xffff <> Z.land (getDE s) 0xffff ->
        readMem (Extended.LDI s) addr = readMem s addr /\
        readMem (Extended.LDIR s) addr = readMem s addr) /\
     (Z.land (getDE s) 0xffff < 0x4000 ->
      forall addr,
        readMem (Extended.LDI s) addr = readMem s addr /\
        readMem (Extended.LDIR s) addr = readMem s addr)).
Proof.
  pose proof (transfer_registers s) as Core. cbv zeta in Core |- *.
  destruct Core as [Ldi Ldir].
  split; [exact Ldi|]. split; [exact Ldir|].
  intros m Hm Hwf.
  destruct (transfer_observed s (Extended.LDI s) m (proj1 Ldi) Hm Hwf)
    as (I1 & I2 & I3).
  destruct (transfer_observed s (Extended.LDIR s) m (proj1 Ldir) Hm Hwf)
    as (R1 & R2 & R3).
  split; [|split].
  - intros Hram. split; [now apply I1|]. split; [now apply R1|].
    intros Hb. rewrite (I1 Hram), (R1 Hram).
    split; apply land_ff_small; exact Hb.
  - intros addr Hne. split; [now apply I2|now apply R2].
  - intros Hrom addr. split; [now apply I3|now apply R3].
Qed.

Lemma block_transfer_step_witness :
  readMem (Extended.LDI Run.cpuCopyRam) 0x9000 = 0x55 /\
  readMem (Extended.LDIR Run.cpuCopyRam) 0x9000 = 0x55 /\
  readMem (Extended.LDIR Run.cpuCopyRam) 0x8000 = 0x55.
Proof.
  destruct (block_transfer_step Run.cpuCopyRam) as (_ & _ & H).
  assert (Hwf : Memory.wf Run.memoryByte) by (split; vm_compute; reflexivity).
  destruct (H Run.memoryByte eq_refl Hwf) as (Hram & Hother & _).
  assert (Ram : 0x4000 <= Z.land (getDE Run.cpuCopyRam) 0xffff)
    by (apply Z.leb_le; vm_compute; reflexivity).
  assert (Hb : byte (readMem Run.cpuCopyRam (getHL Run.cpuCopyRam)))
    by (split; [apply Z.leb_le|apply Z.ltb_lt]; vm_compute; reflexivity).
  destruct (Hram Ram) as (_ & _ & Hbyte).
  destruct (Hbyte Hb) as [Hi Hr].
  assert (Hne : Z.land 0x8000 0xffff
                <> Z.land (getDE Run.cpuCopyRam) 0xffff)
    by (intros E; vm_compute in E; discriminate E).
  destruct (Hother 0x8000 Hne) as [_ Ho].
  assert (V : readMem Run.cpuCopyRam 0x8000 = 0x55)
    by (vm_compute; reflexivity).
  split; [exact (eq_trans Hi V)|]. split; [exact (eq_trans Hr V)|].
  exact (eq_trans Ho V).
Defined.

(** C5, counterexample.  A repeat step of LDIR with DE in ROM: BC goes
    from 2 to 1 and PV is left clear, and the byte 0x55 at (HL) does not
    reach the cell at DE, which reads 0 as before. *)
Lemma ldir_step_counterexample :
  getBC (Extended.LDIR Run.cpuCopyRom) = 1 /\
  getFlag (Extended.LDIR Run.cpuCopyRom) FLAG_PV
  <> negb (getBC (Extended.LDIR Run.cpuCopyRom) =? 0) /\
  readMem Run.cpuCopyRom (getHL Run.cpuCopyRom) = 0x55 /\
  readMem (Extended.LDIR Run.cpuCopyRom) (getDE Run.cpuCopyRom)
  <> readMem Run.cpuCopyRom (getHL Run.cpuCopyRom).
Proof.
  repeat split; vm_compute; try reflexivity; discriminate.
Qed.
End BlockTransfer.

(** ** ULA: scanline counters and the interrupt request *)

Section Scanlines.
Import ULA.

(** The loop of [addCycles] brings the beam position back into the frame
    and raises the request exactly when it passes the end of the frame. *)
Lemma addCycles_loop_spec (u : t) :
  0 <= currentScanline u < TOTAL_SCANLINES -> 0 <= scanlineTStates u ->
  let u' := addCycles_loop u in
  0 <= currentScanline u' < TOTAL_SCANLINES /\
  0 <= scanlineTStates u' < TSTATES_PER_SCANLINE /\
  frameTState u' = frameTState u mod 69888 /\
  interruptRequested u'
  = interruptRequested u || (69888 <=? frameTState u) /\
  borderColor u' = borderColor u /\ speakerState u' = speakerState u /\
  earBit u' = earBit u /\ floatingBusValue u' = floatingBusValue u.
Proof.
  cbv zeta. funelim (addCycles_loop u); intros Hsl Hts;
    clear Heq; try clear Heqcall.
  - (* one more scanline *)
    assert (Hsl' : 0 <= currentScanline (addCycles_body u) < TOTAL_SCANLINES).
    { unfold addCycles_body, TOTAL_SCANLINES, TSTATES_PER_SCANLINE in *.
      destruct (currentScanline u + 1 >=? 312) eqn:E; simpl; [lia|].
      rewrite Z.geb_leb in E. apply Z.leb_gt in E. lia. }
    assert (Hts' : 0 <= scanlineTStates (addCycles_body u)).
    { unfold addCycles_body, TOTAL_SCANLINES, TSTATES_PER_SCANLINE in *.
      destruct (currentScanline u + 1 >=? 312); simpl; lia. }
    specialize (H Hsl' Hts').
    destruct H as (A & B & C & D & E1 & E2 & E3 & E4).
    split; [exact A|]. split; [exact B|].
    rewrite C, D, E1, E2, E3, E4. clear A B C D E1 E2 E3 E4 Hsl' Hts'.
    unfold frameTState, addCycles_body, TOTAL_SCANLINES,
      TSTATES_PER_SCANLINE in *.
    destruct (currentScanline u + 1 >=? 312) eqn:E; simpl.
    + rewrite Z.geb_leb in E. apply Z.leb_le in E.
      assert (Hs : currentScanline u = 311) by lia.
      rewrite Hs.
      repeat split.
      * replace (311 * 224 + scanlineTStates u)
          with (scanlineTStates u - 224 + 1 * 69888) by lia.
        now rewrite Z.mod_add by lia.
      * replace (69888 <=? 311 * 224 + scanlineTStates u) with true
          by (symmetry; apply Z.leb_le; lia).
        now rewrite orb_true_r.
    + rewrite Z.geb_leb in E. apply Z.leb_gt in E.
      repeat split.
      * f_equal. lia.
      * do 2 f_equal. lia.
  - (* the beam is inside a scanline *)
    unfold frameTState, TOTAL_SCANLINES, TSTATES_PER_SCANLINE in *.
    repeat split; try lia.
    + rewrite Z.mod_small; lia.
    + replace (69888 <=? currentScanline u * 224 + scanlineTStates u)
        with false by (symmetry; apply Z.leb_gt; lia).
      now rewrite orb_false_r.
Qed.

Lemma reachable_bounds (u : t) :
  reachable u ->
  0 <= currentScanline u < TOTAL_SCANLINES /\
  0 <= scanlineTStates u < TSTATES_PER_SCANLINE.
Proof.
  induction 1 as [|u cycles Hr IH Hc].
  - unfold TOTAL_SCANLINES, TSTATES_PER_SCANLINE. simpl. lia.
  - unfold addCycles.
    match goal with
    | |- context [addCycles_loop ?x] =>
        pose proof (addCycles_loop_spec x) as H
    end.
    cbv zeta in H. cbn [currentScanline scanlineTStates] in H.
    assert (H1 : 0 <= currentScanline u < TOTAL_SCANLINES) by apply IH.
    assert (H2 : 0 <= scanlineTStates u + cycles) by lia.
    destruct (H H1 H2) as (A & B & _). split; [exact A|exact B].
Qed.

(** The exact effect of one [addCycles] on a state whose counters are in
    range. *)
Lemma addCycles_spec (u : t) (cycles : Z) :
  0 <= currentScanline u < TOTAL_SCANLINES ->
  0 <= scanlineTStates u < TSTATES_PER_SCANLINE ->
  0 <= cycles ->
  frameTState (addCycles u cycles) = (frameTState u + cycles) mod 69888 /\
  interruptRequested (addCycles u cycles)
  = interruptRequested u || (69888 <=? frameTState u + cycles).
Proof.
  intros H1 H2 Hc. unfold addCycles.
  match goal with
  | |- context [addCycles_loop ?x] =>
      pose proof (addCycles_loop_spec x) as H
  end.
  cbv zeta in H.
  cbn [currentScanline scanlineTStates interruptRequested] in H.
  assert (H3 : 0 <= scanlineTStates u + cycles) by lia.
  destruct (H H1 H3) as (_ & _ & C & D & _).
  rewrite C, D. unfold frameTState. cbn [currentScanline scanlineTStates].
  split; [f_equal; lia|do 2 f_equal; lia].
Qed.

End Scanlines.

(** ** The interrupt request and the frame driver *)

Section FrameRequest.
Import ULA.

(** The frame loop only ever hands the tape level to the ULA: the beam
    position and the interrupt request come out as they went in. *)
Lemma frameLoop_ula (n : nat) :
  forall (fuel : nat) (target : Z) (z z' : ZXSpectrum.t),
    ZXSpectrum.frameLoop n fuel target z = Ok z' ->
    interruptRequested (ZXSpectrum.ula z')
    = interruptRequested (ZXSpectrum.ula z) /\
    currentScanline (ZXSpectrum.ula z') = currentScanline (ZXSpectrum.ula z) /\
    scanlineTStates (ZXSpectrum.ula z') = scanlineTStates (ZXSpectrum.ula z).
Proof.
  induction n as [|n IH]; intros fuel target z z' Hrun;
    cbn [ZXSpectrum.frameLoop] in Hrun;
    destruct (Z80CPU.tstates (ZXSpectrum.cpu z) <? target);
    try discriminate Hrun;
    try (injection Hrun as <-; repeat split; reflexivity).
  destruct (InstructionDecoder.executeInstruction (ZXSpectrum.cpu z))
    as [[k cpu']|]; [|discriminate Hrun].
  destruct (Tape.update fuel (Z80CPU.tstates cpu') (Z80CPU.tstates cpu')
              (ZXSpectrum.tape z)) as [tape'| | |];
    cbn [bind] in Hrun; try discriminate Hrun.
  apply IH in Hrun. exact Hrun.
Qed.

Lemma executeFrame_ula (fuel : nat) (z z' : ZXSpectrum.t) :
  ZXSpectrum.executeFrame fuel z = Ok z' ->
  interruptRequested (ZXSpectrum.ula z')
  = interruptRequested (ZXSpectrum.ula z).
Proof.
  unfold ZXSpectrum.executeFrame.
  destruct (ZXSpectrum.frameLoop fuel fuel _ z) as [z1| | |] eqn:Hloop;
    cbn [bind]; try discriminate.
  intros H. injection H as <-. cbn [ZXSpectrum.ula].
  now apply frameLoop_ula in Hloop.
Qed.

(** C6, as amended.  In every state reached from the initial one by
    [addCycles] with non-negative arguments, after one more such call the
    scanline is below 312 and the scanline T-state below 224; the beam
    position advances by [cycles] modulo the 69888 T-states of a frame,
    and the interrupt request is set exactly when that position runs past
    the end of the frame, staying set if it already was.  The request is
    cleared by [checkInterrupt]; a frame run by the frame driver, with the
    interrupt it asserts at its end, leaves the request as it was. *)
Theorem ula_scanline_invariant (u : t) (cycles : Z)
    (Hr : reachable u) (Hc : 0 <= cycles) :
  let u' := addCycles u cycles in
  currentScanline u' < 312 /\ scanlineTStates u' < 224 /\
  0 <= currentScanline u' /\ 0 <= scanlineTStates u' /\
  frameTState u' = (frameTState u + cycles) mod 69888 /\
  interruptRequested u'
  = interruptRequested u || (69888 <=? frameTState u + cycles) /\
  interruptRequested (snd (checkInterrupt u')) = false /\
  forall fuel z z',
    ZXSpectrum.ula z = u' ->
    ZXSpectrum.executeFrame fuel z = Ok z' ->
    interruptRequested (ZXSpectrum.ula z') = interruptRequested u'.
Proof.
  cbv zeta.
  destruct (reachable_bounds _ (reach_tick u cycles Hr Hc)) as [A B].
  destruct (reachable_bounds u Hr) as [A0 B0].
  destruct (addCycles_spec u cycles A0 B0 Hc) as [C D].
  unfold TOTAL_SCANLINES, TSTATES_PER_SCANLINE in *.
  repeat split; try lia; try assumption.
  intros fuel z z' Hz Hrun. rewrite <- Hz.
  now apply executeFrame_ula with fuel.
Qed.

Lemma ula_scanline_invariant_witness :
  currentScanline (addCycles Sample.ulaWrapped 1000) < 312 /\
  scanlineTStates (addCycles Sample.ulaWrapped 1000) < 224.
Proof.
  assert (Hr : reachable Sample.ulaWrapped)
    by (apply reach_tick; [apply reach_init|lia]).
  destruct (ula_scanline_invariant Sample.ulaWrapped 1000 Hr ltac:(lia))
    as (A & B & _).
  split; [exact A|exact B].
Defined.

(** C6, counterexample.  The ULA has run through one whole frame and
    requests an interrupt; the CPU is halted with interrupts enabled.  The
    frame driver runs a frame and asserts the interrupt: the CPU accepts
    it (IFF1 cleared, PC at 0x0038, no longer halted) and the request is
    still set. *)
Lemma request_survives_acceptance :
  match ZXSpectrum.executeFrame (Z.to_nat 20000) Sample.machineHalted with
  | Ok z' =>
      reachable (ZXSpectrum.ula Sample.machineHalted) /\
      interruptRequested (ZXSpectrum.ula Sample.machineHalted) = true /\
      Z80CPU.iff1 (ZXSpectrum.cpu Sample.machineHalted) = true /\
      Z80CPU.iff1 (ZXSpectrum.cpu z') = false /\
      Z80CPU.halted (ZXSpectrum.cpu z') = false /\
      Z80CPU.pc (ZXSpectrum.cpu z') = 0x0038 /\
      interruptRequested (ZXSpectrum.ula z') <> false
  | _ => False
  end.
Proof.
  assert (Hr : reachable (ZXSpectrum.ula Sample.machineHalted))
    by (apply reach_tick; [apply reach_init|lia]).
  revert Hr. generalize (reachable (ZXSpectrum.ula Sample.machineHalted)).
  intros P HP. vm_compute. repeat split; try exact HP. discriminate.
Qed.
End FrameRequest.

(** ** Tape player *)

Section TapePilot.
Import Tape.

Variable fuel : nat.
Variable t0 : Z.
Variable p : pulses.

Hypothesis Hpilot : pilotPulse p = PILOT_PULSE.
Hypothesis Hcount : pilotPulses p = PILOT_PULSES_HEADER.







End TapePilot.




(** ** EI and the interrupt enable *)

Section EnableInterrupts.
Import Z80CPU.

(** Whatever the CPU state, the call of [executeInstruction] that
    executes EI returns with IFF1 and IFF2 set and no enable pending. *)
Lemma ei_step (s : t) :
  halted s = false -> readMem s (pc s) = 0xfb ->
  exists s1,
    InstructionDecoder.executeInstruction s = Some (4, s1) /\
    iff1 s1 = true /\ iff2 s1 = true /\
    enableInterruptsPending s1 = false /\
    pc s1 = Z.land (pc s + 1) 0xffff /\
    interrupt s1 <> s1.
Proof.
  intros Hh Hop.
  unfold InstructionDecoder.executeInstruction,
    InstructionDecoder.fetchByte.
  rewrite Hh, Hop. cbn.
  eexists. split; [f_equal; f_equal; lia|].
  repeat split.
  intros E.
  match type of E with
  | interrupt ?x = _ =>
      pose proof (interrupt_clears_iff1 x eq_refl eq_refl) as Hc
  end.
  rewrite E in Hc. discriminate Hc.
Qed.

(** C1, on the program EI; RETI at 0x8000 with interrupts disabled.
    After the one call that executes EI, which takes 4 T-states, PC is at
    RETI, IFF1 and IFF2 are set and no enable is pending; an interrupt
    asserted now is accepted: PC goes to 0x0038 with 0x8001 pushed, before
    RETI has run. *)
Theorem ei_enables_without_delay :
  match InstructionDecoder.executeInstruction Sample.cpuEI with
  | Some (n, s1) =>
      n = 4 /\ pc s1 = 0x8001 /\ readMem s1 (pc s1) = 0xed /\
      iff1 Sample.cpuEI = false /\
      iff1 s1 = true /\ iff2 s1 = true /\
      enableInterruptsPending s1 = false /\
      pc (interrupt s1) = 0x0038 /\
      readMemWord (interrupt s1) (sp (interrupt s1)) = 0x8001 /\
      tstates (interrupt s1) = tstates s1 + 13
  | None => False
  end.
Proof. vm_compute. repeat split. Qed.
End EnableInterrupts.

(** ** Contention *)

Section Contention.
Import Z80CPU.

(** The delay table: inside the contended window the delay is the
    pattern entry for the low three bits of the scanline T-state, and it
    is 0 everywhere else. *)
Lemma contention_delay_table (m : Memory.t) (u : ULA.t) (addr : Z) :
  Memory.ula m = Some u ->
  0 <= ULA.scanlineTStates u ->
  Memory.getContentionDelay m addr
  = if (0x4000 <=? addr) && (addr <? 0x8000)
       && (64 <=? ULA.currentScanline u) && (ULA.currentScanline u <? 256)
       && (ULA.scanlineTStates u <? 128)
    then aget Memory.contentionPattern (Z.land (ULA.scanlineTStates u) 7)
    else 0.
Proof.
  intros Hu Hts. unfold Memory.getContentionDelay, ULA.getCurrentScanline.
  rewrite Hu.
  rewrite !Z.geb_leb.
  destruct (addr <? 0x4000) eqn:E1.
  { apply Z.ltb_lt in E1.
    replace (0x4000 <=? addr) with false
      by (symmetry; apply Z.leb_gt; lia). reflexivity. }
  apply Z.ltb_ge in E1.
  replace (0x4000 <=? addr) with true by (symmetry; apply Z.leb_le; lia).
  destruct (0x8000 <=? addr) eqn:E2.
  { apply Z.leb_le in E2.
    replace (addr <? 0x8000) with false
      by (symmetry; apply Z.ltb_ge; lia). reflexivity. }
  apply Z.leb_gt in E2.
  replace (addr <? 0x8000) with true by (symmetry; apply Z.ltb_lt; lia).
  cbn [orb andb].
  destruct (ULA.currentScanline u <? 64) eqn:E3.
  { apply Z.ltb_lt in E3.
    replace (64 <=? ULA.currentScanline u) with false
      by (symmetry; apply Z.leb_gt; lia). reflexivity. }
  apply Z.ltb_ge in E3.
  replace (64 <=? ULA.currentScanline u) with true
    by (symmetry; apply Z.leb_le; lia).
  destruct (256 <=? ULA.currentScanline u) eqn:E4.
  { apply Z.leb_le in E4.
    replace (ULA.currentScanline u <? 256) with false
      by (symmetry; apply Z.ltb_ge; lia). reflexivity. }
  apply Z.leb_gt in E4.
  replace (ULA.currentScanline u <? 256) with true
    by (symmetry; apply Z.ltb_lt; lia).
  cbn [orb andb].
  destruct (ULA.scanlineTStates u <? 128); [|reflexivity].
  rewrite Z.rem_mod_nonneg by lia.
  change 7 with (Z.ones 3). rewrite Z.land_ones by lia. reflexivity.
Qed.

(** No memory access of the CPU changes its T-state counter. *)
Lemma writeMem_tstates (s : t) (addr val : Z) :
  tstates (writeMem s addr val) = tstates s.
Proof.
  destruct s as [? ? ? ? ? ? ? ? ? ? ? ? ? ? ? ? ? ? ? ? ? ? ? ? ? ? ? ? [m|]];
    reflexivity.
Qed.

(** C2, on a CPU whose PC and SP are in contended RAM while the ULA is
    at scanline 64, T-state 0.  The delay computed for address 0x4000 is
    6, and the memory's contention-aware entry points report it; the
    CPU's own accesses charge nothing: a store leaves the counter as it
    was, PUSH BC takes its base 11 T-states and the NOP fetched at 0x4000
    takes its base 4. *)
Theorem contention_not_charged :
  Memory.getContentionDelay Sample.memContended 0x4000 = 6 /\
  snd (Memory.readWithContention Sample.memContended 0x4000) = 6 /\
  snd (Memory.writeWithContention Sample.memContended 0x4000 0xff) = 6 /\
  tstates (writeMem Sample.cpuContended 0x4000 0xff)
  = tstates Sample.cpuContended /\
  tstates (Base.PUSH 0 Sample.cpuContended)
  = tstates Sample.cpuContended + 11 /\
  match InstructionDecoder.executeInstruction Sample.cpuContended with
  | Some (n, s1) =>
      n = 4 /\ tstates s1 = tstates Sample.cpuContended + 4 /\
      pc s1 = 0x4001
  | None => False
  end.
Proof. vm_compute. repeat split. Qed.
End Contention.

(** ** Tape: pure tone and pulse sequence blocks *)

Section TapeTones.
Import Tape.

(** [update] has no branch for a pure tone or a pulse sequence: outside
    the PAUSE state it only records the time of the call. *)
Lemma update_skips_tones (fuel : nat) (cpuCycles cycles : Z) (s : t)
    (blk : block) :
  playing s = true -> paused s = false ->
  currentBlock s = Some blk ->
  (exists len cnt, blk = PureTone len cnt) \/
  (exists ps, blk = PulseSequence ps) ->
  state s <> PAUSE ->
  update fuel cpuCycles cycles s = Ok (with_lastUpdateCycle s cycles).
Proof.
  intros Hpl Hpa Hb Hk Hst. unfold update. rewrite Hpl, Hpa, Hb.
  cbn [negb orb].
  replace (State_eqb (state s) PAUSE) with false
    by (destruct (state s); try reflexivity; contradiction).
  destruct Hk as [(len & cnt & ->)|(ps & ->)]; reflexivity.
Qed.

(** C4, on a tape with one pure tone of 4 pulses of 2168 T-states and on
    a tape with one sequence of pulses 100, 200, 300, both played from
    T-state 0.  Updates at T-states 3000, 6000 and 100000 return EAR = 0
    each time and leave the player in the state [play] left it, with no
    edge counted and the first edge still scheduled.  Called directly at
    T-state 17343, [updateDataBlock] has counted 7 edges of the tone of 4
    pulses and is still inside it. *)
Theorem tone_blocks_not_played :
  bind (play 10 0 Sample.toneTape)
    (earTrace 10 [3000; 6000; 100000]) = Ok [0; 0; 0] /\
  bind (play 10 0 Sample.toneTape) (fun s =>
    bind (drive 10 [3000; 6000; 100000] s) (fun s =>
      Ok (state s, edgeCount s, nextEdgeCycle s)))
  = Ok (PURE_TONE, 0, Num 2168) /\
  bind (play 10 0 Sample.pulseTape)
    (earTrace 10 [3000; 6000; 100000]) = Ok [0; 0; 0] /\
  bind (play 10 0 Sample.pulseTape) (fun s =>
    bind (drive 10 [3000; 6000; 100000] s) (fun s =>
      Ok (state s, pulseIndex s, nextEdgeCycle s)))
  = Ok (PULSE_SEQUENCE, 0, Num 100) /\
  bind (play 10 0 Sample.toneTape) (fun s =>
    bind (updateDataBlock 10 17343 17343 s) (fun s =>
      Ok (state s, edgeCount s, lastEarBit s)))
  = Ok (PURE_TONE, 7, 1).
Proof. vm_compute. repeat split. Qed.
End TapeTones.

(** * Further properties of the embedded code *)

(** ** Memory: RAM cells, address wrap, loading, screen views *)

Section MemoryCells.

(** X1.  In a memory of the allocated sizes, a byte stored at a RAM
    address is read back from it, reduced to eight bits, and every other
    cell reads as before. *)
Theorem ram_store_then_load (m : Memory.t) (addr addr' value : Z)
    (Hwf : Memory.wf m) (Hram : 0x4000 <= Z.land addr 0xffff) :
  Memory.read (Memory.write m addr value) addr = Z.land value 0xff /\
  (Z.land addr' 0xffff <> Z.land addr 0xffff ->
   Memory.read (Memory.write m addr value) addr' = Memory.read m addr') /\
  Memory.wf (Memory.write m addr value).
Proof.
  split; [now apply read_write_same|].
  split; [|now apply write_wf].
  intros Hne. apply read_write_other. congruence.
Qed.

Lemma ram_store_then_load_witness :
  Memory.read (Memory.write Sample.memory0 0x8000 0x1ff) 0x8000
  = Z.land 0x1ff 0xff.
Proof.
  assert (Hwf : Memory.wf Sample.memory0) by (split; vm_compute; reflexivity).
  assert (Hram : 0x4000 <= Z.land 0x8000 0xffff)
    by (apply Z.leb_le; vm_compute; reflexivity).
  exact (proj1 (ram_store_then_load Sample.memory0 0x8000 0 0x1ff Hwf Hram)).
Defined.

Lemma land_ffff_wrap (addr k : Z) :
  Z.land (addr + 65536 * k) 0xffff = Z.land addr 0xffff.
Proof.
  rewrite !land_ffff_mod. rewrite Z.mul_comm. apply Z.mod_add. lia.
Qed.

(** X2.  Addresses are taken modulo 2^16 by every entry point: an
    address and the same address plus any multiple of 65536 name the same
    cell, for reading, for writing and for the contention-aware
    variants. *)
Theorem address_wraps (m : Memory.t) (addr k value : Z) :
  Memory.read m (addr + 65536 * k) = Memory.read m addr /\
  Memory.write m (addr + 65536 * k) value = Memory.write m addr value /\
  Memory.readWithContention m (addr + 65536 * k)
  = Memory.readWithContention m addr /\
  Memory.writeWithContention m (addr + 65536 * k) value
  = Memory.writeWithContention m addr value /\
  fst (Memory.readWithContention m addr) = Memory.read m addr /\
  fst (Memory.writeWithContention m addr value) = Memory.write m addr value.
Proof.
  unfold Memory.read, Memory.write, Memory.readWithContention,
    Memory.writeWithContention.
  rewrite !land_ffff_wrap. cbn [fst].
  repeat split.
  rewrite Z.geb_leb.
  destruct (Z.land addr 0xffff <? 0x4000) eqn:E.
  - apply Z.ltb_lt in E.
    now replace (0x4000 <=? Z.land addr 0xffff) with false
      by (symmetry; apply Z.leb_gt; lia).
  - apply Z.ltb_ge in E.
    now replace (0x4000 <=? Z.land addr 0xffff) with true
      by (symmetry; apply Z.leb_le; lia).
Qed.

Lemma aget_map_land (data : list Z) (i : Z) :
  aget (MemoryImage.set_bytes data) i = Z.land (aget data i) 255.
Proof.
  unfold aget, MemoryImage.set_bytes. destruct (i <? 0); [reflexivity|].
  rewrite list_lookup_fmap. now destruct (data !! Z.to_nat i).
Qed.

(** X3.  [loadROM] refuses data that is not exactly 16384 bytes long,
    reporting the length and leaving the memory alone; with 16384 bytes
    it installs them, reduced to eight bits, so that every address below
    0x4000 reads the byte loaded for it, while the RAM is kept.
    [setRAM] does the same for the 49152 bytes of RAM, which [getRAM]
    then returns and which are read from 0x4000 up. *)
Theorem loadROM_checks_size (m : Memory.t) (data : list Z) :
  (Z.of_nat (length data) <> 16384 ->
   MemoryImage.loadROM m data
   = MemoryImage.InvalidSize (Z.of_nat (length data))) /\
  (Z.of_nat (length data) = 16384 ->
   exists m',
     MemoryImage.loadROM m data = MemoryImage.Returned m' /\
     Memory.romLoaded m' = true /\
     Memory.ram m' = Memory.ram m /\
     Z.of_nat (length (Memory.rom m')) = 16384 /\
     forall addr, 0 <= addr < 0x4000 ->
       Memory.read m' addr = Z.land (aget data addr) 0xff) /\
  (Z.of_nat (length data) <> 49152 ->
   MemoryImage.setRAM m data
   = MemoryImage.InvalidSize (Z.of_nat (length data))) /\
  (Z.of_nat (length data) = 49152 ->
   exists m',
     MemoryImage.setRAM m data = MemoryImage.Returned m' /\
     Memory.rom m' = Memory.rom m /\
     MemoryImage.getRAM m' = MemoryImage.set_bytes data /\
     Z.of_nat (length (MemoryImage.getRAM m')) = 49152 /\
     forall addr, 0x4000 <= addr < 0x10000 ->
       Memory.read m' addr = Z.land (aget data (addr - 0x4000)) 0xff).
Proof.
  unfold MemoryImage.loadROM, MemoryImage.setRAM, MemoryImage.getRAM.
  split; [|split; [|split]]; intros H.
  - now replace (Z.of_nat (length data) =? 16384) with false
      by (symmetry; apply Z.eqb_neq; exact H).
  - rewrite H. cbn [Z.eqb Pos.eqb negb]. eexists. split; [reflexivity|].
    cbn [Memory.romLoaded Memory.ram Memory.rom].
    repeat split.
    + unfold MemoryImage.set_bytes. now rewrite length_map.
    + intros addr Ha. rewrite read_below_rom by exact Ha.
      cbn [Memory.rom]. apply aget_map_land.
  - now replace (Z.of_nat (length data) =? 49152) with false
      by (symmetry; apply Z.eqb_neq; exact H).
  - rewrite H. cbn [Z.eqb Pos.eqb negb]. eexists. split; [reflexivity|].
    cbn [Memory.romLoaded Memory.ram Memory.rom].
    repeat split.
    + unfold MemoryImage.set_bytes. now rewrite length_map.
    + intros addr Ha. unfold Memory.read.
      rewrite land_ffff_small by lia.
      replace (addr <? 0x4000) with false
        by (symmetry; apply Z.ltb_ge; lia).
      cbn [Memory.ram]. apply aget_map_land.
Qed.

Lemma loadROM_checks_size_witness :
  MemoryImage.loadROM Sample.memory0 [1; 2; 3] = MemoryImage.InvalidSize 3.
Proof.
  apply (proj1 (loadROM_checks_size Sample.memory0 [1; 2; 3])).
  discriminate.
Defined.

Lemma aget_replicate_zero (n : nat) (i : Z) : aget (replicate n 0) i = 0.
Proof.
  unfold aget. destruct (i <? 0); [reflexivity|].
  destruct (replicate n 0 !! Z.to_nat i) as [v|] eqn:E; [|reflexivity].
  apply lookup_replicate in E. now destruct E as [-> _].
Qed.

(** X4.  [reset] clears the RAM and nothing else: afterwards every
    address from 0x4000 up reads 0, every address below reads the ROM
    byte it read before, and the arrays keep their lengths. *)
Theorem reset_clears_ram (m : Memory.t) (addr : Z) :
  Memory.rom (MemoryImage.reset m) = Memory.rom m /\
  length (Memory.ram (MemoryImage.reset m)) = length (Memory.ram m) /\
  (Z.land addr 0xffff < 0x4000 ->
   Memory.read (MemoryImage.reset m) addr = Memory.read m addr) /\
  (0x4000 <= Z.land addr 0xffff ->
   Memory.read (MemoryImage.reset m) addr = 0).
Proof.
  unfold MemoryImage.reset, Memory.read. cbn [Memory.rom Memory.ram].
  repeat split.
  - apply length_replicate.
  - intros H. now replace (Z.land addr 0xffff <? 0x4000) with true
      by (symmetry; apply Z.ltb_lt; exact H).
  - intros H. replace (Z.land addr 0xffff <? 0x4000) with false
      by (symmetry; apply Z.ltb_ge; exact H).
    apply aget_replicate_zero.
Qed.

Lemma reset_clears_ram_witness :
  Memory.read
    (MemoryImage.reset (Memory.write Sample.memory0 0x8000 0x55)) 0x8000 = 0.
Proof.
  apply (reset_clears_ram (Memory.write Sample.memory0 0x8000 0x55) 0x8000).
  apply Z.leb_le. vm_compute. reflexivity.
Defined.

(** X5.  The screen views are windows on the RAM: in a memory of the
    allocated sizes the pixel view has 6144 bytes, byte [i] of it being
    the cell at 0x4000 + i, and the attribute view has 768 bytes, byte [j]
    being the cell at 0x5800 + j. *)
Theorem screen_views (m : Memory.t) (i j : Z)
    (Hwf : Memory.wf m) (Hi : 0 <= i < 6144) (Hj : 0 <= j < 768) :
  Z.of_nat (length (MemoryImage.getScreenPixels m)) = 6144 /\
  Z.of_nat (length (MemoryImage.getScreenAttributes m)) = 768 /\
  aget (MemoryImage.getScreenPixels m) i = Memory.read m (0x4000 + i) /\
  aget (MemoryImage.getScreenAttributes m) j = Memory.read m (0x5800 + j).
Proof.
  destruct Hwf as [_ Hram].
  unfold MemoryImage.getScreenPixels, MemoryImage.getScreenAttributes.
  repeat split.
  - rewrite length_take. lia.
  - rewrite length_take, length_drop. lia.
  - unfold Memory.read. rewrite land_ffff_small by lia.
    replace (0x4000 + i <? 0x4000) with false
      by (symmetry; apply Z.ltb_ge; lia).
    unfold aget.
    replace (i <? 0) with false by (symmetry; apply Z.ltb_ge; lia).
    replace (0x4000 + i - 0x4000 <? 0) with false
      by (symmetry; apply Z.ltb_ge; lia).
    replace (0x4000 + i - 0x4000) with i by lia.
    now rewrite lookup_take_lt by lia.
  - unfold Memory.read. rewrite land_ffff_small by lia.
    replace (0x5800 + j <? 0x4000) with false
      by (symmetry; apply Z.ltb_ge; lia).
    unfold aget.
    replace (j <? 0) with false by (symmetry; apply Z.ltb_ge; lia).
    replace (0x5800 + j - 0x4000 <? 0) with false
      by (symmetry; apply Z.ltb_ge; lia).
    rewrite lookup_take_lt by lia. rewrite lookup_drop.
    do 2 f_equal. lia.
Qed.

Lemma screen_views_witness :
  aget (MemoryImage.getScreenPixels Sample.memory0) 100
  = Memory.read Sample.memory0 (0x4000 + 100).
Proof.
  assert (Hwf : Memory.wf Sample.memory0) by (split; vm_compute; reflexivity).
  destruct (screen_views Sample.memory0 100 5 Hwf ltac:(lia) ltac:(lia))
    as (_ & _ & H & _).
  exact H.
Defined.
End MemoryCells.

(** ** CPU helpers: parity, register pairs, R, memory words *)

Section CpuHelpers.
Import Z80CPU.

Lemma parity_bit (v : Z) :
  Z80Flags.getParity v
  = negb (xorb (Z.testbit v 0)
         (xorb (Z.testbit v 1)
         (xorb (Z.testbit v 2)
         (xorb (Z.testbit v 3)
         (xorb (Z.testbit v 4)
         (xorb (Z.testbit v 5)
         (xorb (Z.testbit v 6) (Z.testbit v 7)))))))).
Proof.
  unfold Z80Flags.getParity. cbv zeta.
  set (p := Z.lxor _ _).
  assert (E : negb (Z.land p (2 ^ 0) =? 0) = Z.testbit p 0)
    by (apply flag_bit; lia).
  change (2 ^ 0) with 1 in E.
  apply (f_equal negb) in E. rewrite negb_involutive in E. rewrite E.
  f_equal. subst p.
  rewrite !Z.lxor_spec, !Z.shiftr_spec, !Z.lxor_spec, !Z.shiftr_spec,
    !Z.lxor_spec, !Z.shiftr_spec by lia.
  change (0 + 4) with 4. change (0 + 2 + 4) with 6. change (0 + 2) with 2.
  change (0 + 1 + 2 + 4) with 7. change (0 + 1 + 2) with 3.
  change (0 + 1 + 4) with 5. change (0 + 1) with 1.
  destruct (Z.testbit v 0), (Z.testbit v 1), (Z.testbit v 2),
    (Z.testbit v 3), (Z.testbit v 4), (Z.testbit v 5), (Z.testbit v 6),
    (Z.testbit v 7); reflexivity.
Qed.

Lemma popcount_bits (v : Z) :
  Z.even (Z80Flags.popcount8 v)
  = negb (xorb (Z.testbit v 0)
         (xorb (Z.testbit v 1)
         (xorb (Z.testbit v 2)
         (xorb (Z.testbit v 3)
         (xorb (Z.testbit v 4)
         (xorb (Z.testbit v 5)
         (xorb (Z.testbit v 6) (Z.testbit v 7)))))))).
Proof.
  unfold Z80Flags.popcount8. cbn [fold_right].
  destruct (Z.testbit v 0), (Z.testbit v 1), (Z.testbit v 2),
    (Z.testbit v 3), (Z.testbit v 4), (Z.testbit v 5), (Z.testbit v 6),
    (Z.testbit v 7); reflexivity.
Qed.

(** X6.  [getParity] is true exactly when the number of one bits among
    the low eight bits of its argument is even, for every integer
    argument. *)
Theorem getParity_even (v : Z) :
  Z80Flags.getParity v = Z.even (Z80Flags.popcount8 v).
Proof.
  rewrite parity_bit. symmetry. apply popcount_bits.
Qed.

Lemma split_high_byte (v : Z) : byte (Z.land (Z.shiftr v 8) 0xff).
Proof. apply land_ff_range. Qed.

Lemma pair_mask (x : Z) :
  Z.lor (Z.shiftl (Z.land (Z.shiftr x 8) 0xff) 8) (Z.land x 0xff)
  = Z.land x 0xffff.
Proof.
  rewrite pair_value by apply land_ff_range.
  rewrite !land_ff_mod, land_ffff_mod, Z.shiftr_div_pow2 by lia.
  change (2 ^ 8) with 256.
  replace 65536 with (256 * 256) by reflexivity.
  rewrite Z.rem_mul_r by lia. lia.
Qed.

Lemma getHL_setHL (s : t) (v : Z) : getHL (setHL s v) = Z.land v 0xffff.
Proof. unfold getHL, setHL. cbn [h l with_h with_l]. apply pair_mask. Qed.

(** X7.  Writing a register pair and reading it back gives the value
    reduced to sixteen bits, with both halves left in byte range, for
    each of AF, BC, DE and HL; and writing back what was read changes
    nothing when the two registers hold bytes.  Writing one half of IX
    gives that half the value reduced to eight bits and keeps the other
    half. *)
Theorem register_pairs (s : t) (v : Z) :
  (getAF (setAF s v) = Z.land v 0xffff /\
   byte (a (setAF s v)) /\ byte (f (setAF s v))) /\
  (getBC (setBC s v) = Z.land v 0xffff /\
   byte (b (setBC s v)) /\ byte (c (setBC s v))) /\
  (getDE (setDE s v) = Z.land v 0xffff /\
   byte (d (setDE s v)) /\ byte (e (setDE s v))) /\
  (getHL (setHL s v) = Z.land v 0xffff /\
   byte (h (setHL s v)) /\ byte (l (setHL s v))) /\
  (byte (a s) -> byte (f s) -> setAF s (getAF s) = s) /\
  (byte (b s) -> byte (c s) -> setBC s (getBC s) = s) /\
  (byte (d s) -> byte (e s) -> setDE s (getDE s) = s) /\
  (byte (h s) -> byte (l s) -> setHL s (getHL s) = s) /\
  (Z80Flags.getIXH (Z80Flags.setIXH s v) = Z.land v 0xff /\
   Z80Flags.getIXL (Z80Flags.setIXH s v) = Z80Flags.getIXL s /\
   Z80Flags.getIXL (Z80Flags.setIXL s v) = Z.land v 0xff /\
   Z80Flags.getIXH (Z80Flags.setIXL s v) = Z80Flags.getIXH s).
Proof.
  pose proof pair_mask as J.
  unfold getAF, getBC, getDE, getHL, setAF, setBC, setDE, setHL, byte.
  cbn [a f b c d e h l with_a with_f with_b with_c with_d with_e with_h
         with_l].
  rewrite !J.
  repeat split; try apply land_ff_range;
    try (intros Hh Hl; rewrite pair_high, pair_low by assumption;
         now destruct s).
  - unfold Z80Flags.getIXH, Z80Flags.setIXH, Z80Flags.with_ix. cbn [ix].
    apply pair_high; apply land_ff_range.
  - unfold Z80Flags.getIXL, Z80Flags.setIXH, Z80Flags.with_ix. cbn [ix].
    now rewrite pair_low by apply land_ff_range.
  - unfold Z80Flags.getIXL, Z80Flags.setIXL, Z80Flags.with_ix. cbn [ix].
    rewrite Z.land_lor_distr_l, <- !Z.land_assoc.
    change (Z.land 0xff00 0xff) with 0. change (Z.land 0xff 0xff) with 0xff.
    now rewrite Z.land_0_r, Z.lor_0_l.
  - unfold Z80Flags.getIXH, Z80Flags.setIXL, Z80Flags.with_ix. cbn [ix].
    rewrite Z.shiftr_lor, !Z.shiftr_land.
    change (Z.shiftr 0xff00 8) with 0xff. change (Z.shiftr 0xff 8) with 0.
    now rewrite Z.land_0_r, Z.lor_0_r, land_ff_idem.
Qed.

Lemma register_pairs_witness :
  setBC Sample.cpuStackRam (getBC Sample.cpuStackRam) = Sample.cpuStackRam.
Proof.
  destruct (register_pairs Sample.cpuStackRam 0)
    as (_ & _ & _ & _ & _ & H & _).
  apply H; unfold byte; simpl; lia.
Defined.

(** Checking a property of bytes value by value. *)
Lemma in_all_bytes (v : Z) : byte v -> In v Z80Flags.all_bytes.
Proof.
  intros Hv. unfold Z80Flags.all_bytes.
  replace v with (Z.of_nat (Z.to_nat v)) by (apply Z2Nat.id; apply Hv).
  apply in_map, in_seq. unfold byte in Hv. lia.
Qed.

Lemma forall_bytes (p : Z -> bool) :
  forallb p Z80Flags.all_bytes = true -> forall v, byte v -> p v = true.
Proof.
  intros H v Hv. rewrite forallb_forall in H. apply H, in_all_bytes, Hv.
Qed.

Lemma forall_bytes2 (p : Z -> Z -> bool) :
  forallb (fun x => forallb (p x) Z80Flags.all_bytes) Z80Flags.all_bytes
  = true ->
  forall x y, byte x -> byte y -> p x y = true.
Proof.
  intros H x y Hx Hy.
  apply (forall_bytes (p x)); [|exact Hy].
  apply (forall_bytes (fun x => forallb (p x) Z80Flags.all_bytes) H x Hx).
Qed.

Lemma incR_r (s : t) :
  r (incR s) = Z.lor (Z.land (r s) 0x80) (Z.land (r s + 1) 0x7f).
Proof. reflexivity. Qed.

Lemma incR_byte_step (x : Z) :
  byte x ->
  let x' := Z.lor (Z.land x 0x80) (Z.land (x + 1) 0x7f) in
  byte x' /\ Z.land x' 0x80 = Z.land x 0x80 /\
  Z.land x' 0x7f = (Z.land x 0x7f + 1) mod 128 /\
  x = Z.land x 0x80 + Z.land x 0x7f.
Proof.
  intros Hx. cbv zeta.
  pose proof (forall_bytes
    (fun x =>
       let x' := Z.lor (Z.land x 0x80) (Z.land (x + 1) 0x7f) in
       (0 <=? x') && (x' <? 256) && (Z.land x' 0x80 =? Z.land x 0x80)
       && (Z.land x' 0x7f =? (Z.land x 0x7f + 1) mod 128)
       && (x =? Z.land x 0x80 + Z.land x 0x7f))
    ltac:(vm_compute; reflexivity) x Hx) as H.
  cbv zeta in H.
  rewrite !andb_true_iff in H.
  destruct H as ((((H1 & H2) & H3) & H4) & H5).
  apply Z.leb_le in H1. apply Z.ltb_lt in H2. apply Z.eqb_eq in H3.
  apply Z.eqb_eq in H4. apply Z.eqb_eq in H5.
  unfold byte. repeat split; try assumption.
Qed.

(** X8.  On a byte-sized R, [n] increments leave bit 7 as it was and
    advance the low seven bits by [n] modulo 128; R stays a byte. *)
Theorem incR_counts (s : t) (n : nat) (Hr : byte (r s)) :
  r (Nat.iter n incR s)
  = Z.land (r s) 0x80 + (Z.land (r s) 0x7f + Z.of_nat n) mod 128 /\
  byte (r (Nat.iter n incR s)).
Proof.
  assert (Inv : byte (r (Nat.iter n incR s)) /\
                Z.land (r (Nat.iter n incR s)) 0x80 = Z.land (r s) 0x80 /\
                Z.land (r (Nat.iter n incR s)) 0x7f
                = (Z.land (r s) 0x7f + Z.of_nat n) mod 128).
  { induction n as [|n IH].
    - cbn [Nat.iter]. repeat split; try apply Hr.
      rewrite Z.add_0_r, Z.mod_small; [reflexivity|].
      change 0x7f with (Z.ones 7). rewrite Z.land_ones by lia.
      apply Z.mod_pos_bound. lia.
    - destruct IH as (B & Hhi & Hlo).
      change (Nat.iter (S n) incR s) with (incR (Nat.iter n incR s)).
      rewrite incR_r.
      destruct (incR_byte_step _ B) as (B' & Hhi' & Hlo' & _).
      split; [exact B'|]. split; [now rewrite Hhi'|].
      rewrite Hlo', Hlo, Zplus_mod_idemp_l. f_equal. lia. }
  destruct Inv as (B & Hhi & Hlo).
  split; [|exact B].
  destruct (incR_byte_step _ B) as (_ & _ & _ & E).
  rewrite E at 1. now rewrite Hhi, Hlo.
Qed.

Lemma incR_counts_witness :
  r (Nat.iter 3 incR (with_r Sample.cpuBlock 0xff))
  = Z.land 0xff 0x80 + (Z.land 0xff 0x7f + Z.of_nat 3) mod 128.
Proof.
  apply (incR_counts (with_r Sample.cpuBlock 0xff) 3).
  unfold byte. simpl. lia.
Defined.
End CpuHelpers.

(** ** Eight-bit arithmetic and logic *)

Lemma setFlag_a (s : Z80CPU.t) (flag : Z) (value : bool) :
  Z80CPU.a (Z80CPU.setFlag s flag value) = Z80CPU.a s.
Proof. now destruct value. Qed.

Lemma setFlag_b (s : Z80CPU.t) (flag : Z) (value : bool) :
  Z80CPU.b (Z80CPU.setFlag s flag value) = Z80CPU.b s.
Proof. now destruct value. Qed.

Lemma setFlag_sp (s : Z80CPU.t) (flag : Z) (value : bool) :
  Z80CPU.sp (Z80CPU.setFlag s flag value) = Z80CPU.sp s.
Proof. now destruct value. Qed.

Lemma with_f_setFlag (s : Z80CPU.t) (flag x : Z) (value : bool) :
  Z80CPU.with_f (Z80CPU.setFlag s flag value) x = Z80CPU.with_f s x.
Proof. now destruct value. Qed.

Lemma getFlag_same_f (s1 s2 : Z80CPU.t) (flag : Z) :
  Z80CPU.f s1 = Z80CPU.f s2 ->
  Z80CPU.getFlag s1 flag = Z80CPU.getFlag s2 flag.
Proof. unfold Z80CPU.getFlag. now intros ->. Qed.

(** Normalise a CPU record built from a constructor by assignments. *)
Ltac record_cbv :=
  cbv [Z80CPU.with_a Z80CPU.with_f Z80CPU.with_b Z80CPU.with_c
       Z80CPU.with_d Z80CPU.with_e Z80CPU.with_h Z80CPU.with_l
       Z80CPU.with_sp Z80CPU.with_pc Z80CPU.with_r
       Z80CPU.with_iff1 Z80CPU.with_iff2 Z80CPU.with_im
       Z80CPU.with_enableInterruptsPending Z80CPU.with_halted
       Z80CPU.with_tstates Z80CPU.with_memory Z80CPU.a Z80CPU.f
       Z80CPU.b Z80CPU.c Z80CPU.d Z80CPU.e Z80CPU.h Z80CPU.l
       Z80CPU.a_ Z80CPU.f_ Z80CPU.b_ Z80CPU.c_ Z80CPU.d_ Z80CPU.e_
       Z80CPU.h_ Z80CPU.l_ Z80CPU.ix Z80CPU.iy Z80CPU.sp Z80CPU.pc
       Z80CPU.i Z80CPU.r Z80CPU.iff1 Z80CPU.iff2 Z80CPU.im
       Z80CPU.enableInterruptsPending Z80CPU.halted Z80CPU.tstates
       Z80CPU.memory].

Ltac pow_flags :=
  change Z80CPU.FLAG_C with (2 ^ 0); change Z80CPU.FLAG_N with (2 ^ 1);
  change Z80CPU.FLAG_PV with (2 ^ 2); change Z80CPU.FLAG_X with (2 ^ 3);
  change Z80CPU.FLAG_H with (2 ^ 4); change Z80CPU.FLAG_Y with (2 ^ 5);
  change Z80CPU.FLAG_Z with (2 ^ 6); change Z80CPU.FLAG_S with (2 ^ 7).

Ltac read_flags :=
  pow_flags; rewrite ?getFlag_setFlag by lia; cbn [Z.eqb Pos.eqb];
  rewrite ?setFlag_a, ?setFlag_b;
  cbn [Z80CPU.a Z80CPU.f Z80CPU.b Z80CPU.c Z80CPU.d Z80CPU.e Z80CPU.h
         Z80CPU.l Z80CPU.sp Z80CPU.pc Z80CPU.tstates Z80CPU.memory
         Z80CPU.with_a Z80CPU.with_f Z80CPU.with_b Z80CPU.with_tstates
         Z80CPU.with_pc Z80CPU.with_sp Z80CPU.with_memory].

Ltac split_bools H :=
  cbv zeta in H; rewrite ?andb_true_iff in H;
  repeat match goal with E : _ /\ _ |- _ => destruct E end;
  repeat match goal with
         | E : (_ =? _) = true |- _ => apply Z.eqb_eq in E
         | E : Bool.eqb _ _ = true |- _ => apply eqb_prop in E
         end.

Section Alu.
Import Z80CPU.
Import BaseALU.

Lemma add_table (x v cin : Z) :
  byte x -> byte v -> cin = 0 \/ cin = 1 ->
  let r := x + v + cin in
  let sr := toSigned x + toSigned v + cin in
  Z.land r 0xff = r mod 256 /\
  truthy (Z.land r 0x100) = (256 <=? r) /\
  truthy (Z.land (Z.land r 0xff) 0x80) = (128 <=? r mod 256) /\
  negb (Z.land (Z.land (Z.lxor x r) (Z.lxor v r)) 0x80 =? 0)
  = negb ((-128 <=? sr) && (sr <=? 127)).
Proof.
  intros Hx Hv Hc.
  pose proof (forall_bytes2
    (fun x v =>
       forallb (fun cin =>
         let r := x + v + cin in
         let sr := toSigned x + toSigned v + cin in
         (Z.land r 0xff =? r mod 256)
         && Bool.eqb (truthy (Z.land r 0x100)) (256 <=? r)
         && Bool.eqb (truthy (Z.land (Z.land r 0xff) 0x80))
              (128 <=? r mod 256)
         && Bool.eqb
              (negb (Z.land (Z.land (Z.lxor x r) (Z.lxor v r)) 0x80 =? 0))
              (negb ((-128 <=? sr) && (sr <=? 127)))) [0; 1])
    ltac:(vm_compute; reflexivity) x v Hx Hv) as H.
  cbn [forallb] in H. rewrite andb_true_r in H.
  apply andb_true_iff in H. destruct H as [H0 H1].
  destruct Hc as [-> | ->]; [clear H1; split_bools H0|clear H0; split_bools H1];
    cbv zeta; repeat split; assumption.
Qed.

(** X9.  ADD A,v and ADC A,v on byte operands: A receives the sum
    modulo 256, C is the carry out of bit 7, Z and S describe the new
    A, P/V is signed overflow of the two's-complement sum, N is
    cleared; ADC adds the incoming carry flag. *)
Theorem alu_add_adc (s : t) (v : Z) (withCarry : bool)
    (Ha : byte (a s)) (Hv : byte v) :
  let cin := if withCarry && getFlag s FLAG_C then 1 else 0 in
  let s' := executeALU s (if withCarry then op_adc else op_add) v in
  let sum := a s + v + cin in
  let ssum := toSigned (a s) + toSigned v + cin in
  a s' = sum mod 256 /\
  getFlag s' FLAG_C = (256 <=? sum) /\
  getFlag s' FLAG_Z = (sum mod 256 =? 0) /\
  getFlag s' FLAG_S = (128 <=? sum mod 256) /\
  getFlag s' FLAG_PV = negb ((-128 <=? ssum) && (ssum <=? 127)) /\
  getFlag s' FLAG_N = false.
Proof.
  cbv zeta.
  set (cin := if withCarry && getFlag s FLAG_C then 1 else 0).
  assert (Hc : cin = 0 \/ cin = 1)
    by (subst cin; destruct (withCarry && _); auto).
  destruct (add_table (a s) v cin Ha Hv Hc) as (E1 & E2 & E3 & E4).
  cbv zeta in E4.
  assert (E : executeALU s (if withCarry then op_adc else op_add) v
              = (let result := a s + v + cin in
                 let overflow :=
                   negb (Z.land (Z.land (Z.lxor (a s) result)
                                   (Z.lxor v result)) 0x80 =? 0) in
                 let s1 := setFlag (with_a s (Z.land result 0xff)) FLAG_N
                             false in
                 Z80Flags.setArithmeticFlags s1 (a s1) result overflow)).
  { subst cin. destruct withCarry; cbn [andb executeALU];
      [reflexivity|now rewrite Z.add_0_r]. }
  rewrite E. clear E. unfold Z80Flags.setArithmeticFlags. cbv zeta.
  read_flags.
  rewrite E3, E4, E2, land_ff_idem, E1.
  repeat split; reflexivity.
Qed.

Lemma alu_add_adc_witness :
  a (executeALU (with_a Sample.cpuBlock 0x7f) op_add 1) = (0x7f + 1 + 0) mod 256.
Proof.
  apply (alu_add_adc (with_a Sample.cpuBlock 0x7f) 1 false);
    unfold byte; simpl; lia.
Defined.

Lemma sub_table (x v cin : Z) :
  byte x -> byte v -> cin = 0 \/ cin = 1 ->
  let r := x - v - cin in
  let sr := toSigned x - toSigned v - cin in
  Z.land r 0xff = r mod 256 /\
  truthy (Z.land r 0x100) = (r <? 0) /\
  truthy (Z.land (Z.land r 0xff) 0x80) = (128 <=? r mod 256) /\
  truthy (Z.land r 0x80) = (128 <=? r mod 256) /\
  negb (Z.land (Z.land (Z.lxor x v) (Z.lxor x r)) 0x80 =? 0)
  = negb ((-128 <=? sr) && (sr <=? 127)) /\
  (cin = 0 -> (r mod 256 =? 0) = (x =? v) /\ (r <? 0) = (x <? v)).
Proof.
  intros Hx Hv Hc.
  pose proof (forall_bytes2
    (fun x v =>
       forallb (fun cin =>
         let r := x - v - cin in
         let sr := toSigned x - toSigned v - cin in
         (Z.land r 0xff =? r mod 256)
         && Bool.eqb (truthy (Z.land r 0x100)) (r <? 0)
         && Bool.eqb (truthy (Z.land (Z.land r 0xff) 0x80))
              (128 <=? r mod 256)
         && Bool.eqb (truthy (Z.land r 0x80)) (128 <=? r mod 256)
         && Bool.eqb
              (negb (Z.land (Z.land (Z.lxor x v) (Z.lxor x r)) 0x80 =? 0))
              (negb ((-128 <=? sr) && (sr <=? 127)))
         && ((cin =? 1)
             || Bool.eqb (r mod 256 =? 0) (x =? v)
                && Bool.eqb (r <? 0) (x <? v))) [0; 1])
    ltac:(vm_compute; reflexivity) x v Hx Hv) as H.
  cbn [forallb] in H. rewrite andb_true_r in H.
  apply andb_true_iff in H. destruct H as [H0 H1].
  destruct Hc as [-> | ->].
  - clear H1. change (0 =? 1) with false in H0. cbn [orb] in H0.
    split_bools H0.
    cbv zeta. repeat split; assumption.
  - clear H0. change (1 =? 1) with true in H1. cbn [orb] in H1.
    rewrite andb_true_r in H1. split_bools H1.
    cbv zeta. repeat split; try assumption; discriminate.
Qed.

(** X10.  SUB v and SBC A,v on byte operands: A receives the difference
    modulo 256, C is the borrow, Z and S describe the new A, P/V is
    signed overflow of the two's-complement difference, N is set; SBC
    also subtracts the incoming carry flag. *)
Theorem alu_sub_sbc (s : t) (v : Z) (withCarry : bool)
    (Ha : byte (a s)) (Hv : byte v) :
  let cin := if withCarry && getFlag s FLAG_C then 1 else 0 in
  let s' := executeALU s (if withCarry then op_sbc else op_sub) v in
  let diff := a s - v - cin in
  let sdiff := toSigned (a s) - toSigned v - cin in
  a s' = diff mod 256 /\
  getFlag s' FLAG_C = (diff <? 0) /\
  getFlag s' FLAG_Z = (diff mod 256 =? 0) /\
  getFlag s' FLAG_S = (128 <=? diff mod 256) /\
  getFlag s' FLAG_PV = negb ((-128 <=? sdiff) && (sdiff <=? 127)) /\
  getFlag s' FLAG_N = true.
Proof.
  destruct withCarry; cbn [andb executeALU]; cbv zeta.
  - set (cin := if getFlag s FLAG_C then 1 else 0).
    assert (Hc : cin = 0 \/ cin = 1)
      by (subst cin; destruct (getFlag _ _); auto).
    destruct (sub_table (a s) v cin Ha Hv Hc) as (E1 & E2 & E3 & _ & E4 & _).
    cbv zeta in E4. read_flags. rewrite E3, E4, E2, E1.
    repeat split; reflexivity.
  - destruct (sub_table (a s) v 0 Ha Hv (or_introl eq_refl))
      as (E1 & E2 & E3 & _ & E4 & _).
    cbv zeta in E4. rewrite !Z.sub_0_r in *.
    read_flags. rewrite E3, E4, E2, E1.
    repeat split; reflexivity.
Qed.

Lemma alu_sub_sbc_witness :
  getFlag (executeALU (with_a Sample.cpuBlock 3) op_sub 5) FLAG_C
  = (3 - 5 - 0 <? 0).
Proof.
  apply (alu_sub_sbc (with_a Sample.cpuBlock 3) 5 false);
    unfold byte; simpl; lia.
Defined.

(** X11.  CP v on byte operands compares without storing: A and every
    other register but F are unchanged, Z is set exactly when A = v, C
    exactly when A < v, S is the sign of the difference, P/V its signed
    overflow, and N is set. *)
Theorem alu_cp (s : t) (v : Z) (Ha : byte (a s)) (Hv : byte v) :
  let s' := executeALU s op_cp v in
  let sdiff := toSigned (a s) - toSigned v in
  with_f s' (f s) = s /\
  getFlag s' FLAG_Z = (a s =? v) /\
  getFlag s' FLAG_C = (a s <? v) /\
  getFlag s' FLAG_S = (128 <=? (a s - v) mod 256) /\
  getFlag s' FLAG_PV = negb ((-128 <=? sdiff) && (sdiff <=? 127)) /\
  getFlag s' FLAG_N = true.
Proof.
  cbv zeta.
  destruct (sub_table (a s) v 0 Ha Hv (or_introl eq_refl))
    as (E1 & E2 & _ & E3 & E4 & E5).
  cbv zeta in E4. rewrite !Z.sub_0_r in *.
  destruct (E5 eq_refl) as [E6 E7].
  cbn [executeALU]. cbv zeta. split.
  - rewrite !with_f_setFlag. now destruct s.
  - read_flags. rewrite E3, E4, E2, E1, E6, E7. repeat split; reflexivity.
Qed.

Lemma alu_cp_witness :
  getFlag (executeALU (with_a Sample.cpuBlock 9) op_cp 9) FLAG_Z = (9 =? 9).
Proof.
  apply (alu_cp (with_a Sample.cpuBlock 9) 9); unfold byte; simpl; lia.
Defined.
End Alu.

Section AluMore.
Import Z80CPU.
Import BaseALU.
Import ExtendedALU.

Lemma byte_facts (x : Z) :
  byte x ->
  truthy (Z.land x 0x80) = (128 <=? x) /\
  (Z.land x 0xff =? 0) = (x =? 0) /\
  Z.land (x + 1) 0xff = (x + 1) mod 256 /\
  Z.land (x - 1) 0xff = (x - 1) mod 256 /\
  Z.land (0 - x) 0xff = (- x) mod 256 /\
  Z.land x 0xff = x.
Proof.
  intros Hx.
  pose proof (forall_bytes
    (fun x =>
       Bool.eqb (truthy (Z.land x 0x80)) (128 <=? x)
       && Bool.eqb (Z.land x 0xff =? 0) (x =? 0)
       && (Z.land (x + 1) 0xff =? (x + 1) mod 256)
       && (Z.land (x - 1) 0xff =? (x - 1) mod 256)
       && (Z.land (0 - x) 0xff =? (- x) mod 256)
       && (Z.land x 0xff =? x))
    ltac:(vm_compute; reflexivity) x Hx) as H.
  split_bools H. repeat split; assumption.
Qed.

Lemma logic_bytes (x v : Z) :
  byte x -> byte v ->
  byte (Z.land x v) /\ byte (Z.lor x v) /\ byte (Z.lxor x v).
Proof.
  intros Hx Hv.
  pose proof (forall_bytes2
    (fun x v =>
       (0 <=? Z.land x v) && (Z.land x v <? 256)
       && (0 <=? Z.lor x v) && (Z.lor x v <? 256)
       && (0 <=? Z.lxor x v) && (Z.lxor x v <? 256))
    ltac:(vm_compute; reflexivity) x v Hx Hv) as H.
  cbv beta in H. rewrite !andb_true_iff, !Z.leb_le, !Z.ltb_lt in H.
  unfold byte. lia.
Qed.

(** X12.  AND, OR and XOR on byte operands: A receives the bitwise
    result, C and N are cleared, H is set by AND only, Z and S describe
    the new A and P/V is set exactly when the new A has an even number
    of one bits. *)
Theorem alu_logic (s : t) (v : Z) (op : aluOp)
    (Hop : op = op_and \/ op = op_or \/ op = op_xor)
    (Ha : byte (a s)) (Hv : byte v) :
  let s' := executeALU s op v in
  a s' = match op with
         | op_and => Z.land (a s) v
         | op_or => Z.lor (a s) v
         | _ => Z.lxor (a s) v
         end /\
  byte (a s') /\
  getFlag s' FLAG_C = false /\
  getFlag s' FLAG_N = false /\
  getFlag s' FLAG_H = match op with op_and => true | _ => false end /\
  getFlag s' FLAG_Z = (a s' =? 0) /\
  getFlag s' FLAG_S = (128 <=? a s') /\
  getFlag s' FLAG_PV = Z.even (Z80Flags.popcount8 (a s')).
Proof.
  destruct (logic_bytes (a s) v Ha Hv) as (B1 & B2 & B3).
  destruct Hop as [-> | [-> | ->]]; cbn [executeALU];
    unfold Z80Flags.setLogicalFlags; cbv zeta; read_flags;
    rewrite parity_bit, popcount_bits;
    match goal with
    | B : byte ?x |- ?x = ?x /\ _ =>
        destruct (byte_facts x B) as (E1 & E2 & _); rewrite E1, E2;
        repeat split; solve [reflexivity | apply B]
    end.
Qed.

Lemma alu_logic_witness :
  a (executeALU (with_a Sample.cpuBlock 0x5a) op_xor 0x5a)
  = Z.lxor 0x5a 0x5a.
Proof.
  apply (alu_logic (with_a Sample.cpuBlock 0x5a) 0x5a op_xor);
    [auto | unfold byte; simpl; lia | unfold byte; lia].
Defined.

(** X13.  INC B and DEC B on a byte: B moves by one modulo 256, the
    carry flag is left alone, Z and S describe the new B, P/V marks the
    step across the signed boundary (from 0x7f up, from 0x80 down), N
    tells the two apart, four T-states pass, and DEC B undoes INC B. *)
Theorem inc_dec_b (s : t) (Hb : byte (b s)) :
  (b (INC_B s) = (b s + 1) mod 256 /\
   getFlag (INC_B s) FLAG_C = getFlag s FLAG_C /\
   getFlag (INC_B s) FLAG_Z = (b (INC_B s) =? 0) /\
   getFlag (INC_B s) FLAG_S = (128 <=? b (INC_B s)) /\
   getFlag (INC_B s) FLAG_PV = (b s =? 0x7f) /\
   getFlag (INC_B s) FLAG_N = false /\
   tstates (INC_B s) = tstates s + 4) /\
  (b (DEC_B s) = (b s - 1) mod 256 /\
   getFlag (DEC_B s) FLAG_C = getFlag s FLAG_C /\
   getFlag (DEC_B s) FLAG_Z = (b (DEC_B s) =? 0) /\
   getFlag (DEC_B s) FLAG_S = (128 <=? b (DEC_B s)) /\
   getFlag (DEC_B s) FLAG_PV = (b s =? 0x80) /\
   getFlag (DEC_B s) FLAG_N = true /\
   tstates (DEC_B s) = tstates s + 4) /\
  b (DEC_B (INC_B s)) = b s.
Proof.
  destruct (byte_facts (b s) Hb) as (_ & _ & Ei & Ed & _).
  assert (Bi : byte ((b s + 1) mod 256)) by (apply Z.mod_pos_bound; lia).
  assert (Bd : byte ((b s - 1) mod 256)) by (apply Z.mod_pos_bound; lia).
  destruct (byte_facts _ Bi) as (Si & _ & _ & Edi & _).
  destruct (byte_facts _ Bd) as (Sd & _).
  assert (Fi : forall flag,
             getFlag (INC_B s) flag
             = getFlag
                 (setFlag (setFlag (setFlag (setFlag (setFlag (setFlag
                    (setFlag s FLAG_S (truthy (Z.land ((b s + 1) mod 256)
                                                0x80)))
                    FLAG_Z ((b s + 1) mod 256 =? 0))
                    FLAG_H (Z.land (b s) 0x0f =? 0x0f))
                    FLAG_PV (b s =? 0x7f)) FLAG_N false)
                    FLAG_Y (truthy (Z.land ((b s + 1) mod 256) 0x20)))
                    FLAG_X (truthy (Z.land ((b s + 1) mod 256) 0x08)))
                 flag).
  { intros flag. apply getFlag_same_f. unfold INC_B. cbv zeta.
    cbn [f with_tstates with_b]. now rewrite Ei, !setFlag_b. }
  assert (Fd : forall flag,
             getFlag (DEC_B s) flag
             = getFlag
                 (setFlag (setFlag (setFlag (setFlag (setFlag (setFlag
                    (setFlag s FLAG_S (truthy (Z.land ((b s - 1) mod 256)
                                                0x80)))
                    FLAG_Z ((b s - 1) mod 256 =? 0))
                    FLAG_H (Z.land (b s) 0x0f =? 0))
                    FLAG_PV (b s =? 0x80)) FLAG_N true)
                    FLAG_Y (truthy (Z.land ((b s - 1) mod 256) 0x20)))
                    FLAG_X (truthy (Z.land ((b s - 1) mod 256) 0x08)))
                 flag).
  { intros flag. apply getFlag_same_f. unfold DEC_B. cbv zeta.
    cbn [f with_tstates with_b]. now rewrite Ed, !setFlag_b. }
  assert (Bi' : b (INC_B s) = (b s + 1) mod 256).
  { unfold INC_B. cbv zeta. cbn [b with_tstates with_b]. exact Ei. }
  assert (Bd' : forall s0, b (DEC_B s0) = Z.land (b s0 - 1) 0xff).
  { intros s0. unfold DEC_B. cbv zeta. now cbn [b with_tstates with_b]. }
  split; [|split].
  - rewrite !Fi, Bi'. read_flags. rewrite Si.
    repeat split; try reflexivity.
    unfold INC_B. cbv zeta. cbn [tstates with_tstates with_b].
    now rewrite !setFlag_tstates.
  - rewrite !Fd, Bd', Ed. read_flags. rewrite Sd.
    repeat split; try reflexivity.
    unfold DEC_B. cbv zeta. cbn [tstates with_tstates with_b].
    now rewrite !setFlag_tstates.
  - rewrite Bd', Bi', Edi.
    replace ((b s + 1) mod 256 - 1) with (b s + 1 - 1 - 256 * ((b s + 1) / 256))
      by (rewrite (Z.mod_eq (b s + 1) 256) by lia; lia).
    replace (b s + 1 - 1 - 256 * ((b s + 1) / 256))
      with (b s + (- ((b s + 1) / 256)) * 256) by lia.
    rewrite Z.mod_add by lia. apply Z.mod_small, Hb.
Qed.

Lemma inc_dec_b_witness :
  b (DEC_B (INC_B (with_b Sample.cpuBlock 0xff))) = 0xff.
Proof.
  apply (inc_dec_b (with_b Sample.cpuBlock 0xff)).
  unfold byte; simpl; lia.
Defined.
End AluMore.

Section ExtendedArithmetic.
Import Z80CPU.
Import BaseALU.
Import ExtendedALU.

Lemma neg_table (x : Z) :
  byte x ->
  let r := Z.land (0 - x) 0xff in
  r = Z.land (0 - x) 0xff /\
  Z.land (0 - r) 0xff = x /\
  truthy (Z.land (0 - Z.land x 0x0f) 0x10)
  = (Z.land 0 0x0f <? Z.land x 0x0f) /\
  (x =? 0x80)
  = negb (Z.land (Z.land (Z.lxor 0 x) (Z.lxor 0 (0 - x))) 0x80 =? 0) /\
  negb (x =? 0) = truthy (Z.land (0 - x) 0x100).
Proof.
  intros Hx.
  pose proof (forall_bytes
    (fun x =>
       let r := Z.land (0 - x) 0xff in
       (Z.land (0 - r) 0xff =? x)
       && Bool.eqb (truthy (Z.land (0 - Z.land x 0x0f) 0x10))
            (Z.land 0 0x0f <? Z.land x 0x0f)
       && Bool.eqb (x =? 0x80)
            (negb (Z.land (Z.land (Z.lxor 0 x) (Z.lxor 0 (0 - x))) 0x80
                   =? 0))
       && Bool.eqb (negb (x =? 0)) (truthy (Z.land (0 - x) 0x100)))
    ltac:(vm_compute; reflexivity) x Hx) as H.
  split_bools H. cbv zeta. repeat split; assumption.
Qed.

Lemma cpl_table (x : Z) :
  byte x ->
  Z.land (Z.lnot x) 0xff = 255 - x /\
  Z.land (0 - x) 0xff = (255 - x + 1) mod 256 /\
  Z.land (Z.lnot (255 - x)) 0xff = x.
Proof.
  intros Hx.
  pose proof (forall_bytes
    (fun x =>
       (Z.land (Z.lnot x) 0xff =? 255 - x)
       && (Z.land (0 - x) 0xff =? (255 - x + 1) mod 256)
       && (Z.land (Z.lnot (255 - x)) 0xff =? x))
    ltac:(vm_compute; reflexivity) x Hx) as H.
  split_bools H. repeat split; assumption.
Qed.

(** X14.  NEG on a byte gives the same accumulator and the same eight
    flags as subtracting A from zero with the SUB of the main table,
    and two NEGs in a row restore A.  CPL gives the one's complement
    255 - A, sets H and N and keeps the carry; NEG is CPL plus one
    modulo 256, and two CPLs restore A. *)
Theorem neg_is_sub_from_zero (s : t) (Ha : byte (a s)) :
  a (NEG s) = a (executeALU (with_a s 0) op_sub (a s)) /\
  (forall flag,
     In flag [FLAG_C; FLAG_N; FLAG_PV; FLAG_X; FLAG_H; FLAG_Y; FLAG_Z;
              FLAG_S] ->
     getFlag (NEG s) flag
     = getFlag (executeALU (with_a s 0) op_sub (a s)) flag) /\
  a (NEG (NEG s)) = a s /\
  a (CPL s) = 255 - a s /\
  a (NEG s) = (a (CPL s) + 1) mod 256 /\
  a (CPL (CPL s)) = a s /\
  getFlag (CPL s) FLAG_H = true /\
  getFlag (CPL s) FLAG_N = true /\
  getFlag (CPL s) FLAG_C = getFlag s FLAG_C.
Proof.
  destruct (neg_table (a s) Ha) as (_ & E2 & E3 & E4 & E5).
  destruct (cpl_table (a s) Ha) as (C1 & C2 & C3).
  assert (A : forall s0, a (NEG s0) = Z.land (0 - a s0) 0xff).
  { intros s0. unfold NEG. cbv zeta. now cbn [a with_tstates with_a]. }
  assert (C : forall s0, a (CPL s0) = Z.land (Z.lnot (a s0)) 0xff).
  { intros s0. unfold CPL. cbv zeta. cbn [a with_tstates].
    now rewrite !setFlag_a. }
  assert (F : forall flag,
             getFlag (CPL s) flag
             = getFlag
                 (setFlag (setFlag (setFlag
                    (setFlag (with_a s (Z.land (Z.lnot (a s)) 0xff))
                       FLAG_H true) FLAG_N true)
                    FLAG_Y (truthy (Z.land (Z.land (Z.lnot (a s)) 0xff) 0x20)))
                    FLAG_X (truthy (Z.land (Z.land (Z.lnot (a s)) 0xff) 0x08)))
                 flag).
  { intros flag. apply getFlag_same_f. unfold CPL. cbv zeta.
    cbn [f with_tstates]. now rewrite !setFlag_a. }
  split; [|split; [|split; [|split; [|split; [|split]]]]].
  - rewrite A. cbn [executeALU]. cbv zeta. now rewrite !setFlag_a.
  - intros flag Hin.
    transitivity
      (getFlag
         (setFlag (setFlag (setFlag (setFlag (setFlag (setFlag (setFlag
            (setFlag s FLAG_S (truthy (Z.land (Z.land (0 - a s) 0xff) 0x80)))
            FLAG_Z (Z.land (0 - a s) 0xff =? 0))
            FLAG_H (truthy (Z.land (0 - Z.land (a s) 0x0f) 0x10)))
            FLAG_PV (a s =? 0x80)) FLAG_N true)
            FLAG_C (negb (a s =? 0)))
            FLAG_Y (truthy (Z.land (Z.land (0 - a s) 0xff) 0x20)))
            FLAG_X (truthy (Z.land (Z.land (0 - a s) 0xff) 0x08))) flag).
    { apply getFlag_same_f. unfold NEG. cbv zeta.
      cbn [f with_tstates with_a]. now rewrite !setFlag_a. }
    cbn [executeALU]. cbv zeta.
    rewrite !setFlag_a. cbn [a with_a]. rewrite E3, E4, E5.
    cbn [In] in Hin.
    destruct Hin as [<- | [<- | [<- | [<- | [<- | [<- | [<- | [<- | []]]]]]]]];
      read_flags; reflexivity.
  - rewrite !A. exact E2.
  - now rewrite C.
  - now rewrite A, C, C1.
  - now rewrite !C, C1.
  - rewrite !F. read_flags. unfold getFlag. cbn [f with_a].
    repeat split; reflexivity.
Qed.

Lemma neg_is_sub_from_zero_witness :
  a (NEG (NEG (with_a Sample.cpuBlock 0x80))) = 0x80.
Proof.
  refine (proj1 (proj2 (proj2
            (neg_is_sub_from_zero (with_a Sample.cpuBlock 0x80) _)))).
  unfold byte; simpl; lia.
Defined.

Lemma digit_table (x v : Z) :
  byte x -> byte v ->
  let ar := Z.lor (Z.land x 0xf0) (Z.shiftr v 4) in
  let mr := Z.land (Z.lor (Z.shiftl v 4) (Z.land x 0x0f)) 0xff in
  ar = x / 16 * 16 + v / 16 /\
  mr = v mod 16 * 16 + x mod 16 /\
  Z.land mr 0xff = mr /\
  Z.lor (Z.land ar 0xf0) (Z.land mr 0x0f) = x /\
  Z.land (Z.land (Z.lor (Z.shiftr mr 4) (Z.shiftl ar 4)) 0xff) 0xff = v.
Proof.
  intros Hx Hv.
  pose proof (forall_bytes2
    (fun x v =>
       let ar := Z.lor (Z.land x 0xf0) (Z.shiftr v 4) in
       let mr := Z.land (Z.lor (Z.shiftl v 4) (Z.land x 0x0f)) 0xff in
       (ar =? x / 16 * 16 + v / 16)
       && (mr =? v mod 16 * 16 + x mod 16)
       && (Z.land mr 0xff =? mr)
       && (Z.lor (Z.land ar 0xf0) (Z.land mr 0x0f) =? x)
       && (Z.land (Z.land (Z.lor (Z.shiftr mr 4) (Z.shiftl ar 4)) 0xff) 0xff
           =? v))
    ltac:(vm_compute; reflexivity) x v Hx Hv) as H.
  split_bools H. cbv zeta. repeat split; assumption.
Qed.

Lemma digit_step (s : t) (m : Memory.t) (newA newVal : Z) :
  memory s = Some m -> Memory.wf m ->
  0x4000 <= Z.land (getHL s) 0xffff ->
  let s' := digitFlags (writeMem (with_a s newA) (getHL s) newVal) in
  a s' = newA /\ getHL s' = getHL s /\
  readMem s' (getHL s) = Z.land newVal 0xff /\
  exists m', memory s' = Some m' /\ Memory.wf m'.
Proof.
  intros Hm Hwf Hram. cbv zeta.
  assert (M : memory (digitFlags (writeMem (with_a s newA) (getHL s) newVal))
              = Some (Memory.write m (Z.land (getHL s) 0xffff)
                        (Z.land newVal 0xff))).
  { unfold digitFlags. cbv zeta. cbn [memory with_tstates].
    rewrite !setFlag_memory, writeMem_eq. cbn [memory with_memory with_a].
    now rewrite Hm. }
  split; [|split; [|split]].
  - unfold digitFlags. cbv zeta. cbn [a with_tstates].
    rewrite !setFlag_a, writeMem_eq. reflexivity.
  - unfold digitFlags. cbv zeta.
    rewrite with_tstates_getHL, !setFlag_getHL, writeMem_eq. reflexivity.
  - unfold readMem. rewrite M.
    rewrite read_write_same by (try assumption; now rewrite land_ffff_idem).
    apply land_ff_idem.
  - eexists. split; [exact M|]. now apply write_wf.
Qed.

Lemma RLD_eq (s : t) :
  RLD s
  = digitFlags
      (writeMem
         (with_a s
            (Z.lor (Z.land (a s) 0xf0) (Z.shiftr (readMem s (getHL s)) 4)))
         (getHL s)
         (Z.land (Z.lor (Z.shiftl (readMem s (getHL s)) 4)
                    (Z.land (a s) 0x0f)) 0xff)).
Proof. reflexivity. Qed.

Lemma RRD_eq (s : t) :
  RRD s
  = digitFlags
      (writeMem
         (with_a s
            (Z.lor (Z.land (a s) 0xf0) (Z.land (readMem s (getHL s)) 0x0f)))
         (getHL s)
         (Z.land (Z.lor (Z.shiftr (readMem s (getHL s)) 4)
                    (Z.shiftl (a s) 4)) 0xff)).
Proof. reflexivity. Qed.

(** X15.  RLD rotates the three BCD digits held in the low half of A
    and in the byte at (HL) one place to the left, and RRD rotates them
    back: on a byte-sized A and a RAM cell at HL, RLD followed by RRD
    restores both A and the cell. *)
Theorem rld_then_rrd (s : t) (m : Memory.t)
    (Hm : memory s = Some m) (Hwf : Memory.wf m)
    (Hram : 0x4000 <= Z.land (getHL s) 0xffff)
    (Ha : byte (a s)) (Hv : byte (readMem s (getHL s))) :
  a (RLD s) = a s / 16 * 16 + readMem s (getHL s) / 16 /\
  readMem (RLD s) (getHL s)
  = readMem s (getHL s) mod 16 * 16 + a s mod 16 /\
  a (RRD (RLD s)) = a s /\
  readMem (RRD (RLD s)) (getHL s) = readMem s (getHL s).
Proof.
  destruct (digit_table _ _ Ha Hv) as (E1 & E2 & E3 & E4 & E5).
  cbv zeta in E1, E2, E3, E4, E5.
  remember (readMem s (getHL s)) as val eqn:Hval.
  remember (RLD s) as s1 eqn:Hs1.
  rewrite RLD_eq, <- Hval in Hs1.
  destruct (digit_step s m
              (Z.lor (Z.land (a s) 0xf0) (Z.shiftr val 4))
              (Z.land (Z.lor (Z.shiftl val 4) (Z.land (a s) 0x0f)) 0xff)
              Hm Hwf Hram) as (A1 & H1 & V1 & m1 & M1 & W1).
  rewrite <- Hs1 in A1, H1, V1, M1. rewrite E3 in V1.
  assert (Hram1 : 0x4000 <= Z.land (getHL s1) 0xffff) by now rewrite H1.
  destruct (digit_step s1 m1
              (Z.lor (Z.land (a s1) 0xf0)
                 (Z.land (readMem s1 (getHL s1)) 0x0f))
              (Z.land (Z.lor (Z.shiftr (readMem s1 (getHL s1)) 4)
                         (Z.shiftl (a s1) 4)) 0xff)
              M1 W1 Hram1) as (A2 & _ & V2 & _).
  rewrite <- RRD_eq, H1 in A2, V2. rewrite V1, A1 in A2, V2.
  split; [now rewrite A1|]. split; [now rewrite V1|].
  split; [now rewrite A2|]. now rewrite V2.
Qed.

Lemma rld_then_rrd_witness :
  a (RRD (RLD (with_a Sample.cpuBlock 0x12))) = 0x12.
Proof.
  refine (proj1 (proj2 (proj2
            (rld_then_rrd (with_a Sample.cpuBlock 0x12) Sample.memory0
               eq_refl _ _ _ _)))).
  - split; reflexivity.
  - apply Z.leb_le. vm_compute. reflexivity.
  - unfold byte. simpl. lia.
  - split; [apply Z.leb_le|apply Z.ltb_lt]; vm_compute; reflexivity.
Defined.
End ExtendedArithmetic.

(** ** Sixteen-bit arithmetic with carry *)

Section WordArithmetic.
Import Z80CPU.
Import ExtendedALU.

Lemma bit15 (x : Z) :
  truthy (Z.land x 0x8000) = (32768 <=? x mod 65536).
Proof.
  unfold truthy. change 0x8000 with (2 ^ 15). rewrite flag_bit by lia.
  rewrite <- (Z.mod_pow2_bits_low x 16 15) by lia.
  change (2 ^ 16) with 65536.
  pose proof (Z.mod_pos_bound x 65536 ltac:(lia)) as Hr.
  set (y := x mod 65536) in *. clearbody y.
  rewrite Z.testbit_odd, Z.shiftr_div_pow2 by lia. change (2 ^ 15) with 32768.
  destruct (Z.leb_spec 32768 y).
  - replace (y / 32768) with 1 by (apply (Z.div_unique y 32768 1 (y - 32768)); lia).
    reflexivity.
  - now rewrite Z.div_small by lia.
Qed.

Lemma bit16 (x : Z) :
  -65536 <= x < 131072 ->
  truthy (Z.land x 0x10000) = (x <? 0) || (65536 <=? x).
Proof.
  intros Hx.
  unfold truthy. change 0x10000 with (2 ^ 16). rewrite flag_bit by lia.
  rewrite Z.testbit_odd, Z.shiftr_div_pow2 by lia. change (2 ^ 16) with 65536.
  destruct (Z.ltb_spec x 0); [|destruct (Z.leb_spec 65536 x)]; cbn [orb].
  - replace (x / 65536) with (-1)
      by (apply (Z.div_unique x 65536 (-1) (x + 65536)); lia).
    reflexivity.
  - replace (x / 65536) with 1
      by (apply (Z.div_unique x 65536 1 (x - 65536)); lia).
    reflexivity.
  - now rewrite Z.div_small by lia.
Qed.

Lemma overflow_bits (p q : Z) :
  negb (Z.land (Z.land p q) 0x8000 =? 0)
  = Z.testbit p 15 && Z.testbit q 15.
Proof.
  change 0x8000 with (2 ^ 15). rewrite flag_bit by lia.
  apply Z.land_spec.
Qed.

Lemma sign_bit15 (x : Z) : Z.testbit x 15 = (32768 <=? x mod 65536).
Proof.
  rewrite <- bit15. unfold truthy. change 0x8000 with (2 ^ 15).
  now rewrite flag_bit by lia.
Qed.

Lemma SBC_HL_flags (rp : Z) (s : t) (flag : Z) :
  let hl := getHL s in
  let value := rpValue rp s in
  let carry := if getFlag s FLAG_C then 1 else 0 in
  let result := hl - value - carry in
  getFlag (SBC_HL rp s) flag
  = getFlag
      (setFlag (setFlag (setFlag (setFlag (setFlag (setFlag (setFlag
         (setFlag s FLAG_S (truthy (Z.land result 0x8000)))
         FLAG_Z (Z.land result 0xffff =? 0))
         FLAG_H
           (truthy (Z.land (Z.land hl 0x0fff - Z.land value 0x0fff - carry)
                      0x1000)))
         FLAG_PV
           (negb (Z.land (Z.land (Z.lxor hl value) (Z.lxor hl result)) 0x8000
                  =? 0)))
         FLAG_N true)
         FLAG_C (negb (Z.land result 0x10000 =? 0)))
         FLAG_Y (truthy (Z.land (Z.shiftr result 8) 0x20)))
         FLAG_X (truthy (Z.land (Z.shiftr result 8) 0x08))) flag.
Proof. reflexivity. Qed.

Lemma ADC_HL_flags (rp : Z) (s : t) (flag : Z) :
  let hl := getHL s in
  let value := rpValue rp s in
  let carry := if getFlag s FLAG_C then 1 else 0 in
  let result := hl + value + carry in
  getFlag (ADC_HL rp s) flag
  = getFlag
      (setFlag (setFlag (setFlag (setFlag (setFlag (setFlag (setFlag
         (setFlag s FLAG_S (truthy (Z.land result 0x8000)))
         FLAG_Z (Z.land result 0xffff =? 0))
         FLAG_H
           (truthy (Z.land (Z.land hl 0x0fff + Z.land value 0x0fff + carry)
                      0x1000)))
         FLAG_PV
           (negb (Z.land (Z.land (Z.lxor hl result) (Z.lxor value result))
                    0x8000 =? 0)))
         FLAG_N false)
         FLAG_C (truthy (Z.land result 0x10000)))
         FLAG_Y (truthy (Z.land (Z.shiftr result 8) 0x20)))
         FLAG_X (truthy (Z.land (Z.shiftr result 8) 0x08))) flag.
Proof. reflexivity. Qed.

Lemma SBC_HL_result (rp : Z) (s : t) :
  getHL (SBC_HL rp s)
  = Z.land (Z.land (getHL s - rpValue rp s
                    - (if getFlag s FLAG_C then 1 else 0)) 0xffff) 0xffff /\
  tstates (SBC_HL rp s) = tstates s + 15.
Proof.
  unfold SBC_HL. cbv zeta.
  rewrite with_tstates_getHL, getHL_setHL.
  split; [reflexivity|].
  cbn [tstates with_tstates setHL with_h with_l].
  now rewrite !setFlag_tstates.
Qed.

Lemma ADC_HL_result (rp : Z) (s : t) :
  getHL (ADC_HL rp s)
  = Z.land (Z.land (getHL s + rpValue rp s
                    + (if getFlag s FLAG_C then 1 else 0)) 0xffff) 0xffff /\
  tstates (ADC_HL rp s) = tstates s + 15.
Proof.
  unfold ADC_HL. cbv zeta.
  rewrite with_tstates_getHL, getHL_setHL.
  split; [reflexivity|].
  cbn [tstates with_tstates setHL with_h with_l].
  now rewrite !setFlag_tstates.
Qed.

(** X16.  SBC HL,rp and ADC HL,rp on 16-bit operands: HL receives the
    difference (the sum) with the incoming carry, modulo 65536; C is the
    borrow (the carry out of bit 15), Z and S describe the new HL, P/V
    is signed overflow of the 16-bit two's-complement result, N tells
    the two apart, and fifteen T-states pass. *)
Theorem adc_sbc_hl (s : t) (rp : Z)
    (Hhl : word (getHL s)) (Hv : word (rpValue rp s)) :
  let cin := if getFlag s FLAG_C then 1 else 0 in
  let sg := fun x => if 32768 <=? x then x - 65536 else x in
  (let r := getHL s - rpValue rp s - cin in
   let sr := sg (getHL s) - sg (rpValue rp s) - cin in
   let s' := SBC_HL rp s in
   getHL s' = r mod 65536 /\
   getFlag s' FLAG_C = (r <? 0) /\
   getFlag s' FLAG_Z = (r mod 65536 =? 0) /\
   getFlag s' FLAG_S = (32768 <=? r mod 65536) /\
   getFlag s' FLAG_PV = negb ((-32768 <=? sr) && (sr <=? 32767)) /\
   getFlag s' FLAG_N = true /\
   tstates s' = tstates s + 15) /\
  (let r := getHL s + rpValue rp s + cin in
   let sr := sg (getHL s) + sg (rpValue rp s) + cin in
   let s' := ADC_HL rp s in
   getHL s' = r mod 65536 /\
   getFlag s' FLAG_C = (65536 <=? r) /\
   getFlag s' FLAG_Z = (r mod 65536 =? 0) /\
   getFlag s' FLAG_S = (32768 <=? r mod 65536) /\
   getFlag s' FLAG_PV = negb ((-32768 <=? sr) && (sr <=? 32767)) /\
   getFlag s' FLAG_N = false /\
   tstates s' = tstates s + 15).
Proof.
  cbv beta zeta.
  set (cin := if getFlag s FLAG_C then 1 else 0).
  assert (Hc : cin = 0 \/ cin = 1)
    by (subst cin; destruct (getFlag _ _); auto).
  set (x := getHL s) in *. set (v := rpValue rp s) in *.
  unfold word in Hhl, Hv.
  assert (X15 : Z.testbit x 15 = (32768 <=? x))
    by (rewrite sign_bit15, Z.mod_small by lia; reflexivity).
  assert (V15 : Z.testbit v 15 = (32768 <=? v))
    by (rewrite sign_bit15, Z.mod_small by lia; reflexivity).
  split.
  - destruct (SBC_HL_result rp s) as [R T]. fold cin x v in R.
    pose proof (fun flag => SBC_HL_flags rp s flag) as F.
    cbv zeta in F. fold cin x v in F.
    set (r := x - v - cin) in *.
    assert (Hr : r = x - v - cin) by reflexivity.
    rewrite !F, R, T. clear F R T. read_flags.
    rewrite land_ffff_idem, !land_ffff_mod, bit15.
    fold (truthy (Z.land r 0x10000)). rewrite bit16 by lia.
    rewrite overflow_bits, !Z.lxor_spec, X15, V15, sign_bit15.
    pose proof (Z.mod_pos_bound r 65536 ltac:(lia)) as Hm.
    pose proof (Z.div_mod r 65536 ltac:(lia)) as Hd.
    repeat split; try reflexivity.
    + destruct (Z.ltb_spec r 0), (Z.leb_spec 65536 r); try reflexivity; lia.
    + destruct (Z.leb_spec 32768 x), (Z.leb_spec 32768 v),
        (Z.leb_spec 32768 (r mod 65536)); cbn [xorb andb negb];
        cbv iota;
        symmetry;
        first [ apply negb_false_iff, andb_true_iff;
                split; apply Z.leb_le; lia
              | apply negb_true_iff, not_true_is_false;
                rewrite andb_true_iff, !Z.leb_le; lia ].
  - destruct (ADC_HL_result rp s) as [R T]. fold cin x v in R.
    pose proof (fun flag => ADC_HL_flags rp s flag) as F.
    cbv zeta in F. fold cin x v in F.
    set (r := x + v + cin) in *.
    assert (Hr : r = x + v + cin) by reflexivity.
    rewrite !F, R, T. clear F R T. read_flags.
    rewrite land_ffff_idem, !land_ffff_mod, bit15.
    rewrite bit16 by lia.
    rewrite overflow_bits, !Z.lxor_spec, X15, V15, sign_bit15.
    pose proof (Z.mod_pos_bound r 65536 ltac:(lia)) as Hm.
    pose proof (Z.div_mod r 65536 ltac:(lia)) as Hd.
    repeat split; try reflexivity.
    + destruct (Z.ltb_spec r 0), (Z.leb_spec 65536 r); try reflexivity; lia.
    + destruct (Z.leb_spec 32768 x), (Z.leb_spec 32768 v),
        (Z.leb_spec 32768 (r mod 65536)); cbn [xorb andb negb];
        cbv iota;
        symmetry;
        first [ apply negb_false_iff, andb_true_iff;
                split; apply Z.leb_le; lia
              | apply negb_true_iff, not_true_is_false;
                rewrite andb_true_iff, !Z.leb_le; lia ].
Qed.

Lemma adc_sbc_hl_witness :
  getHL (SBC_HL 1 Sample.cpuBlock) = (0x8000 - 0x9000 - 0) mod 65536.
Proof.
  refine (proj1 (proj1 (adc_sbc_hl Sample.cpuBlock 1 _ _)));
    split; (apply Z.leb_le || apply Z.ltb_lt); vm_compute; reflexivity.
Defined.
End WordArithmetic.

(** ** Exchanges, memory words, jumps, calls and returns *)

Section ControlFlow.
Import Z80CPU.
Import BaseALU.

(** X17.  The exchange instructions are involutions: two EXX, two
    EX AF,AF' and, on byte-sized D, E, H and L, two EX DE,HL give back
    the starting state eight T-states later; EXX leaves AF and the
    shadow AF alone; EX DE,HL swaps the two pairs. *)
Theorem exchanges_are_involutions (s : t) :
  EXX (EXX s) = with_tstates s (tstates s + 8) /\
  EX_AF (EX_AF s) = with_tstates s (tstates s + 8) /\
  (a (EXX s) = a s /\ f (EXX s) = f s /\
   a_ (EXX s) = a_ s /\ f_ (EXX s) = f_ s) /\
  (byte (d s) -> byte (e s) -> byte (h s) -> byte (l s) ->
   EX_DE_HL (EX_DE_HL s) = with_tstates s (tstates s + 8) /\
   getDE (EX_DE_HL s) = getHL s /\ getHL (EX_DE_HL s) = getDE s).
Proof.
  split; [|split; [|split]].
  - destruct s. unfold EXX. record_cbv. f_equal. lia.
  - destruct s. unfold EX_AF. record_cbv. f_equal. lia.
  - repeat split.
  - intros Hd He Hh Hl.
    assert (E : EX_DE_HL s
                = with_tstates
                    (with_l (with_h (with_e (with_d s (h s)) (l s)) (d s))
                       (e s)) (tstates s + 4)).
    { unfold EX_DE_HL, setDE, setHL, getDE, getHL. cbv zeta.
      cbn [d e h l with_d with_e with_h with_l tstates].
      now rewrite !pair_high, !pair_low by assumption. }
    split; [|split].
    + rewrite E at 1.
      unfold EX_DE_HL, setDE, setHL, getDE, getHL. cbv zeta.
      cbn [d e h l with_d with_e with_h with_l with_tstates tstates].
      rewrite !pair_high, !pair_low by assumption.
      destruct s. record_cbv. f_equal. lia.
    + now rewrite E.
    + now rewrite E.
Qed.

Lemma exchanges_are_involutions_witness :
  getDE (EX_DE_HL Sample.cpuBlock) = getHL Sample.cpuBlock.
Proof.
  destruct (exchanges_are_involutions Sample.cpuBlock) as (_ & _ & _ & H).
  apply H; unfold byte; simpl; lia.
Defined.

Lemma readMem_memory (s : t) (m : Memory.t) (addr : Z) :
  memory s = Some m -> readMem s addr = Memory.read m (Z.land addr 0xffff).
Proof. unfold readMem. now intros ->. Qed.

Lemma land_ffff_next (x : Z) :
  Z.land x 0xffff <> Z.land (Z.land (x + 1) 0xffff) 0xffff.
Proof.
  rewrite land_ffff_idem, !land_ffff_mod.
  intros E.
  assert (H : (x + 1 - x) mod 65536 = 0).
  { rewrite Zminus_mod, <- E, Z.sub_diag. reflexivity. }
  replace (x + 1 - x) with 1 in H by lia. discriminate H.
Qed.

Lemma writeMemWord_memory (s : t) (m : Memory.t) (addr val : Z) :
  memory s = Some m ->
  memory (writeMemWord s addr val)
  = Some (Memory.write
            (Memory.write m addr (Z.land val 0xff))
            (Z.land (addr + 1) 0xffff) (Z.land (Z.shiftr val 8) 0xff)).
Proof.
  intros Hm. unfold writeMemWord. cbv zeta.
  rewrite !writeMem_eq. cbn [memory with_memory]. rewrite Hm.
  cbn [option_map]. now rewrite !write_masked.
Qed.

Lemma word_roundtrip (m : Memory.t) (addr val : Z) :
  Memory.wf m ->
  0x4000 <= Z.land addr 0xffff ->
  0x4000 <= Z.land (addr + 1) 0xffff ->
  let m' := Memory.write
              (Memory.write m addr (Z.land val 0xff))
              (Z.land (addr + 1) 0xffff) (Z.land (Z.shiftr val 8) 0xff) in
  Memory.read m' (Z.land addr 0xffff) = Z.land val 0xff /\
  Memory.read m' (Z.land (Z.land (addr + 1) 0xffff) 0xffff)
  = Z.land (Z.shiftr val 8) 0xff /\
  Memory.wf m'.
Proof.
  intros Hwf H0 H1. cbv zeta. split; [|split].
  - rewrite read_write_other.
    + rewrite read_masked, read_write_same by assumption.
      apply land_ff_idem.
    + rewrite !land_ffff_idem. intros E. apply (land_ffff_next addr).
      now rewrite land_ffff_idem.
  - rewrite land_ffff_idem, read_write_same;
      [apply land_ff_idem|now apply write_wf|now rewrite land_ffff_idem].
  - now apply write_wf, write_wf.
Qed.

Lemma readMemWord_memory (s1 s2 : t) (addr : Z) :
  memory s1 = memory s2 -> readMemWord s1 addr = readMemWord s2 addr.
Proof. unfold readMemWord, readMem. now intros ->. Qed.

Lemma fetchWord_facts (s : t) :
  fst (InstructionDecoder.fetchWord s) = readMemWord s (pc s) /\
  pc (snd (InstructionDecoder.fetchWord s)) = Z.land (pc s + 2) 0xffff /\
  memory (snd (InstructionDecoder.fetchWord s)) = memory s /\
  getHL (snd (InstructionDecoder.fetchWord s)) = getHL s.
Proof.
  unfold InstructionDecoder.fetchWord, InstructionDecoder.fetchByte.
  cbv zeta. cbn [fst snd].
  repeat split.
  cbn [pc incR with_r with_pc]. rewrite land_ffff_succ. f_equal. lia.
Qed.

(** X18.  A 16-bit word written with [writeMemWord] to two RAM cells is
    stored low byte first and is read back by [readMemWord] reduced to
    sixteen bits.  So EX (SP),HL, when SP is the address, leaves the old
    HL in the word at SP and the old word in HL; LD (nn),HL, when nn is
    the address, leaves HL in the word at nn; and LD HL,(nn) loads HL
    with the word at the address that follows the opcode. *)
Theorem memory_word_roundtrip (s : t) (m : Memory.t) (addr val : Z)
    (Hm : memory s = Some m) (Hwf : Memory.wf m)
    (H0 : 0x4000 <= Z.land addr 0xffff)
    (H1 : 0x4000 <= Z.land (addr + 1) 0xffff) :
  readMem (writeMemWord s addr val) addr = Z.land val 0xff /\
  readMem (writeMemWord s addr val) (addr + 1)
  = Z.land (Z.shiftr val 8) 0xff /\
  readMemWord (writeMemWord s addr val) addr = Z.land val 0xffff /\
  (sp s = addr ->
   readMemWord (EX_SP_HL s) addr = Z.land (getHL s) 0xffff /\
   getHL (EX_SP_HL s) = Z.land (readMemWord s addr) 0xffff /\
   sp (EX_SP_HL s) = sp s /\ tstates (EX_SP_HL s) = tstates s + 19) /\
  (readMemWord s (pc s) = addr ->
   readMemWord (LD_nn_HL s) addr = Z.land (getHL s) 0xffff /\
   pc (LD_nn_HL s) = Z.land (pc s + 2) 0xffff /\
   tstates (LD_nn_HL s) = tstates s + 16) /\
  getHL (LD_HL_nn s) = Z.land (readMemWord s (readMemWord s (pc s))) 0xffff /\
  pc (LD_HL_nn s) = Z.land (pc s + 2) 0xffff.
Proof.
  assert (W : forall (s0 : t) v,
             memory s0 = Some m ->
             readMem (writeMemWord s0 addr v) addr = Z.land v 0xff /\
             readMem (writeMemWord s0 addr v) (addr + 1)
             = Z.land (Z.shiftr v 8) 0xff /\
             readMemWord (writeMemWord s0 addr v) addr = Z.land v 0xffff).
  { intros s0 v Hm0.
    destruct (word_roundtrip m addr v Hwf H0 H1) as (L & H & _).
    cbv zeta in L, H.
    pose proof (writeMemWord_memory s0 m addr v Hm0) as M.
    assert (EL : readMem (writeMemWord s0 addr v) addr = Z.land v 0xff)
      by (rewrite (readMem_memory _ _ _ M); exact L).
    assert (EH : readMem (writeMemWord s0 addr v) (Z.land (addr + 1) 0xffff)
                 = Z.land (Z.shiftr v 8) 0xff)
      by (rewrite (readMem_memory _ _ _ M); exact H).
    split; [exact EL|]. split.
    - rewrite (readMem_memory _ _ _ M).
      rewrite land_ffff_idem in H. exact H.
    - unfold readMemWord. cbv zeta. rewrite EL, EH. apply pair_mask. }
  destruct (W s val Hm) as (W1 & W2 & W3).
  destruct (fetchWord_facts s) as (F1 & F2 & F3 & F4).
  split; [exact W1|]. split; [exact W2|]. split; [exact W3|].
  split; [|split; [|split]].
  - intros Hsp.
    assert (E : EX_SP_HL s
                = with_tstates
                    (setHL (writeMemWord s (sp s) (getHL s))
                       (readMemWord s (sp s)))
                    (tstates
                       (setHL (writeMemWord s (sp s) (getHL s))
                          (readMemWord s (sp s))) + 19)) by reflexivity.
    rewrite E, Hsp.
    split; [|split; [|split]].
    + rewrite (readMemWord_memory _ (writeMemWord s addr (getHL s)))
        by now cbn [memory with_tstates setHL with_h with_l].
      apply (W s (getHL s) Hm).
    + rewrite with_tstates_getHL. apply getHL_setHL.
    + cbn [sp with_tstates setHL with_h with_l].
      unfold writeMemWord. cbv zeta. now rewrite !writeMem_eq.
    + cbn [tstates with_tstates setHL with_h with_l].
      unfold writeMemWord. cbv zeta. now rewrite !writeMem_eq.
  - intros Hnn.
    assert (E : LD_nn_HL s
                = (let s1 := snd (InstructionDecoder.fetchWord s) in
                   let s2 := writeMemWord s1
                               (fst (InstructionDecoder.fetchWord s))
                               (getHL s1) in
                   with_tstates s2 (tstates s2 + 16))).
    { unfold LD_nn_HL. now destruct (InstructionDecoder.fetchWord s). }
    cbv zeta in E. rewrite E, F1, F4, Hnn.
    split; [|split].
    + rewrite (readMemWord_memory _
                 (writeMemWord (snd (InstructionDecoder.fetchWord s)) addr
                    (getHL s))) by now cbn [memory with_tstates].
      apply W; now rewrite ?F3.
    + cbn [pc with_tstates]. unfold writeMemWord. cbv zeta.
      rewrite !writeMem_eq. cbn [pc with_memory]. exact F2.
    + cbn [tstates with_tstates]. unfold writeMemWord. cbv zeta.
      rewrite !writeMem_eq. reflexivity.
  - assert (E : LD_HL_nn s
                = (let s1 := snd (InstructionDecoder.fetchWord s) in
                   let s2 := setHL s1
                               (readMemWord s1
                                  (fst (InstructionDecoder.fetchWord s))) in
                   with_tstates s2 (tstates s2 + 16))).
    { unfold LD_HL_nn. now destruct (InstructionDecoder.fetchWord s). }
    cbv zeta in E. rewrite E, with_tstates_getHL, getHL_setHL, F1.
    f_equal; try (apply readMemWord_memory; exact F3).
  - assert (E : LD_HL_nn s
                = (let s1 := snd (InstructionDecoder.fetchWord s) in
                   let s2 := setHL s1
                               (readMemWord s1
                                  (fst (InstructionDecoder.fetchWord s))) in
                   with_tstates s2 (tstates s2 + 16))).
    { unfold LD_HL_nn. now destruct (InstructionDecoder.fetchWord s). }
    cbv zeta in E. rewrite E. exact F2.
Qed.

Lemma memory_word_roundtrip_witness :
  readMemWord (writeMemWord Sample.cpuBlock 0x8000 0x1234) 0x8000
  = Z.land 0x1234 0xffff.
Proof.
  refine (proj1 (proj2 (proj2
            (memory_word_roundtrip Sample.cpuBlock Sample.memory0 0x8000
               0x1234 eq_refl _ _ _)))).
  - split; reflexivity.
  - apply Z.leb_le. vm_compute. reflexivity.
  - apply Z.leb_le. vm_compute. reflexivity.
Defined.
End ControlFlow.

Section JumpsAndReturns.
Import Z80CPU.
Import BaseALU.
Import InstructionDecoder.

Lemma toSigned_range (v : Z) :
  byte v ->
  -128 <= toSigned v < 128 /\ (toSigned v - v) mod 256 = 0 /\
  (v = 0xfe -> toSigned v = -2).
Proof.
  intros Hv.
  pose proof (forall_bytes
    (fun v =>
       (-128 <=? toSigned v) && (toSigned v <? 128)
       && ((toSigned v - v) mod 256 =? 0))
    ltac:(vm_compute; reflexivity) v Hv) as H.
  cbv beta in H. rewrite !andb_true_iff in H.
  destruct H as ((H1 & H2) & H3).
  apply Z.leb_le in H1. apply Z.ltb_lt in H2. apply Z.eqb_eq in H3.
  repeat split; try assumption. now intros ->.
Qed.

Lemma fetchByte_spec (s : t) :
  fst (fetchByte s) = readMem s (pc s) /\
  pc (snd (fetchByte s)) = Z.land (pc s + 1) 0xffff /\
  memory (snd (fetchByte s)) = memory s /\
  sp (snd (fetchByte s)) = sp s /\
  tstates (snd (fetchByte s)) = tstates s /\
  b (snd (fetchByte s)) = b s.
Proof. repeat split. Qed.

Lemma land_ffff_add (x y : Z) :
  Z.land (Z.land x 0xffff + y) 0xffff = Z.land (x + y) 0xffff.
Proof. rewrite !land_ffff_mod. apply Zplus_mod_idemp_l. Qed.

(** X19.  JR d moves PC to the address after its operand plus the
    operand read as a signed byte, modulo 65536, in twelve T-states;
    DJNZ d decrements B modulo 256 and takes the same jump in thirteen
    T-states unless B has reached zero, when it falls through in
    eight.  The displacement of a byte lies in -128..127, and 0xFE
    leads back to the opcode. *)
Theorem relative_jumps (s : t) (Hd : byte (readMem s (pc s))) :
  let disp := toSigned (readMem s (pc s)) in
  -128 <= disp < 128 /\
  pc (JR s) = (pc s + 1 + disp) mod 65536 /\
  tstates (JR s) = tstates s + 12 /\
  (readMem s (pc s) = 0xfe -> pc (JR s) = (pc s - 1) mod 65536) /\
  b (DJNZ s) = (b s - 1) mod 256 /\
  ((b s - 1) mod 256 <> 0 ->
   pc (DJNZ s) = (pc s + 1 + disp) mod 65536 /\
   tstates (DJNZ s) = tstates s + 13) /\
  ((b s - 1) mod 256 = 0 ->
   pc (DJNZ s) = (pc s + 1) mod 65536 /\
   tstates (DJNZ s) = tstates s + 8).
Proof.
  cbv zeta. destruct (toSigned_range _ Hd) as (R & _ & Hfe).
  assert (J : pc (JR s)
              = (pc s + 1 + toSigned (readMem s (pc s))) mod 65536).
  { unfold JR, fetchByte. cbv zeta. cbn [pc with_pc with_tstates incR with_r].
    now rewrite land_ffff_add, land_ffff_mod. }
  assert (D : DJNZ s
              = let s1 := with_b (snd (fetchByte s))
                            (Z.land (b s - 1) 0xff) in
                if negb (Z.land (b s - 1) 0xff =? 0)
                then with_tstates
                       (with_pc s1
                          (Z.land (Z.land (pc s + 1) 0xffff
                                   + toSigned (readMem s (pc s))) 0xffff))
                       (tstates s + 13)
                else with_tstates s1 (tstates s + 8))
    by reflexivity.
  cbv zeta in D. rewrite land_ff_mod in D.
  split; [exact R|]. split; [exact J|]. split; [reflexivity|].
  split; [intros E; rewrite J, (Hfe E); f_equal; lia|].
  split; [rewrite D; now destruct (_ =? 0)|].
  split; intros Hb.
  - apply Z.eqb_neq in Hb. rewrite D, Hb. cbn [negb pc tstates with_pc
      with_tstates]. now rewrite land_ffff_add, land_ffff_mod.
  - apply Z.eqb_eq in Hb. rewrite D, Hb.
    cbn [negb pc tstates with_pc with_tstates with_b].
    split; [|reflexivity].
    unfold fetchByte. cbv zeta. cbn [snd pc incR with_r with_pc].
    apply land_ffff_mod.
Qed.

Lemma relative_jumps_witness :
  pc (JR Sample.cpuBlock)
  = (0 + 1 + toSigned (readMem Sample.cpuBlock 0)) mod 65536.
Proof.
  refine (proj1 (proj2 (relative_jumps Sample.cpuBlock _))).
  split; [apply Z.leb_le|apply Z.ltb_lt]; vm_compute; reflexivity.
Defined.

Lemma fetchWord_spec (s : t) :
  fst (fetchWord s) = readMemWord s (pc s) /\
  pc (snd (fetchWord s)) = Z.land (pc s + 2) 0xffff /\
  memory (snd (fetchWord s)) = memory s /\
  sp (snd (fetchWord s)) = sp s /\
  tstates (snd (fetchWord s)) = tstates s.
Proof.
  unfold fetchWord, fetchByte. cbv zeta. cbn [fst snd].
  repeat split.
  cbn [pc incR with_r with_pc]. rewrite land_ffff_succ. f_equal. lia.
Qed.

Lemma pop_same (s1 s2 : t) :
  memory s1 = memory s2 -> sp s1 = sp s2 ->
  fst (pop s1) = fst (pop s2) /\ sp (snd (pop s1)) = sp (snd (pop s2)).
Proof.
  intros Hm Hs. unfold pop, readMem. cbv zeta.
  cbn [fst snd sp memory with_sp]. now rewrite Hm, Hs.
Qed.

Lemma pop_tstates (s : t) : tstates (snd (pop s)) = tstates s.
Proof. reflexivity. Qed.

(** What a return sees after a push, whatever else changed besides
    memory and SP. *)
Lemma pop_after_push (s0 x : t) (m : Memory.t) (v : Z) :
  memory s0 = Some m -> Memory.wf m -> word (sp s0) -> word v ->
  0x4000 <= Z.land (sp s0 - 1) 0xffff ->
  0x4000 <= Z.land (sp s0 - 2) 0xffff ->
  memory x = memory (push s0 v) -> sp x = sp (push s0 v) ->
  fst (pop x) = v /\ sp (snd (pop x)) = sp s0.
Proof.
  intros Hm Hwf Hsp Hv H1 H2 Mx Sx.
  destruct (pop_same x (push s0 v) Mx Sx) as [E1 E2].
  destruct (pop_push s0 m v Hm Hwf Hsp Hv H1 H2) as [P1 P2].
  split; congruence.
Qed.

Lemma CALL_eq (s : t) :
  CALL s
  = with_tstates
      (with_pc (push (snd (fetchWord s)) (pc (snd (fetchWord s))))
         (fst (fetchWord s)))
      (tstates
         (with_pc (push (snd (fetchWord s)) (pc (snd (fetchWord s))))
            (fst (fetchWord s))) + 17).
Proof. unfold CALL. now destruct (fetchWord s). Qed.

Lemma RET_eq (s : t) :
  pc (Base.RET s) = fst (pop s) /\
  sp (Base.RET s) = sp (snd (pop s)) /\
  tstates (Base.RET s) = tstates s + 10.
Proof.
  unfold Base.RET, pop. cbv zeta.
  cbn [fst snd pc sp tstates with_pc with_tstates with_sp].
  repeat split.
Qed.

(** X20.  CALL nn pushes the address of the instruction after it and
    jumps to nn; with the two stack bytes in RAM, the RET that follows
    comes back to that address with SP as before the call, 27 T-states
    after it.  RST t pushes PC and jumps to 8t, and a RET brings a
    16-bit PC back. *)
Theorem call_then_ret (s : t) (m : Memory.t)
    (Hm : memory s = Some m) (Hwf : Memory.wf m) (Hsp : word (sp s))
    (H1 : 0x4000 <= Z.land (sp s - 1) 0xffff)
    (H2 : 0x4000 <= Z.land (sp s - 2) 0xffff) :
  pc (CALL s) = readMemWord s (pc s) /\
  sp (CALL s) = Z.land (sp s - 2) 0xffff /\
  pc (Base.RET (CALL s)) = Z.land (pc s + 2) 0xffff /\
  sp (Base.RET (CALL s)) = sp s /\
  tstates (Base.RET (CALL s)) = tstates s + 27 /\
  (forall t0,
     pc (RST t0 s) = t0 * 8 /\
     sp (RST t0 s) = Z.land (sp s - 2) 0xffff /\
     (word (pc s) ->
      pc (Base.RET (RST t0 s)) = pc s /\
      sp (Base.RET (RST t0 s)) = sp s /\
      tstates (Base.RET (RST t0 s)) = tstates s + 21)).
Proof.
  destruct (fetchWord_spec s) as (F1 & F2 & F3 & F4 & F5).
  assert (Call : pc (CALL s) = readMemWord s (pc s) /\
                 sp (CALL s) = Z.land (sp s - 2) 0xffff /\
                 pc (Base.RET (CALL s)) = Z.land (pc s + 2) 0xffff /\
                 sp (Base.RET (CALL s)) = sp s /\
                 tstates (Base.RET (CALL s)) = tstates s + 27).
  { destruct (RET_eq (CALL s)) as (R1 & R2 & R3).
    rewrite R1, R2, R3. rewrite CALL_eq.
    set (s1 := snd (fetchWord s)) in *.
    cbn [pc sp tstates with_pc with_tstates].
    rewrite push_sp, push_tstates, F4, F5.
    assert (Hpc : word (pc s1)) by (rewrite F2; apply land_ffff_range).
    destruct (pop_after_push s1
                (with_tstates
                   (with_pc (push s1 (pc s1)) (fst (fetchWord s)))
                   (tstates s + 17))
                m (pc s1)) as [P1 P2];
      try (rewrite ?F3, ?F4; assumption); try reflexivity.
    rewrite P1, P2, F1, F2, F4.
    repeat split; try reflexivity. lia. }
  destruct Call as (C1 & C2 & C3 & C4 & C5).
  repeat (split; [assumption|]).
  intros t0.
  assert (E : RST t0 s
              = with_tstates (with_pc (push s (pc s)) (t0 * 8))
                  (tstates (with_pc (push s (pc s)) (t0 * 8)) + 11))
    by reflexivity.
  destruct (RET_eq (RST t0 s)) as (R1 & R2 & R3).
  rewrite R1, R2, R3, E.
  cbn [pc sp tstates with_pc with_tstates].
  rewrite push_sp, push_tstates.
  split; [reflexivity|]. split; [reflexivity|].
  intros Hpc.
  destruct (pop_after_push s
              (with_tstates (with_pc (push s (pc s)) (t0 * 8))
                 (tstates s + 11))
              m (pc s)) as [P1 P2];
    try assumption; try reflexivity.
  rewrite P1, P2. repeat split; try reflexivity. lia.
Qed.

Lemma call_then_ret_witness :
  pc (Base.RET (CALL Sample.cpuStackRam)) = Z.land (0 + 2) 0xffff.
Proof.
  refine (proj1 (proj2 (proj2
            (call_then_ret Sample.cpuStackRam Sample.memory0 eq_refl
               _ _ _ _)))).
  - split; reflexivity.
  - unfold word. simpl. lia.
  - apply Z.leb_le. vm_compute. reflexivity.
  - apply Z.leb_le. vm_compute. reflexivity.
Defined.

Lemma RETN_eq (s : t) :
  pc (Extended.RETN s) = fst (pop (with_iff1 s (iff2 s))) /\
  sp (Extended.RETN s) = sp (snd (pop (with_iff1 s (iff2 s)))) /\
  iff1 (Extended.RETN s) = iff2 s /\ iff2 (Extended.RETN s) = iff2 s /\
  tstates (Extended.RETN s) = tstates s + 14.
Proof.
  unfold Extended.RETN, pop. cbv zeta.
  cbn [fst snd pc sp tstates iff1 iff2 with_pc with_tstates with_sp
         with_iff1].
  repeat split.
Qed.


(** X21.  A non-maskable interrupt jumps to 0x0066 with IFF1 cleared
    and its old value kept in IFF2; with the stack in RAM, the RETN of
    the handler comes back to the interrupted address with SP and IFF1
    as they were, 25 T-states later. *)
Theorem nmi_then_retn (s : t) (m : Memory.t)
    (Hm : memory s = Some m) (Hwf : Memory.wf m)
    (Hsp : word (sp s)) (Hpc : word (pc s))
    (H1 : 0x4000 <= Z.land (sp s - 1) 0xffff)
    (H2 : 0x4000 <= Z.land (sp s - 2) 0xffff) :
  pc (nmi s) = 0x0066 /\ iff1 (nmi s) = false /\ iff2 (nmi s) = iff1 s /\
  halted (nmi s) = false /\
  pc (Extended.RETN (nmi s)) = pc s /\
  sp (Extended.RETN (nmi s)) = sp s /\
  iff1 (Extended.RETN (nmi s)) = iff1 s /\
  tstates (Extended.RETN (nmi s)) = tstates s + 25.
Proof.
  destruct (RETN_eq (nmi s)) as (R1 & R2 & R3 & _ & R5).
  rewrite R1, R2, R3, R5.
  set (s0 := with_iff1
               (with_iff2 (with_halted s false)
                  (iff1 (with_halted s false))) false).
  assert (N : nmi s
              = with_tstates (with_pc (push s0 (pc s0)) 0x0066)
                  (tstates (with_pc (push s0 (pc s0)) 0x0066) + 11)).
  { unfold nmi. cbv zeta. subst s0. reflexivity. }
  assert (I : forall v, iff1 (push s0 v) = false /\ iff2 (push s0 v) = iff1 s
                        /\ halted (push s0 v) = false).
  { intros v. unfold push. cbv zeta. rewrite !writeMem_eq. repeat split. }
  destruct (I (pc s0)) as (I1 & I2 & I3).
  destruct (pop_after_push s0 (with_iff1 (nmi s) (iff2 (nmi s))) m (pc s0))
    as [P1 P2]; try assumption; try (rewrite N; reflexivity).
  rewrite P1, P2. rewrite N.
  cbn [pc iff1 iff2 halted tstates with_pc with_tstates].
  rewrite push_tstates, I1, I2, I3.
  repeat split; try reflexivity.
  subst s0. cbn [tstates with_iff1 with_iff2 with_halted]. lia.
Qed.

Lemma nmi_then_retn_witness :
  pc (Extended.RETN (nmi Sample.cpuStackRam)) = 0.
Proof.
  refine (proj1 (proj2 (proj2 (proj2 (proj2
            (nmi_then_retn Sample.cpuStackRam Sample.memory0 eq_refl
               _ _ _ _ _)))))).
  - split; reflexivity.
  - unfold word. simpl. lia.
  - unfold word. simpl. lia.
  - apply Z.leb_le. vm_compute. reflexivity.
  - apply Z.leb_le. vm_compute. reflexivity.
Defined.


End JumpsAndReturns.

(** ** Runs of the decoder *)

Section DecoderRuns.
Import Z80CPU.
Import InstructionDecoder.

(** X23.  A halted CPU only burns time: [n] steps of the decoder add
    4n T-states and change nothing else, the refresh register and PC
    included, and the CPU is still halted. *)
Theorem halted_steps (s : t) (n : nat) (Hh : halted s = true) :
  Run.steps n s = Some (with_tstates s (tstates s + 4 * Z.of_nat n)).
Proof.
  revert s Hh. induction n as [|n IH]; intros s Hh.
  - cbn [Run.steps]. change (Z.of_nat 0) with 0.
    rewrite Z.mul_0_r, Z.add_0_r. now destruct s.
  - cbn [Run.steps]. unfold executeInstruction. rewrite Hh.
    rewrite IH by exact Hh. f_equal.
    destruct s. record_cbv. f_equal. lia.
Qed.

Lemma halted_steps_witness :
  Run.steps 5 (with_halted Sample.cpuBlock true)
  = Some (with_tstates (with_halted Sample.cpuBlock true)
            (tstates (with_halted Sample.cpuBlock true) + 4 * Z.of_nat 5)).
Proof.
  apply (halted_steps (with_halted Sample.cpuBlock true) 5). reflexivity.
Defined.

Lemma setFlag_halted (s : t) (flag : Z) (value : bool) :
  halted (setFlag s flag value) = halted s.
Proof. now destruct value. Qed.

(** One LDIR, seen through the registers the repeat loop depends on. *)
Lemma ldir_step (s : t) :
  memory (Extended.LDIR s)
  = memory (writeMem s (getDE s) (readMem s (getHL s))) /\
  getHL (Extended.LDIR s) = Z.land (getHL s + 1) 0xffff /\
  getDE (Extended.LDIR s) = Z.land (getDE s + 1) 0xffff /\
  getBC (Extended.LDIR s) = Z.land (getBC s - 1) 0xffff /\
  halted (Extended.LDIR s) = halted s /\
  pc (Extended.LDIR s)
  = (if Z.land (getBC s - 1) 0xffff =? 0 then pc s
     else Z.land (pc s - 2) 0xffff) /\
  tstates (Extended.LDIR s)
  = (if Z.land (getBC s - 1) 0xffff =? 0 then tstates s + 16
     else tstates s + 21).
Proof.
  pose proof (transfer_core s) as Hc.
  unfold Extended.LDIR. cbv zeta in *.
  set (core := setBC _ _) in *.
  assert (Hh : halted core = halted s).
  { subst core. rewrite !writeMem_eq. reflexivity. }
  clearbody core.
  destruct Hc as (Hmem & Hhl & Hde & Hbc & Hpc & Hts & _ & _).
  rewrite !setFlag_memory, !setFlag_getHL, !setFlag_getDE, !setFlag_getBC,
    !setFlag_halted, !setFlag_pc, !setFlag_tstates.
  rewrite <- Hbc.
  destruct (getBC core =? 0); cbn [negb];
    rewrite ?with_tstates_getHL, ?with_tstates_getDE, ?with_tstates_getBC,
      ?with_pc_getHL, ?with_pc_getDE, ?with_pc_getBC;
    cbn [memory halted pc tstates with_tstates with_pc];
    rewrite Hmem, Hhl, Hde, Hpc, Hts, Hh; repeat split; reflexivity.
Qed.

Lemma fetchByte_eq (s : t) :
  fetchByte s
  = (readMem s (pc s), incR (with_pc s (Z.land (pc s + 1) 0xffff))).
Proof. reflexivity. Qed.

(** The decoder on ED B0 held in ROM at PC. *)
Lemma execute_ldir (s : t) (m : Memory.t) :
  memory s = Some m -> halted s = false ->
  0 <= pc s -> pc s + 1 < 0x4000 ->
  aget (Memory.rom m) (pc s) = 0xed ->
  aget (Memory.rom m) (pc s + 1) = 0xb0 ->
  exists k s' m',
    executeInstruction s = Some (k, s') /\
    memory s' = Some m' /\ Memory.rom m' = Memory.rom m /\
    halted s' = false /\
    getHL s' = Z.land (getHL s + 1) 0xffff /\
    getDE s' = Z.land (getDE s + 1) 0xffff /\
    getBC s' = Z.land (getBC s - 1) 0xffff /\
    pc s' = (if Z.land (getBC s - 1) 0xffff =? 0 then pc s + 2 else pc s) /\
    tstates s'
    = (if Z.land (getBC s - 1) 0xffff =? 0 then tstates s + 16
       else tstates s + 21).
Proof.
  intros Hm Hh Hp0 Hp1 Hed Hb0.
  set (s1 := incR (with_pc s (Z.land (pc s + 1) 0xffff))).
  set (s2 := incR (with_pc s1 (Z.land (pc s1 + 1) 0xffff))).
  assert (P1 : pc s1 = pc s + 1).
  { subst s1. cbn [pc incR with_r with_pc]. apply land_ffff_small. lia. }
  assert (P2 : pc s2 = pc s + 2).
  { subst s2. cbn [pc incR with_r with_pc]. rewrite P1.
    rewrite land_ffff_small by lia. lia. }
  assert (F1 : fetchByte s = (0xed, s1)).
  { rewrite fetchByte_eq. fold s1. f_equal.
    rewrite (readMem_memory s m _ Hm), read_masked, read_below_rom by lia.
    exact Hed. }
  assert (F2 : fetchByte s1 = (0xb0, s2)).
  { rewrite fetchByte_eq. fold s2. f_equal.
    rewrite (readMem_memory s1 m _ Hm), read_masked, P1, read_below_rom
      by lia.
    exact Hb0. }
  destruct (ldir_step s2) as (L1 & L2 & L3 & L4 & L5 & L6 & L7).
  assert (E : executeInstruction s
              = Some
                  (let s3 := Extended.LDIR s2 in
                   let s4 :=
                     if enableInterruptsPending s3
                     then with_enableInterruptsPending
                            (with_iff1 (with_iff2 s3 true) true) false
                     else s3 in
                   (tstates s4 - tstates s, s4))).
  { unfold executeInstruction. rewrite Hh, F1. unfold executeOpcode.
    change (instructionTable 0xed) with (Some executeED).
    unfold executeED. rewrite F2.
    change (Extended.edInstructionTable 0xb0)
      with (Extended.Entry Extended.LDIR).
    reflexivity. }
  cbv zeta in E.
  set (s3 := Extended.LDIR s2) in *.
  set (s4 := if enableInterruptsPending s3
             then with_enableInterruptsPending
                    (with_iff1 (with_iff2 s3 true) true) false
             else s3) in *.
  assert (Same : memory s4 = memory s3 /\ halted s4 = halted s3 /\
                 getHL s4 = getHL s3 /\ getDE s4 = getDE s3 /\
                 getBC s4 = getBC s3 /\ pc s4 = pc s3 /\
                 tstates s4 = tstates s3).
  { subst s4. destruct (enableInterruptsPending s3); repeat split. }
  destruct Same as (S1 & S2 & S3 & S4 & S5 & S6 & S7).
  assert (M3 : memory s3
               = Some (Memory.write m (Z.land (getDE s) 0xffff)
                         (Z.land (readMem s2 (getHL s2)) 0xff))).
  { rewrite L1, writeMem_eq. cbn [memory with_memory].
    change (memory s2) with (memory s). rewrite Hm. reflexivity. }
  exists (tstates s4 - tstates s), s4, 
    (Memory.write m (Z.land (getDE s) 0xffff)
       (Z.land (readMem s2 (getHL s2)) 0xff)).
  split; [exact E|].
  rewrite S1, S2, S3, S4, S5, S6, S7, L2, L3, L4, L5, L6, L7, M3.
  change (getHL s2) with (getHL s). change (getDE s2) with (getDE s).
  change (getBC s2) with (getBC s). change (halted s2) with (halted s).
  change (tstates s2) with (tstates s). rewrite P2.
  split; [reflexivity|]. split; [apply write_rom|].
  split; [exact Hh|]. repeat split; try reflexivity.
  destruct (_ =? 0); [reflexivity|].
  replace (pc s + 2 - 2) with (pc s) by lia. apply land_ffff_small. lia.
Qed.

(** X24.  LDIR held in ROM at PC, started with BC = n between 1 and
    65535, is run by the decoder as n instructions: the first n-1 take
    21 T-states and leave PC on the instruction, the last takes 16 and
    leaves PC after it; at the end BC = 0 and HL and DE have advanced
    by n modulo 65536. *)
Theorem ldir_run (n : nat) (s : t) (m : Memory.t)
    (Hm : memory s = Some m) (Hh : halted s = false)
    (Hp0 : 0 <= pc s) (Hp1 : pc s + 1 < 0x4000)
    (Hed : aget (Memory.rom m) (pc s) = 0xed)
    (Hb0 : aget (Memory.rom m) (pc s + 1) = 0xb0)
    (Hbc : getBC s = Z.of_nat n) (Hn : 1 <= Z.of_nat n <= 65535) :
  exists s',
    Run.steps n s = Some s' /\
    getBC s' = 0 /\
    getHL s' = Z.land (getHL s + Z.of_nat n) 0xffff /\
    getDE s' = Z.land (getDE s + Z.of_nat n) 0xffff /\
    pc s' = pc s + 2 /\
    tstates s' = tstates s + 21 * (Z.of_nat n - 1) + 16.
Proof.
  revert s m Hm Hh Hp0 Hp1 Hed Hb0 Hbc Hn.
  induction n as [|n IH]; intros s m Hm Hh Hp0 Hp1 Hed Hb0 Hbc Hn; [lia|].
  destruct (execute_ldir s m Hm Hh Hp0 Hp1 Hed Hb0)
    as (k & s1 & m1 & E & M1 & R1 & H1 & HL1 & DE1 & BC1 & PC1 & T1).
  cbn [Run.steps]. rewrite E.
  assert (B : Z.land (getBC s - 1) 0xffff = Z.of_nat n).
  { rewrite Hbc. replace (Z.of_nat (S n) - 1) with (Z.of_nat n) by lia.
    apply land_ffff_small. lia. }
  rewrite B in BC1, PC1, T1.
  destruct n as [|n'].
  - exists s1. cbn [Run.steps]. change (Z.of_nat 0 =? 0) with true in PC1, T1.
    cbv iota in PC1, T1.
    repeat split; try assumption.
    rewrite T1. change (Z.of_nat 1) with 1. lia.
  - assert (Nz : (Z.of_nat (S n') =? 0) = false) by (apply Z.eqb_neq; lia).
    rewrite Nz in PC1, T1.
    destruct (IH s1 m1) as (s' & St & BC' & HL' & DE' & PC' & T');
      try (rewrite ?PC1, ?R1; assumption); try lia.
    exists s'. split; [exact St|]. split; [exact BC'|].
    rewrite HL', DE', PC', T', HL1, DE1, PC1, T1.
    rewrite !land_ffff_add.
    repeat split; try reflexivity; try (f_equal; lia); lia.
Qed.

Lemma ldir_run_witness :
  exists s',
    Run.steps 3 Run.cpuLdir = Some s' /\
    getBC s' = 0 /\
    getHL s' = Z.land (getHL Run.cpuLdir + Z.of_nat 3) 0xffff /\
    getDE s' = Z.land (getDE Run.cpuLdir + Z.of_nat 3) 0xffff /\
    pc s' = pc Run.cpuLdir + 2 /\
    tstates s' = tstates Run.cpuLdir + 21 * (Z.of_nat 3 - 1) + 16.
Proof.
  apply (ldir_run 3 Run.cpuLdir Run.memoryLdir); try reflexivity;
    try (simpl; lia).
Defined.
End DecoderRuns.

(** ** ULA ports *)

Section UlaPorts.
Import ULAPorts.

Lemma row_facts (x col : Z) :
  0 <= x < 256 -> Z.land x 0xe0 = 0xe0 -> 0 <= col < 5 ->
  let down := Z.land (Z.land x (Z.lnot (bit col))) 255 in
  let up := Z.land (Z.lor x (bit col)) 255 in
  (0 <= down < 256 /\ Z.land down 0xe0 = 0xe0) /\
  (0 <= up < 256 /\ Z.land up 0xe0 = 0xe0) /\
  Z.testbit down col = false /\ Z.testbit up col = true.
Proof.
  intros Hx He Hc.
  pose proof (forall_bytes
    (fun x =>
       forallb (fun col =>
         let down := Z.land (Z.land x (Z.lnot (bit col))) 255 in
         let up := Z.land (Z.lor x (bit col)) 255 in
         negb (Z.land x 0xe0 =? 0xe0)
         || ((0 <=? down) && (down <? 256) && (Z.land down 0xe0 =? 0xe0)
             && (0 <=? up) && (up <? 256) && (Z.land up 0xe0 =? 0xe0)
             && negb (Z.testbit down col) && Z.testbit up col))
         [0; 1; 2; 3; 4])
    ltac:(vm_compute; reflexivity) x Hx) as H.
  cbv beta in H. rewrite forallb_forall in H.
  assert (Hin : In col [0; 1; 2; 3; 4]) by (cbn [In]; lia).
  specialize (H col Hin). cbv zeta in H.
  apply Z.eqb_eq in He. rewrite He in H. cbn [negb orb] in H.
  rewrite !andb_true_iff, !Z.leb_le, !Z.ltb_lt, !Z.eqb_eq, negb_true_iff in H.
  cbv zeta. tauto.
Qed.

Lemma matrix_positions (pos : Z * Z) :
  In pos keyPositions -> 0 <= fst pos < 8 /\ 0 <= snd pos < 5.
Proof.
  intros Hin.
  assert (H : forallb
                (fun p => (0 <=? fst p) && (fst p <? 8)
                          && (0 <=? snd p) && (snd p <? 5)) keyPositions
              = true) by reflexivity.
  rewrite forallb_forall in H. specialize (H pos Hin).
  rewrite !andb_true_iff, !Z.leb_le, !Z.ltb_lt in H. lia.
Qed.

Lemma aget_lookup (kb : list Z) (row : Z) (x : Z) :
  0 <= row -> kb !! Z.to_nat row = Some x -> aget kb row = x.
Proof.
  intros Hr Hx. unfold aget.
  destruct (row <? 0) eqn:E; [apply Z.ltb_lt in E; lia|].
  now rewrite Hx.
Qed.

Lemma rowsOk_row (u : t) (row : Z) :
  rowsOk u -> 0 <= row < 8 ->
  0 <= aget (keyboardState u) row < 256 /\
  Z.land (aget (keyboardState u) row) 0xe0 = 0xe0.
Proof.
  intros [Hlen Hall] Hr.
  destruct (lookup_lt_is_Some_2 (keyboardState u) (Z.to_nat row)
              ltac:(lia)) as [x Hx].
  rewrite (aget_lookup _ _ _ (proj1 Hr) Hx).
  rewrite Forall_lookup in Hall. exact (Hall _ _ Hx).
Qed.

Lemma rowsOk_setRow (u : t) (row v : Z) :
  rowsOk u -> 0 <= row < 8 ->
  0 <= Z.land v 255 < 256 -> Z.land (Z.land v 255) 0xe0 = 0xe0 ->
  rowsOk (setRow u row v) /\
  aget (keyboardState (setRow u row v)) row = Z.land v 255 /\
  (forall row', 0 <= row' -> row' <> row ->
     aget (keyboardState (setRow u row v)) row'
     = aget (keyboardState u) row').
Proof.
  intros [Hlen Hall] Hr Hb He.
  unfold setRow, rowsOk. cbn [keyboardState].
  split; [|split].
  - rewrite length_aset. split; [exact Hlen|].
    unfold aset. destruct (row <? 0); [exact Hall|].
    apply Forall_insert; [exact Hall|]. now split.
  - apply aget_aset_same. lia.
  - intros row' Hr' Hne. apply aget_aset_other; lia.
Qed.

(** X25.  The keyboard matrix: after any sequence of key presses and
    releases on positions of [keyMatrix] the eight rows are bytes with
    their three top bits set; pressing a key clears its column bit in
    its row, releasing it sets the bit, neither touches another row,
    and [releaseAllKeys] sets every row to 0xff. *)
Theorem keyboard_matrix (evs : list keyEvent) (pos : Z * Z)
    (Hevs : Forall event_in_matrix evs) (Hpos : In pos keyPositions) :
  let u := fold_left keyStep evs init in
  rowsOk u /\
  Z.testbit (aget (keyboardState (keyDown u (Some pos))) (fst pos)) (snd pos)
  = false /\
  Z.testbit (aget (keyboardState (keyUp u (Some pos))) (fst pos)) (snd pos)
  = true /\
  (forall row, 0 <= row -> row <> fst pos ->
     aget (keyboardState (keyDown u (Some pos))) row
     = aget (keyboardState u) row /\
     aget (keyboardState (keyUp u (Some pos))) row
     = aget (keyboardState u) row) /\
  (forall row, 0 <= row < 8 ->
     aget (keyboardState (releaseAllKeys u)) row = 0xff).
Proof.
  cbv zeta.
  assert (Step : forall u ev,
             rowsOk u -> event_in_matrix ev -> rowsOk (keyStep u ev)).
  { intros u [[row col]|[row col]|] Hu Hev; cbn [keyStep keyDown keyUp].
    - destruct (matrix_positions _ Hev) as [Hr Hc]. cbn [fst snd] in Hr, Hc.
      destruct (rowsOk_row u row Hu Hr) as [Hb He].
      destruct (row_facts _ col Hb He Hc) as ((D1 & D2) & _).
      now apply rowsOk_setRow.
    - destruct (matrix_positions _ Hev) as [Hr Hc]. cbn [fst snd] in Hr, Hc.
      destruct (rowsOk_row u row Hu Hr) as [Hb He].
      destruct (row_facts _ col Hb He Hc) as (_ & (U1 & U2) & _).
      now apply rowsOk_setRow.
    - destruct Hu as [Hlen _]. unfold releaseAllKeys, rowsOk.
      cbn [keyboardState]. rewrite length_replicate. split; [exact Hlen|].
      apply Forall_replicate. split; [lia|reflexivity]. }
  assert (Hu : forall u, rowsOk u -> rowsOk (fold_left keyStep evs u)).
  { induction Hevs as [|ev evs Hev _ IH]; intros u Hu; [exact Hu|].
    cbn [fold_left]. apply IH, Step; assumption. }
  assert (H0 : rowsOk init).
  { split; [reflexivity|]. apply Forall_replicate.
    split; [lia|reflexivity]. }
  specialize (Hu init H0).
  set (u := fold_left keyStep evs init) in *. clearbody u.
  destruct pos as [row col].
  destruct (matrix_positions _ Hpos) as [Hr Hc]. cbn [fst snd] in *.
  destruct (rowsOk_row u row Hu Hr) as [Hb He].
  destruct (row_facts _ col Hb He Hc) as ((D1 & D2) & (U1 & U2) & Td & Tu).
  cbv zeta in D1, D2, U1, U2, Td, Tu.
  destruct (rowsOk_setRow u row _ Hu Hr D1 D2) as (_ & Gd & Od).
  destruct (rowsOk_setRow u row _ Hu Hr U1 U2) as (_ & Gu & Ou).
  cbn [keyDown keyUp].
  split; [exact Hu|]. split; [now rewrite Gd|]. split; [now rewrite Gu|].
  split.
  - intros row' Hr' Hne. split; [now apply Od|now apply Ou].
  - intros row' Hr'. unfold releaseAllKeys. cbn [keyboardState].
    destruct Hu as [Hlen _]. rewrite Hlen.
    apply aget_lookup; [lia|]. apply lookup_replicate_2. lia.
Qed.

Lemma keyboard_matrix_witness :
  Z.testbit
    (aget (keyboardState
             (keyDown (fold_left keyStep [Down (1, 0); Up (1, 0)] init)
                (Some (7, 2)))) 7) 2
  = false.
Proof.
  refine (proj1 (proj2
            (keyboard_matrix [Down (1, 0); Up (1, 0)] (7, 2) _ _))).
  - repeat constructor; cbn; tauto.
  - cbn. tauto.
Defined.

Lemma select_bit (highByte row : Z) :
  0 <= row ->
  (Z.land highByte (bit row) =? 0) = negb (Z.testbit highByte row).
Proof.
  intros Hr. unfold bit. rewrite Z.shiftl_1_l.
  rewrite <- (flag_bit highByte row Hr). now rewrite negb_involutive.
Qed.

Lemma scan_rows (kb : list Z) (highByte col : Z) (rows : list Z) :
  Forall (fun row => 0 <= row) rows ->
  forall result,
    Z.testbit
      (fold_left
         (fun result row =>
            if Z.land highByte (bit row) =? 0
            then Z.land result (aget kb row)
            else result) rows result) col
    = Z.testbit result col
      && forallb (fun row => Z.testbit highByte row
                             || Z.testbit (aget kb row) col) rows.
Proof.
  induction 1 as [|row rows Hr _ IH]; intros result.
  - cbn. now rewrite andb_true_r.
  - cbn [fold_left forallb]. rewrite IH, select_bit by exact Hr.
    destruct (Z.testbit highByte row); cbn [negb orb].
    + reflexivity.
    + now rewrite Z.land_spec, andb_assoc.
Qed.

Lemma scan_range (kb : list Z) (highByte : Z) (rows : list Z) :
  forall result,
    0 <= result < 256 ->
    0 <= fold_left
           (fun result row =>
              if Z.land highByte (bit row) =? 0
              then Z.land result (aget kb row)
              else result) rows result < 256.
Proof.
  induction rows as [|row rows IH]; intros result Hres; [exact Hres|].
  cbn [fold_left]. apply IH.
  destruct (_ =? 0); [|exact Hres].
  replace (Z.land result (aget kb row))
    with (Z.land (Z.land result (aget kb row)) 0xff);
    [apply land_ff_range|].
  rewrite <- Z.land_assoc, (Z.land_comm (aget kb row)), Z.land_assoc.
  now rewrite land_ff_small.
Qed.

Lemma top_bits (x : Z) :
  Z.land x 0xe0 = 0xe0 ->
  Z.testbit x 5 = true /\ Z.testbit x 6 = true /\ Z.testbit x 7 = true.
Proof.
  intros He.
  assert (H : forall k, Z.testbit 0xe0 k = true -> Z.testbit x k = true).
  { intros k Hk. rewrite <- He, Z.land_spec in Hk.
    now apply andb_true_iff in Hk. }
  repeat split; apply H; reflexivity.
Qed.

Lemma ear_bit_range (r : Z) :
  0 <= r < 256 ->
  0 <= Z.lor r 0x40 < 256 /\ 0 <= Z.land r (Z.lnot 0x40) < 256.
Proof.
  intros Hr.
  pose proof (forall_bytes
    (fun r => (0 <=? Z.lor r 0x40) && (Z.lor r 0x40 <? 256)
              && (0 <=? Z.land r (Z.lnot 0x40))
              && (Z.land r (Z.lnot 0x40) <? 256))
    ltac:(vm_compute; reflexivity) r Hr) as H.
  cbv beta in H. rewrite !andb_true_iff, !Z.leb_le, !Z.ltb_lt in H. lia.
Qed.

Lemma ear_bit_other (r : Z) (ear : bool) (k : Z) :
  0 <= k -> k <> 6 ->
  Z.testbit (if ear then Z.lor r 0x40 else Z.land r (Z.lnot 0x40)) k
  = Z.testbit r k.
Proof.
  intros Hk Hne. change 0x40 with (2 ^ 6).
  assert (E : (6 =? k) = false) by (apply Z.eqb_neq; lia).
  destruct ear.
  - rewrite set_bit, E by lia. apply orb_false_r.
  - rewrite clear_bit, E by lia. apply andb_true_r.
Qed.

Lemma ear_bit_six (r : Z) (ear : bool) :
  Z.testbit (if ear then Z.lor r 0x40 else Z.land r (Z.lnot 0x40)) 6 = ear.
Proof.
  change 0x40 with (2 ^ 6).
  destruct ear.
  - rewrite set_bit by lia. apply orb_true_r.
  - rewrite clear_bit by lia. apply andb_false_r.
Qed.

(** X26.  Reading the ULA: on an even port the byte returned has bits 5
    and 7 set, bit 6 equal to the EAR input, and each of bits 0..4
    clear exactly when a row selected by a zero bit of the port's high
    byte has the key of that column down; the value is latched and is
    what any odd port returns afterwards.  An odd port returns the
    latched value and changes nothing. *)
Theorem port_read (u : t) (port : Z) (Hu : rowsOk u) :
  (Z.land port 1 = 0 ->
   let highByte := Z.land (Z.shiftr port 8) 0xff in
   let v := fst (read u port) in
   0 <= v < 256 /\
   Z.testbit v 7 = true /\ Z.testbit v 6 = earBit u /\
   Z.testbit v 5 = true /\
   (forall col, 0 <= col < 5 ->
      Z.testbit v col
      = forallb (fun row => Z.testbit highByte row
                            || Z.testbit (aget (keyboardState u) row) col)
          [0; 1; 2; 3; 4; 5; 6; 7]) /\
   floatingBusValue (snd (read u port)) = v /\
   keyboardState (snd (read u port)) = keyboardState u /\
   (forall port', Z.land port' 1 <> 0 ->
      fst (read (snd (read u port)) port') = v)) /\
  (Z.land port 1 <> 0 -> read u port = (floatingBusValue u, u)).
Proof.
  split.
  - intros Heven. cbv zeta.
    set (highByte := Z.land (Z.shiftr port 8) 0xff).
    set (rows := [0; 1; 2; 3; 4; 5; 6; 7]).
    assert (E : read u port
                = (let result :=
                     fold_left
                       (fun result row =>
                          if Z.land highByte (bit row) =? 0
                          then Z.land result (aget (keyboardState u) row)
                          else result) rows 0xff in
                   let result :=
                     if earBit u then Z.lor result 0x40
                     else Z.land result (Z.lnot 0x40) in
                   (result,
                    mk (borderColor u) (speakerState u) (keyboardState u)
                      (earBit u) result (borderHistory u)
                      (frameStartBorderColor u) (frameStartTState u)))).
    { unfold read. change 0x0001 with 1. now rewrite Heven. }
    cbv zeta in E. rewrite E. clear E.
    cbn [fst snd floatingBusValue keyboardState].
    assert (Hrows : Forall (fun row => 0 <= row) rows)
      by (subst rows; repeat constructor; lia).
    assert (Hin : forall row, In row rows -> 0 <= row < 8)
      by (subst rows; cbn [In]; intros row H; lia).
    pose proof (scan_rows (keyboardState u) highByte) as Scan.
    pose proof (scan_range (keyboardState u) highByte rows 0xff
                  ltac:(lia)) as Range.
    set (result := fold_left _ rows 0xff) in *.
    assert (Top : forall k, Z.testbit 0xff k = true ->
                    (k = 5 \/ k = 6 \/ k = 7) ->
                    Z.testbit result k = true).
    { intros k Hk Hsel. subst result. rewrite (Scan k rows Hrows), Hk.
      cbn [andb]. apply forallb_forall. intros row Hr.
      destruct (rowsOk_row u row Hu (Hin row Hr)) as [_ He].
      destruct (top_bits _ He) as (T5 & T6 & T7).
      destruct Hsel as [-> | [-> | ->]]; rewrite ?T5, ?T6, ?T7;
        apply orb_true_r. }
    destruct (ear_bit_range result Range) as [R1 R2].
    split; [now destruct (earBit u)|].
    split; [rewrite ear_bit_other by lia; apply Top; auto|].
    split; [apply ear_bit_six|].
    split; [rewrite ear_bit_other by lia; apply Top; auto|].
    split.
    { intros col Hc. rewrite ear_bit_other by lia.
      subst result. rewrite (Scan col rows Hrows).
      replace (Z.testbit 0xff col) with true; [reflexivity|].
      assert (H : forallb (Z.testbit 0xff) [0; 1; 2; 3; 4] = true)
        by reflexivity.
      rewrite forallb_forall in H. symmetry. apply H. cbn [In]. lia. }
    split; [reflexivity|]. split; [reflexivity|].
    intros port' Hodd. unfold read. change 0x0001 with 1.
    apply Z.eqb_neq in Hodd. now rewrite Hodd.
  - intros Hodd. unfold read. change 0x0001 with 1.
    apply Z.eqb_neq in Hodd. now rewrite Hodd.
Qed.

Lemma port_read_witness :
  Z.testbit (fst (read init 0xfefe)) 6 = earBit init.
Proof.
  refine (proj1 (proj2 (proj2 (proj1 (port_read init 0xfefe _) _)))).
  - split; [reflexivity|]. apply Forall_replicate.
    split; [lia|reflexivity].
  - reflexivity.
Defined.

Lemma last_snoc_Z (l : list Z) (x d : Z) : List.last (l ++ [x]) d = x.
Proof. apply List.last_last. Qed.

Lemma last_cons_default (x d : Z) (l : list Z) :
  List.last (x :: l) d = List.last l x.
Proof.
  revert x d. induction l as [|y l IH]; intros x d; [reflexivity|].
  change (List.last (x :: y :: l) d) with (List.last (y :: l) d).
  now rewrite (IH y d), (IH y x).
Qed.

Lemma changes_snoc (prev c : Z) (cs : list Z) :
  changes prev cs -> c <> List.last cs prev -> changes prev (cs ++ [c]).
Proof.
  revert prev. induction cs as [|c0 cs IH]; intros prev Hcs Hne.
  - cbn in *. now split.
  - cbn [app changes] in *. destruct Hcs as [H0 Hcs]. split; [exact H0|].
    apply IH; [exact Hcs|].
    now rewrite <- (last_cons_default c0 prev cs).
Qed.

(** X27.  The border history of a frame: after [resetFrameTStates] and
    any port writes, the history holds one entry per actual change of
    colour, so no entry repeats the colour before it, the first differs
    from the colour at the start of the frame, the last entry, if any,
    is the current border colour, every colour is in 0..7, and there
    are no more entries than writes.  A write to an odd port changes
    nothing; one to an even port sets the border to the low three bits
    and the speaker to bit 3 or bit 4. *)
Theorem border_history (u0 : t) (ts0 : option Z) (ws : list (Z * Z * Z)) :
  let u := runWrites (resetFrameTStates u0 ts0) ws in
  changes (borderColor u0) (map snd (borderHistory u)) /\
  List.last (map snd (borderHistory u)) (borderColor u0) = borderColor u /\
  Forall (fun c => 0 <= c < 8) (map snd (borderHistory u)) /\
  (length (borderHistory u) <= length ws)%nat /\
  (forall ts port value,
     Z.land port 1 <> 0 -> write u ts port value = u) /\
  (forall ts port value,
     Z.land port 1 = 0 ->
     borderColor (write u ts port value) = value mod 8 /\
     speakerState (write u ts port value)
     = Z.testbit value 3 || Z.testbit value 4).
Proof.
  cbv zeta.
  assert (M : forall port, Z.land (Z.land port 0xff) 0x01 = Z.land port 1).
  { intros port. rewrite <- Z.land_assoc. reflexivity. }
  assert (Inv : forall c0 ws u n,
             changes c0 (map snd (borderHistory u)) ->
             List.last (map snd (borderHistory u)) c0 = borderColor u ->
             Forall (fun c => 0 <= c < 8) (map snd (borderHistory u)) ->
             (length (borderHistory u) <= n)%nat ->
             let u' := runWrites u ws in
             changes c0 (map snd (borderHistory u')) /\
             List.last (map snd (borderHistory u')) c0 = borderColor u' /\
             Forall (fun c => 0 <= c < 8) (map snd (borderHistory u')) /\
             (length (borderHistory u') <= n + length ws)%nat).
  { intros c0. induction ws0 as [|[[ts port] value] ws0 IH];
      intros u n Hc Hl Hf Hn; cbv zeta.
    - cbn. repeat split; try assumption. lia.
    - unfold runWrites. cbn [foldl fst snd].
      fold (runWrites (write u (Some ts) port value) ws0).
      replace (n + length ((ts, port, value) :: ws0))%nat
        with (S n + length ws0)%nat by (cbn [length]; lia).
      apply IH; unfold write; cbv zeta; rewrite M;
        destruct (Z.land port 1 =? 0); try assumption; try lia;
        destruct (Z.land (Z.land value 0xff) 0x07 =? borderColor u) eqn:E;
        cbn [negb borderHistory borderColor]; try assumption; try lia.
      + rewrite map_app. cbn [map snd]. apply changes_snoc; [exact Hc|].
        rewrite Hl. now apply Z.eqb_neq in E.
      + rewrite map_app. cbn [map snd]. apply last_snoc_Z.
      + rewrite map_app. cbn [map snd]. apply Forall_app. split; [exact Hf|].
        constructor; [|constructor].
        rewrite <- Z.land_assoc. change (Z.land 0xff 0x07) with (Z.ones 3).
        rewrite Z.land_ones by lia. change (2 ^ 3) with 8.
        apply Z.mod_pos_bound. lia.
      + rewrite length_app. cbn [length]. lia. }
  destruct (Inv (borderColor u0) ws (resetFrameTStates u0 ts0) 0%nat)
    as (I1 & I2 & I3 & I4); try (cbn; auto; fail).
  cbv zeta in I1, I2, I3, I4.
  split; [exact I1|]. split; [exact I2|]. split; [exact I3|].
  split; [exact I4|].
  set (u := runWrites _ ws). clearbody u.
  split.
  - intros ts port value Hodd. unfold write. cbv zeta. rewrite M.
    apply Z.eqb_neq in Hodd. now rewrite Hodd.
  - intros ts port value Heven. unfold write. cbv zeta. rewrite M, Heven.
    cbn [Z.eqb].
    assert (C : Z.land (Z.land value 0xff) 0x07 = value mod 8).
    { rewrite <- Z.land_assoc. change (Z.land 0xff 0x07) with (Z.ones 3).
      now rewrite Z.land_ones by lia. }
    assert (B3 : negb (Z.land (Z.land value 0xff) 0x08 =? 0)
                 = Z.testbit value 3).
    { rewrite <- Z.land_assoc. change (Z.land 0xff 0x08) with (2 ^ 3).
      apply flag_bit. lia. }
    assert (B4 : negb (Z.land (Z.land value 0xff) 0x10 =? 0)
                 = Z.testbit value 4).
    { rewrite <- Z.land_assoc. change (Z.land 0xff 0x10) with (2 ^ 4).
      apply flag_bit. lia. }
    rewrite B3, B4, C.
    destruct (value mod 8 =? borderColor u) eqn:E;
      cbn [negb borderColor speakerState]; split; try reflexivity.
    symmetry. now apply Z.eqb_eq.
Qed.
End UlaPorts.

(** ** Tape files *)

Section TapeFiles.
Import TapeFile.

Lemma length_decode (n : Z) :
  0 <= n < 65536 ->
  Z.lor (Z.land n 0xff) (Z.shiftl (Z.shiftr n 8) 8) = n.
Proof.
  intros Hn. rewrite Z.lor_comm, pair_value by apply land_ff_range.
  rewrite land_ff_mod, Z.shiftr_div_pow2 by lia. change (2 ^ 8) with 256.
  pose proof (Z.div_mod n 256 ltac:(lia)). lia.
Qed.

Lemma parse_record (n : nat) (d rest : list Z) :
  Z.of_nat (length d) < 65536 ->
  parseTAP_loop (S n) (tapRecord d ++ rest)
  = tapBlock d :: parseTAP_loop n rest.
Proof.
  intros Hd. unfold tapRecord. cbn [app parseTAP_loop]. cbv zeta.
  rewrite length_decode by lia.
  rewrite Nat2Z.id, length_app.
  destruct (Z.ltb_spec (Z.of_nat (length d + length rest))
              (Z.of_nat (length d))); [lia|].
  now rewrite take_app_length, drop_app_length.
Qed.

Lemma parse_truncated (n : nat) (d : list Z) (k : nat) :
  Z.of_nat (length d) < 65536 -> (k < length (tapRecord d))%nat ->
  parseTAP_loop n (take k (tapRecord d)) = [].
Proof.
  intros Hd Hk. destruct n as [|n]; [reflexivity|].
  unfold tapRecord in *. cbn [length] in Hk.
  destruct k as [|[|k]]; [reflexivity|reflexivity|].
  cbn [take parseTAP_loop]. cbv zeta.
  rewrite length_decode by lia.
  rewrite length_take.
  destruct (Z.ltb_spec (Z.of_nat (k `min` length d)) (Z.of_nat (length d)));
    [reflexivity|lia].
Qed.

Lemma parse_records (ds : list (list Z)) :
  Forall (fun d => Z.of_nat (length d) < 65536) ds ->
  forall (n : nat) (tail : list Z),
    (length ds <= n)%nat ->
    (forall n', parseTAP_loop n' tail = []) ->
    parseTAP_loop n (concat (map tapRecord ds) ++ tail) = map tapBlock ds.
Proof.
  induction 1 as [|d ds Hd _ IH]; intros n tail Hn Htail.
  - cbn. apply Htail.
  - destruct n as [|n]; [cbn in Hn; lia|].
    cbn [map concat]. rewrite <- app_assoc, parse_record by exact Hd.
    f_equal. apply IH; [cbn in Hn; lia|exact Htail].
Qed.

Lemma length_records (ds : list (list Z)) :
  (length ds <= length (concat (map tapRecord ds)))%nat.
Proof.
  induction ds as [|d ds IH]; [cbn; lia|].
  cbn [map concat]. rewrite length_app. unfold tapRecord at 1.
  cbn [length]. lia.
Qed.

(** X28.  A TAP image made of records, each a little-endian 16-bit
    length followed by that many bytes, is parsed into one standard
    block per record, in order, with the record's bytes as data, the
    standard pulse lengths, and the pilot length and pause chosen by
    the flag byte; if the image is cut anywhere inside a further
    record, that incomplete record is dropped and the blocks before it
    are still returned.  Such an image is taken for a TZX file only if
    its first record is 0x585A bytes long. *)
Theorem tap_image_parsed (ds : list (list Z)) (d : list Z) (k : nat)
    (Hds : Forall (fun d => Z.of_nat (length d) < 65536) ds)
    (Hd : Z.of_nat (length d) < 65536)
    (Hk : (k < length (tapRecord d))%nat) :
  parseTAPBlocks (concat (map tapRecord ds)) = map tapBlock ds /\
  parseTAPBlocks (concat (map tapRecord ds) ++ take k (tapRecord d))
  = map tapBlock ds /\
  Forall (fun blk =>
            exists p,
              blk = Tape.Standard p /\
              Tape.pilotPulse p = 2168 /\ Tape.sync1Pulse p = 667 /\
              Tape.sync2Pulse p = 735 /\ Tape.zeroPulse p = 855 /\
              Tape.onePulse p = 1710 /\ Tape.usedBits p = 8 /\
              (Tape.pilotPulses p = 8063 /\ Tape.pause p = 100 \/
               Tape.pilotPulses p = 3223 /\ Tape.pause p = 500))
    (map tapBlock ds) /\
  (Z.of_nat (length d) <> 0x585a ->
   detectTapeFormat (concat (map tapRecord (d :: ds))) = false).
Proof.
  split; [|split; [|split]].
  - unfold parseTAPBlocks.
    rewrite <- (app_nil_r (concat (map tapRecord ds))) at 2.
    apply parse_records; [exact Hds|apply length_records|].
    now intros [|n'].
  - unfold parseTAPBlocks.
    apply parse_records; [exact Hds| |].
    + rewrite length_app. pose proof (length_records ds). lia.
    + intros n'. now apply parse_truncated.
  - apply List.Forall_forall. intros blk Hin.
    apply in_map_iff in Hin. destruct Hin as (d0 & <- & _).
    unfold tapBlock. cbv zeta. eexists. split; [reflexivity|].
    cbn [Tape.pilotPulse Tape.sync1Pulse Tape.sync2Pulse Tape.zeroPulse
           Tape.onePulse Tape.usedBits Tape.pilotPulses Tape.pause].
    repeat split.
    destruct d0 as [|flag d0]; [now right|].
    destruct (flag <? 128); [now left|now right].
  - intros Hlen. cbn [map concat]. unfold tapRecord at 1.
    cbn [app]. unfold detectTapeFormat.
    change (aget (?x :: _) 0) with x.
    change (aget (_ :: ?x :: _) 1) with x.
    set (n := Z.of_nat (length d)) in *.
    destruct (Z.land n 0xff =? 0x5a) eqn:E0;
      [|now rewrite !andb_false_r, ?andb_false_l].
    destruct (Z.shiftr n 8 =? 0x58) eqn:E1;
      [|now rewrite !andb_false_r, ?andb_false_l].
    apply Z.eqb_eq in E0, E1.
    pose proof (length_decode n ltac:(lia)) as D.
    rewrite E0, E1 in D. change (Z.lor 0x5a (Z.shiftl 0x58 8)) with 0x585a in D.
    congruence.
Qed.

Lemma tap_image_parsed_witness :
  parseTAPBlocks (concat (map tapRecord [[0; 1; 2]; [255; 7]]))
  = map tapBlock [[0; 1; 2]; [255; 7]].
Proof.
  refine (proj1 (tap_image_parsed [[0; 1; 2]; [255; 7]] [9] 1 _ _ _)).
  - repeat constructor; cbn; lia.
  - cbn; lia.
  - cbn; lia.
Defined.
End TapeFiles.

(** ** The tape player *)

Section TapePlayer.
Import Tape.

Ltac ear_leaf HP :=
  first [ exact HP | left; reflexivity | right; reflexivity ].

Ltac split_run H :=
  repeat match type of H with
         | context [if ?b then _ else _] => destruct b
         | context [match ?x with _ => _ end] => destruct x
         end.

Lemma nextBlock_ear (fuel : nat) (cpuCycles : Z) :
  forall s s',
    lastEarBit s = 0 \/ lastEarBit s = 1 ->
    nextBlock fuel cpuCycles s = Ok s' ->
    lastEarBit s' = 0 \/ lastEarBit s' = 1.
Proof.
  induction fuel as [|fuel IH]; intros s s' HP H; cbn [nextBlock] in H;
    split_run H; try discriminate H;
    try (injection H as <-; ear_leaf HP);
    try (apply IH in H; [exact H|ear_leaf HP]).
Qed.

Lemma handleBlockEnd_ear (fuel : nat) (cpuCycles : Z) (s s' : t) :
  lastEarBit s = 0 \/ lastEarBit s = 1 ->
  handleBlockEnd fuel cpuCycles s = Ok s' ->
  lastEarBit s' = 0 \/ lastEarBit s' = 1.
Proof.
  intros HP H. unfold handleBlockEnd in H.
  split_run H; try discriminate H;
    try (injection H as <-; ear_leaf HP);
    apply nextBlock_ear in H; assumption.
Qed.

Lemma dataEdge_ear (fuel : nat) (cpuCycles cycles : Z) (d : list Z)
    (zeroPulse onePulse usedBits : Z) (s s' : t) :
  lastEarBit s = 0 \/ lastEarBit s = 1 ->
  dataEdge fuel cpuCycles cycles d zeroPulse onePulse usedBits s = Ok s' ->
  lastEarBit s' = 0 \/ lastEarBit s' = 1.
Proof.
  intros HP H. unfold dataEdge in H. cbv zeta in H.
  split_run H; try discriminate H;
    try (injection H as <-; ear_leaf HP);
    apply handleBlockEnd_ear in H; assumption.
Qed.

Lemma dispatchEdge_ear (fuel : nat) (cpuCycles cycles : Z) (blk : block)
    (s s' : t) :
  lastEarBit s = 0 \/ lastEarBit s = 1 ->
  dispatchEdge fuel cpuCycles cycles blk s = Ok s' ->
  lastEarBit s' = 0 \/ lastEarBit s' = 1.
Proof.
  intros HP H.
  assert (L : forall x, Z.land x 1 = 0 \/ Z.land x 1 = 1).
  { intros x.
    assert (E : Z.land x 1 = x mod 2) by exact (Z.land_ones x 1 ltac:(lia)).
    pose proof (Z.mod_pos_bound x 2). lia. }
  destruct blk; cbn [dispatchEdge] in H; try discriminate H.
  - unfold processEdge in H. destruct (state s);
      try (injection H as <-; exact HP).
    + cbv zeta in H. split_run H; injection H as <-; exact HP.
    + cbv zeta in H.
      destruct (Tape.data p);
        [apply handleBlockEnd_ear in H; assumption|].
      injection H as <-. exact HP.
    + apply dataEdge_ear in H; assumption.
  - unfold processEdge in H. destruct (state s);
      try (injection H as <-; exact HP).
    + cbv zeta in H. split_run H; injection H as <-; exact HP.
    + cbv zeta in H.
      destruct (Tape.data p);
        [apply handleBlockEnd_ear in H; assumption|].
      injection H as <-. exact HP.
    + apply dataEdge_ear in H; assumption.
  - unfold processPureTone in H. cbv zeta in H.
    destruct (_ >=? _); [|injection H as <-; exact HP].
    apply handleBlockEnd_ear in H; assumption.
  - unfold processPulseSequence in H. cbv zeta in H.
    cbn [pulseSequence with_pulseIndex] in H.
    destruct (pulseSequence s); [|discriminate H].
    destruct (_ >=? _); [|injection H as <-; exact HP].
    apply handleBlockEnd_ear in H; assumption.
  - apply dataEdge_ear in H; assumption.
  - unfold processDirectRecording in H. cbv zeta in H.
    destruct (_ >=? _); [apply handleBlockEnd_ear in H; assumption|].
    destruct (_ >=? _).
    + apply handleBlockEnd_ear in H; [assumption|apply L].
    + injection H as <-. apply L.
Qed.

Lemma updatePauseState_ear (fuel : nat) (cpuCycles cycles : Z) (s s' : t) :
  lastEarBit s = 0 \/ lastEarBit s = 1 ->
  updatePauseState fuel cpuCycles cycles s = Ok s' ->
  lastEarBit s' = 0 \/ lastEarBit s' = 1.
Proof.
  intros HP H. unfold updatePauseState in H. cbv zeta in H.
  destruct (pauseCycles s >? 0).
  - destruct (_ <=? 0).
    + apply nextBlock_ear in H; [assumption|now left].
    + injection H as <-. now left.
  - apply nextBlock_ear in H; assumption.
Qed.

Lemma updateDataBlock_loop_ear (n fuel : nat) (cpuCycles cycles : Z)
    (blk : block) :
  forall s s',
    lastEarBit s = 0 \/ lastEarBit s = 1 ->
    updateDataBlock_loop n fuel cpuCycles cycles blk s = Ok s' ->
    lastEarBit s' = 0 \/ lastEarBit s' = 1.
Proof.
  induction n as [|n IH]; intros s s' HP H;
    cbn [updateDataBlock_loop] in H;
    destruct (_ && _); try discriminate H;
    try (injection H as <-; exact HP).
  cbv zeta in H.
  destruct (dispatchEdge fuel cpuCycles cycles blk
              (with_lastEarBit s (1 - lastEarBit s))) as [s1| | |] eqn:E;
    cbn [bind] in H; try discriminate H.
  apply dispatchEdge_ear in E.
  - exact (IH s1 s' E H).
  - cbn [lastEarBit with_lastEarBit]. lia.
Qed.

Lemma update_ear (fuel : nat) (cpuCycles cycles : Z) (s s' : t) :
  lastEarBit s = 0 \/ lastEarBit s = 1 ->
  update fuel cpuCycles cycles s = Ok s' ->
  lastEarBit s' = 0 \/ lastEarBit s' = 1.
Proof.
  intros HP H. unfold update in H.
  destruct (_ || _); [injection H as <-; exact HP|].
  destruct (currentBlock s) as [blk|] eqn:Eb; [|injection H as <-; exact HP].
  destruct (State_eqb (state s) PAUSE).
  - destruct (updatePauseState fuel cpuCycles cycles s) as [s1| | |] eqn:E;
      cbn [bind] in H; try discriminate H.
    injection H as <-. apply updatePauseState_ear in E; assumption.
  - destruct blk;
      try (cbn [bind] in H; injection H as <-; exact HP).
    + unfold updateDataBlock in H. rewrite Eb in H.
      destruct (updateDataBlock_loop fuel fuel cpuCycles cycles _ s)
        as [s1| | |] eqn:E; cbn [bind] in H; try discriminate H.
      injection H as <-. apply updateDataBlock_loop_ear in E; assumption.
    + unfold updateDataBlock in H. rewrite Eb in H.
      destruct (updateDataBlock_loop fuel fuel cpuCycles cycles _ s)
        as [s1| | |] eqn:E; cbn [bind] in H; try discriminate H.
      injection H as <-. apply updateDataBlock_loop_ear in E; assumption.
    + destruct (updatePauseState fuel cpuCycles cycles s) as [s1| | |] eqn:E;
        cbn [bind] in H; try discriminate H.
      injection H as <-. apply updatePauseState_ear in E; assumption.
Qed.

(** X29.  The EAR level kept by the tape player is a bit: if it is 0 or
    1 before an [update] it is 0 or 1 after it, whatever blocks the
    tape holds, and so is every level handed to the ULA over a run of
    updates. *)
Theorem ear_level_is_a_bit (fuel : nat) (cs : list Z) (s : t)
    (Hear : lastEarBit s = 0 \/ lastEarBit s = 1) :
  (forall cpuCycles cycles s',
     update fuel cpuCycles cycles s = Ok s' ->
     lastEarBit s' = 0 \/ lastEarBit s' = 1) /\
  (forall bits,
     earTrace fuel cs s = Ok bits ->
     Forall (fun level => level = 0 \/ level = 1) bits).
Proof.
  split.
  - intros cpuCycles cycles s' H. now apply update_ear in H.
  - revert s Hear. induction cs as [|c cs IH]; intros s Hear bits H.
    + injection H as <-. constructor.
    + cbn [earTrace] in H.
      destruct (update fuel c c s) as [s1| | |] eqn:E;
        cbn [bind] in H; try discriminate H.
      apply update_ear in E; [|exact Hear].
      destruct (earTrace fuel cs s1) as [bits1| | |] eqn:E1;
        cbn [bind] in H; try discriminate H.
      injection H as <-. constructor; [exact E|].
      exact (IH s1 E bits1 E1).
Qed.

Lemma ear_level_is_a_bit_witness :
  lastEarBit Run.tapePausedLater = 0 \/ lastEarBit Run.tapePausedLater = 1.
Proof.
  refine (proj1 (ear_level_is_a_bit 10 [] Run.tapePaused _) 100 100
            Run.tapePausedLater _).
  - left. reflexivity.
  - reflexivity.
Defined.

Lemma pause_step (fuel : nat) (c : Z) (s : t) (blk : block) :
  playing s = true -> paused s = false -> currentBlock s = Some blk ->
  state s = PAUSE -> 0 < pauseCycles s ->
  c - lastUpdateCycle s < pauseCycles s ->
  update fuel c c s
  = Ok (with_lastUpdateCycle
          (with_lastEarBit
             (with_pauseCycles s (pauseCycles s - (c - lastUpdateCycle s)))
             0) c).
Proof.
  intros Hpl Hpa Hb Hst Hp Hc.
  unfold update, updatePauseState.
  rewrite Hpl, Hpa, Hb, Hst. cbn [negb orb State_eqb]. cbv zeta.
  destruct (Z.gtb_spec (pauseCycles s) 0); [|lia].
  cbn [pauseCycles with_pauseCycles with_lastEarBit lastUpdateCycle].
  destruct (Z.leb_spec (pauseCycles s - (c - lastUpdateCycle s)) 0); [lia|].
  reflexivity.
Qed.

Lemma pause_end (fuel : nat) (c : Z) (s : t) (blk : block) :
  playing s = true -> paused s = false -> currentBlock s = Some blk ->
  state s = PAUSE -> 0 < pauseCycles s ->
  pauseCycles s <= c - lastUpdateCycle s ->
  update fuel c c s
  = bind (nextBlock fuel c
            (with_state (with_pauseCycles (with_lastEarBit s 0) 0) IDLE))
         (fun s => Ok (with_lastUpdateCycle s c)).
Proof.
  intros Hpl Hpa Hb Hst Hp Hc.
  unfold update, updatePauseState.
  rewrite Hpl, Hpa, Hb, Hst. cbn [negb orb State_eqb]. cbv zeta.
  destruct (Z.gtb_spec (pauseCycles s) 0); [|lia].
  cbn [pauseCycles with_pauseCycles with_lastEarBit lastUpdateCycle].
  destruct (Z.leb_spec (pauseCycles s - (c - lastUpdateCycle s)) 0); [|lia].
  now destruct s.
Qed.

(** X30.  The pause after a block: while the player is in the PAUSE
    state with pause time left, every update whose time is less than
    the pause's end keeps it there, takes the elapsed T-states off the
    remaining time and returns EAR level 0; the first update at or
    past the end moves on to the next block. *)
Theorem pause_is_silent (fuel : nat) (cs : list Z) (s : t) (blk : block)
    (Hpl : playing s = true) (Hpa : paused s = false)
    (Hb : currentBlock s = Some blk) (Hst : state s = PAUSE)
    (Hp : 0 < pauseCycles s)
    (Hcs : Forall (fun c => c - lastUpdateCycle s < pauseCycles s) cs) :
  exists s',
    drive fuel cs s = Ok s' /\
    earTrace fuel cs s = Ok (map (fun _ => 0) cs) /\
    state s' = PAUSE /\ playing s' = true /\ currentBlock s' = Some blk /\
    blockIndex s' = blockIndex s /\
    lastUpdateCycle s' = List.last cs (lastUpdateCycle s) /\
    pauseCycles s'
    = pauseCycles s - (lastUpdateCycle s' - lastUpdateCycle s) /\
    (forall c,
       pauseCycles s' <= c - lastUpdateCycle s' ->
       update fuel c c s'
       = bind (nextBlock fuel c
                 (with_state (with_pauseCycles (with_lastEarBit s' 0) 0)
                    IDLE))
              (fun s => Ok (with_lastUpdateCycle s c))).
Proof.
  revert s Hpl Hpa Hb Hst Hp Hcs.
  induction cs as [|c cs IH]; intros s Hpl Hpa Hb Hst Hp Hcs.
  - exists s. cbn [drive earTrace map List.last].
    repeat split; try assumption; try reflexivity; try lia.
    intros c Hc. now apply (pause_end fuel c s blk).
  - inversion Hcs as [|? ? Hc Hcs']; subst.
    pose proof (pause_step fuel c s blk Hpl Hpa Hb Hst Hp Hc) as E.
    set (s1 := with_lastUpdateCycle _ c) in E.
    destruct (IH s1) as (s' & D & T & S1 & S2 & S3 & S4 & S5 & S6 & S7);
      try assumption.
    + subst s1. cbn [pauseCycles with_lastUpdateCycle with_lastEarBit
                       with_pauseCycles]. lia.
    + subst s1. cbn [pauseCycles lastUpdateCycle with_lastUpdateCycle
                       with_lastEarBit with_pauseCycles].
      eapply Forall_impl; [exact Hcs'|]. cbv beta. intros c' Hc'. lia.
    + exists s'. cbn [drive earTrace map]. rewrite E. cbn [bind].
      rewrite D, T. cbn [bind].
      split; [reflexivity|]. split; [reflexivity|].
      split; [exact S1|]. split; [exact S2|]. split; [exact S3|].
      split; [exact S4|].
      split; [rewrite S5; symmetry; apply last_cons_default|].
      split; [|exact S7].
      rewrite S6. subst s1.
      cbn [pauseCycles lastUpdateCycle with_lastUpdateCycle
             with_lastEarBit with_pauseCycles]. lia.
Qed.

Lemma pause_is_silent_witness :
  exists s',
    drive 10 [100; 2000] Run.tapePaused = Ok s' /\
    earTrace 10 [100; 2000] Run.tapePaused = Ok [0; 0] /\
    state s' = PAUSE.
Proof.
  destruct (pause_is_silent 10 [100; 2000] Run.tapePaused Sample.headerBlock)
    as (s' & D & T & S & _); try reflexivity.
  - repeat constructor.
  - exists s'. split; [exact D|]. split; [exact T|exact S].
Defined.
End TapePlayer.
